(** * typespeed_ai_anticheat: the keystroke generator and the feature extractor

    A shallow embedding of

    - [src/analysis/feature_extractor.py] (modules [FeatureExtractor] and
      [Decoded]) and
    - [src/bots/typespeed_bot.py] (modules [TypespeedBot], [TargetText]
      and [Iteration]),

    followed by the properties of both that the specification states, and
    by further properties that the code shows.

    Python floats are IEEE binary64 numbers: they are modelled by Rocq's
    primitive floats, whose operations are the very same binary64 operations.
    The one numeric kernel whose specification argues over the reals,
    [autocorr_lag1], is written against a small arithmetic signature and read
    twice: on binary64 (what the program runs) and on exact rationals. *)

From Stdlib Require Import Bool String Ascii.
From Stdlib Require Import List ZArith QArith Qabs Lia Lqa Floats Sorted.
From Equations Require Import Equations.
Import ListNotations.

Set Warnings "-inexact-float,-register-all".

(* ================================================================== *)
(** * Python values, exceptions and arithmetic                         *)
(* ================================================================== *)

Module Py.

(** The exceptions the two scripts can meet. *)
Inductive exn : Type :=
| TypeError
| ZeroDivisionError
| ValueError
| JSONDecodeError
| PlaywrightError
| OverflowError
| OSError
| AttributeError.

(** The outcome of a Python expression: a value, or a raised exception. *)
Inductive result (X : Type) : Type :=
| Ok (x : X)
| Raise (e : exn).
Arguments Ok {X} x.
Arguments Raise {X} e.

Definition bind {X Y} (r : result X) (k : X -> result Y) : result Y :=
  match r with
  | Ok x => k x
  | Raise e => Raise e
  end.

(** [for x in xs] over a fallible body: the first exception ends the loop. *)
Fixpoint mapM {X Y} (f : X -> result Y) (xs : list X) : result (list Y) :=
  match xs with
  | [] => Ok []
  | x :: xs' =>
      bind (f x) (fun y => bind (mapM f xs') (fun ys => Ok (y :: ys)))
  end.

(** A JSON scalar as [json.load] returns it: [None] (a [null], or what
    [dict.get] returns for an absent key), a number, or a string. *)
Inductive json (A : Type) : Type :=
| JNull
| JNum (x : A)
| JStr (s : string).
Arguments JNull {A}.
Arguments JNum {A} x.
Arguments JStr {A} s.

Definition is_not_None {A} (v : json A) : bool :=
  match v with JNull => false | _ => true end.

(** [v == s] for a string literal [s]. *)
Definition eq_str {A} (v : json A) (s : string) : bool :=
  match v with JStr t => String.eqb t s | _ => false end.

(** [v in (s1, s2, ...)] for a tuple of string literals. *)
Definition in_strs {A} (v : json A) (ss : list string) : bool :=
  existsb (eq_str v) ss.

(** The truth value of a list: [if xs]. *)
Definition nonempty {X} (xs : list X) : bool :=
  match xs with [] => false | _ => true end.

(** [xs[-1]]. *)
Definition last_item {X} (xs : list X) (d : X) : X := List.last xs d.

(** Elementwise combination of two sequences of the same length. *)
Fixpoint zip_with {X Y Z} (f : X -> Y -> Z) (xs : list X) (ys : list Y)
  : list Z :=
  match xs, ys with
  | x :: xs', y :: ys' => f x y :: zip_with f xs' ys'
  | _, _ => []
  end.

End Py.

Import Py.

Declare Scope py_scope.
Delimit Scope py_scope with py.
Notation "x <- c ;; k" := (Py.bind c (fun x => k))
  (at level 61, c at next level, right associativity) : py_scope.

(** The arithmetic a numeric kernel needs. *)
Class Number (A : Type) : Type := {
  zero : A;
  of_nat : nat -> A;           (* the float of a length or a count *)
  add : A -> A -> A;
  sub : A -> A -> A;
  mul : A -> A -> A;
  div : A -> A -> A;           (* NumPy's quotient: it never raises *)
  eqb : A -> A -> bool         (* [==] *)
}.

(** The binary64 number nearest to an integer (ties to even), infinite
    when the integer is beyond the largest float. *)
Definition float_of_Z (z : Z) : float :=
  SF2Prim (SpecFloat.binary_normalize prec emax z 0 false).

(** The conversion Python applies to an [int] that meets a [float] in
    [+], [-], [*] or [/]: correctly rounded, and [OverflowError] ("int too
    large to convert to float") when the result would not be finite. *)
Definition int_to_float (z : Z) : result float :=
  let f := float_of_Z z in
  if PrimFloat.is_infinity f then Raise OverflowError else Ok f.

Definition float_of_nat (n : nat) : float := float_of_Z (Z.of_nat n).

(** Binary64: what the program computes with. *)
#[export] Instance float_number : Number float := {|
  zero := 0%float;
  of_nat := float_of_nat;
  add := PrimFloat.add;
  sub := PrimFloat.sub;
  mul := PrimFloat.mul;
  div := PrimFloat.div;
  eqb := PrimFloat.eqb
|}.

(** Exact rationals: the same kernel without rounding or overflow. *)
#[export] Instance exact_number : Number Q := {|
  zero := 0%Q;
  of_nat := fun n => inject_Z (Z.of_nat n);
  add := Qplus;
  sub := Qminus;
  mul := Qmult;
  div := Qdiv;
  eqb := Qeq_bool
|}.

(* ================================================================== *)
(** * src/analysis/feature_extractor.py                                *)
(* ================================================================== *)

Module FeatureExtractor.

(** ** The numeric kernel, over any arithmetic *)

Section Kernel.
Context {A : Type} {N : Number A}.

(** [x.sum()]: NumPy adds the items of an array of fewer than 8 items in
    index order, starting from zero.  (It adds a longer array in blocks,
    pairwise: the same sum in exact arithmetic, and on binary64 a sum that
    can differ from this one in its last bits.  The series evaluated below
    on binary64 have at most 6 items.) *)
Definition np_sum (x : list A) : A := fold_left add x zero.

(** [x.mean()]: the sum divided by the number of items. *)
Definition np_mean (x : list A) : A := div (np_sum x) (of_nat (length x)).

(** [[
    def autocorr_lag1(xs):
        if len(xs) < 2:
            return 0.0
        x = np.array(xs)
        x = x - x.mean()
        denom = (x * x).sum()
        if denom == 0:
            return 0.0
        return float((x[1:] * x[:-1]).sum() / denom)
    ]] *)
Definition autocorr_lag1 (xs : list A) : A :=
  if length xs <? 2 then zero
  else
    let x := xs in
    let m := np_mean x in
    let x := map (fun v => sub v m) x in
    let denom := np_sum (zip_with mul x x) in
    if eqb denom zero then zero
    else div (np_sum (zip_with mul (tl x) (removelast x))) denom.

(** The specification's wording of the same quantity: the series is
    mean-centered, and the sums run over the positions of the series. *)
Definition centered (xs : list A) : list A :=
  map (fun v => sub v (np_mean xs)) xs.

Definition sum_squares (x : list A) : A :=
  np_sum (map (fun i => mul (nth i x zero) (nth i x zero))
              (seq 0 (length x))).

Definition sum_consecutive_products (x : list A) : A :=
  np_sum (map (fun i => mul (nth (S i) x zero) (nth i x zero))
              (seq 0 (length x - 1))).

Definition autocorr_lag1_spec (xs : list A) : A :=
  if length xs <? 2 then zero
  else if eqb (sum_squares (centered xs)) zero then zero
  else div (sum_consecutive_products (centered xs))
           (sum_squares (centered xs)).

End Kernel.

(** ** The script, on binary64 *)

Open Scope float_scope.

(** A Python float division [x / y]: it raises on a zero divisor. *)
Definition truediv (x y : float) : result float :=
  if PrimFloat.eqb y 0 then Raise ZeroDivisionError else Ok (x / y).

(** [x - y] on values read from JSON: only numbers subtract. *)
Definition py_sub (x y : json float) : result float :=
  match x, y with
  | JNum a, JNum b => Ok (a - b)
  | _, _ => Raise TypeError
  end.

(** [[
    def inter_key_intervals(ts_list):
        if len(ts_list) < 2:
            return []
        return [ (ts_list[i+1] - ts_list[i]) * 1000.0 for i in range(len(ts_list)-1) ]
    ]] *)
Definition inter_key_intervals (ts_list : list (json float))
  : result (list float) :=
  if (length ts_list <? 2)%nat then Ok []
  else
    mapM (fun i =>
            (d <- py_sub (nth (i + 1) ts_list JNull) (nth i ts_list JNull) ;;
             Ok (d * 1000))%py)
         (seq 0 (length ts_list - 1)).

(** Python's [statistics] module is a library: its three functions enter
    as parameters, taken to return a float on every non-empty list of
    floats.  The script calls them on non-empty lists only. *)
Record Statistics : Type := {
  mean : list float -> float;
  pstdev : list float -> float;
  median : list float -> float
}.

(** The built-ins [min] and [max]: the first item is kept until a later one
    compares strictly smaller (larger). *)
Definition py_min (xs : list float) : float :=
  match xs with
  | [] => 0
  | x :: rest => fold_left (fun m v => if PrimFloat.ltb v m then v else m) rest x
  end.

Definition py_max (xs : list float) : float :=
  match xs with
  | [] => 0
  | x :: rest => fold_left (fun m v => if PrimFloat.ltb m v then v else m) rest x
  end.

(** One entry of ["keystroke_log"], a JSON object read with [k.get(...)];
    each of its three values is [None], a number or a string. *)
Record LogEntry : Type := {
  j_key : json float;
  j_timestamp : json float;
  j_action : json float
}.

(** ["meta"], read with [meta.get(...)]. *)
Record Meta : Type := {
  m_profile : json float;
  m_site_mode : json float;
  m_start_time : json float;
  m_end_time : json float;
  m_extracted_wpm : json float;
  m_extracted_accuracy : json float
}.

(** [d.get("meta", {})] of a record with no ["meta"]. *)
Definition empty_meta : Meta :=
  {| m_profile := JNull; m_site_mode := JNull; m_start_time := JNull;
     m_end_time := JNull; m_extracted_wpm := JNull;
     m_extracted_accuracy := JNull |}.

(** A stored run record; an absent key is [None]. *)
Record RunRecord : Type := {
  meta : option Meta;
  keystroke_log : option (list LogEntry)
}.

(** The row of one run, without its file name. *)
Record FeatureRecord : Type := {
  r_profile : json float;
  r_site_mode : json float;
  r_start_time : json float;
  r_end_time : json float;
  r_chars_typed : nat;
  r_duration_s : float;
  r_computed_wpm : float;
  r_mean_iki_ms : float;
  r_std_iki_ms : float;
  r_median_iki_ms : float;
  r_min_iki_ms : float;
  r_max_iki_ms : float;
  r_backspace_count : nat;
  r_backspace_rate : float;
  r_burst_fraction : float;
  r_autocorr_lag1 : float;
  r_extracted_wpm : json float;
  r_extracted_accuracy : json float
}.

Section Script.
Variable statistics : Statistics.

(** [[
    def safe_mean(xs):
        return float(statistics.mean(xs)) if xs else 0.0
    def safe_std(xs):
        return float(statistics.pstdev(xs)) if xs else 0.0
    ]] *)
Definition safe_mean (xs : list float) : float :=
  if nonempty xs then mean statistics xs else 0.

Definition safe_std (xs : list float) : float :=
  if nonempty xs then pstdev statistics xs else 0.

(** [[
    timestamps = [k.get("timestamp") for k in ks if k.get("timestamp") is not None]
    keys = [k.get("key") for k in ks]
    ]] *)
Definition timestamps_of (ks : list LogEntry) : list (json float) :=
  map j_timestamp (filter (fun k => is_not_None (j_timestamp k)) ks).

Definition keys_of (ks : list LogEntry) : list (json float) :=
  map j_key ks.

(** [ikis = inter_key_intervals(timestamps)] *)
Definition ikis_of (ks : list LogEntry) : result (list float) :=
  inter_key_intervals (timestamps_of ks).

(** [chars_typed = sum(1 for k in keys if k not in ("Backspace", "Shift", "Enter"))] *)
Definition chars_typed_of (keys : list (json float)) : nat :=
  length (filter (fun k => negb (in_strs k ["Backspace"; "Shift"; "Enter"]%string))
                 keys).

(** [duration_s = (timestamps[-1] - timestamps[0]) if len(timestamps) >= 2 else 0.0] *)
Definition duration_s_of (timestamps : list (json float)) : result float :=
  if (2 <=? length timestamps)%nat
  then py_sub (last_item timestamps JNull) (nth 0 timestamps JNull)
  else Ok 0.

(** [computed_wpm = (chars_typed / 5.0) / (duration_s / 60.0) if duration_s > 0 else 0.0] *)
Definition computed_wpm_of (chars_typed : nat) (duration_s : float)
  : result float :=
  if PrimFloat.ltb 0 duration_s
  then truediv (float_of_nat chars_typed / 5) (duration_s / 60)
  else Ok 0.

(** [backspaces = sum(1 for k in keys if k == "Backspace")] *)
Definition backspaces_of (keys : list (json float)) : nat :=
  length (filter (fun k => eq_str k "Backspace"%string) keys).

(** [burst_fraction = (sum(1 for x in ikis if x < 30.0) / len(ikis)) if ikis else 0.0] *)
Definition burst_fraction_of (ikis : list float) : float :=
  if nonempty ikis
  then float_of_nat (length (filter (fun x => PrimFloat.ltb x 30) ikis))
       / float_of_nat (length ikis)
  else 0.

(** [meta = d.get("meta", {})] and [ks = d.get("keystroke_log", [])] *)
Definition meta_of (d : RunRecord) : Meta :=
  match meta d with Some m => m | None => empty_meta end.

Definition entries_of (d : RunRecord) : list LogEntry :=
  match keystroke_log d with Some l => l | None => [] end.

(** The body of the loop over the stored records, from the decoded
    record [d] to its row. *)
Definition extract (d : RunRecord) : result FeatureRecord :=
  (let meta := meta_of d in
   let ks := entries_of d in
   let timestamps := timestamps_of ks in
   let keys := keys_of ks in
   ikis <- inter_key_intervals timestamps ;;
   let chars_typed := chars_typed_of keys in
   duration_s <- duration_s_of timestamps ;;
   computed_wpm <- computed_wpm_of chars_typed duration_s ;;
   let backspaces := backspaces_of keys in
   let burst_fraction := burst_fraction_of ikis in
   Ok {| r_profile := m_profile meta;
         r_site_mode := m_site_mode meta;
         r_start_time := m_start_time meta;
         r_end_time := m_end_time meta;
         r_chars_typed := chars_typed;
         r_duration_s := duration_s;
         r_computed_wpm := computed_wpm;
         r_mean_iki_ms := safe_mean ikis;
         r_std_iki_ms := safe_std ikis;
         r_median_iki_ms := if nonempty ikis then median statistics ikis else 0;
         r_min_iki_ms := if nonempty ikis then py_min ikis else 0;
         r_max_iki_ms := if nonempty ikis then py_max ikis else 0;
         r_backspace_count := backspaces;
         r_backspace_rate :=
           if (0 <? chars_typed)%nat
           then float_of_nat backspaces / float_of_nat chars_typed
           else 0;
         r_burst_fraction := burst_fraction;
         r_autocorr_lag1 := autocorr_lag1 ikis;
         r_extracted_wpm := m_extracted_wpm meta;
         r_extracted_accuracy := m_extracted_accuracy meta |})%py.

(** What a file of [data/raw_logs/] holds: the text of a run record, or
    text that [json.load] rejects. *)
Inductive FileContent : Type :=
| Json (d : RunRecord)
| NotJson.

Definition json_load (f : FileContent) : result RunRecord :=
  match f with
  | Json d => Ok d
  | NotJson => Raise JSONDecodeError
  end.

(** [[
    rows = []
    for path in sorted(glob.glob(str(RAW_DIR / "*.json"))):
        ... d = json.load(f) ... rows.append(row)
    ]]
    [files] lists the directory in sorted order, each file name with its
    content; [rows] is the accumulator.  There is no [try] in the loop:
    an exception leaves the loop and the script. *)
Fixpoint rows_loop (files : list (string * FileContent))
         (rows : list (string * FeatureRecord))
  : result (list (string * FeatureRecord)) :=
  match files with
  | [] => Ok rows
  | (path, f) :: files' =>
      (d <- json_load f ;;
       row <- extract d ;;
       rows_loop files' (rows ++ [(path, row)]))%py
  end.

Definition build_rows (files : list (string * FileContent))
  : result (list (string * FeatureRecord)) :=
  rows_loop files [].

(** The end of the script: [features.csv] is written when there are
    rows, and nothing is written otherwise. *)
Definition features_csv (files : list (string * FileContent))
  : result (option (list (string * FeatureRecord))) :=
  (rows <- build_rows files ;;
   Ok (if nonempty rows then Some rows else None))%py.

End Script.

(** What one file contributes: its decoded record, extracted. *)
Definition process (statistics : Statistics) (f : FileContent)
  : result FeatureRecord :=
  (d <- json_load f ;; extract statistics d)%py.

(** The row of one file, with the file's name. *)
Definition named_row (lib : Statistics) (pf : string * FileContent)
  : result (string * FeatureRecord) :=
  (row <- process lib (snd pf) ;; Ok (fst pf, row))%py.

(** The intervals of a list of numbers, one after the other. *)
Fixpoint gaps (ts : list float) : list float :=
  match ts with
  | a :: (b :: _) as rest => (b - a) * 1000 :: gaps rest
  | _ => []
  end.

(** An entry with a numeric timestamp, and an entry given another
    ["action"]. *)
Definition entry (k : json float) (t : float) (a : json float) : LogEntry :=
  {| j_key := k; j_timestamp := JNum t; j_action := a |}.

Definition with_action (a : json float) (k : LogEntry) : LogEntry :=
  {| j_key := j_key k; j_timestamp := j_timestamp k; j_action := a |}.

(** The specification's selection of timestamps: those of keypress events
    only. *)
Definition keypress_timestamps (ks : list LogEntry) : list (json float) :=
  map j_timestamp
      (filter (fun k => is_not_None (j_timestamp k)
                        && eq_str (j_action k) "keypress"%string) ks).

(** The keys the script does not count as typed characters. *)
Definition is_control_key (k : json float) : bool :=
  in_strs k ["Backspace"; "Shift"; "Enter"]%string.

End FeatureExtractor.

(* ================================================================== *)
(** * The timestamps as [json.load] decodes them                       *)
(* ================================================================== *)

Module Decoded.

Import Py.
Open Scope float_scope.

(** A value decoded from JSON: [null], [true] and [false], a number
    written without or with a fraction or an exponent (an [int] of any
    size, or a [float]), a string, an array, an object. *)
Inductive value : Type :=
| VNone
| VBool (b : bool)
| VInt (z : Z)
| VFloat (x : float)
| VStr (s : string)
| VList (items : list value)
| VDict (items : list (string * value)).

(** The operands of Python's arithmetic: an [int] or a [float]. *)
Inductive number : Type :=
| Int (z : Z)
| Float (x : float).

(** [bool] is a subclass of [int]; nothing else but [int] and [float]
    takes part in [-]. *)
Definition number_of (v : value) : option number :=
  match v with
  | VBool b => Some (Int (if b then 1 else 0))
  | VInt z => Some (Int z)
  | VFloat x => Some (Float x)
  | _ => None
  end.

(** [x - y]: exact on two ints; on an int and a float the int is
    converted; [TypeError] when an operand is not a number. *)
Definition py_sub (x y : value) : result number :=
  match number_of x, number_of y with
  | Some (Int a), Some (Int b) => Ok (Int (a - b))
  | Some (Float a), Some (Float b) => Ok (Float (a - b))
  | Some (Float a), Some (Int b) =>
      (fb <- int_to_float b ;; Ok (Float (a - fb)))%py
  | Some (Int a), Some (Float b) =>
      (fa <- int_to_float a ;; Ok (Float (fa - b)))%py
  | _, _ => Raise TypeError
  end.

(** [n * y] for a float [y]: an int [n] is converted. *)
Definition py_mul_float (n : number) (y : float) : result float :=
  match n with
  | Int z => (f <- int_to_float z ;; Ok (f * y))%py
  | Float x => Ok (x * y)
  end.

(** [(later - earlier) * 1000.0] *)
Definition gap_ms (later earlier : value) : result float :=
  (d <- py_sub later earlier ;; py_mul_float d 1000)%py.

(** [[
    def inter_key_intervals(ts_list):
        if len(ts_list) < 2:
            return []
        return [ (ts_list[i+1] - ts_list[i]) * 1000.0 for i in range(len(ts_list)-1) ]
    ]] *)
Definition inter_key_intervals (ts_list : list value)
  : result (list float) :=
  if (length ts_list <? 2)%nat then Ok []
  else
    mapM (fun i => gap_ms (nth (i + 1) ts_list VNone) (nth i ts_list VNone))
         (seq 0 (length ts_list - 1)).

(** The comprehension, item by item, from the first value on. *)
Fixpoint gaps_from (earlier : value) (rest : list value)
  : result (list float) :=
  match rest with
  | [] => Ok []
  | later :: rest' =>
      (x <- gap_ms later earlier ;;
       r <- gaps_from later rest' ;;
       Ok (x :: r))%py
  end.

Definition is_number (v : value) : bool :=
  match number_of v with Some _ => true | None => false end.

Definition is_int (v : value) : bool :=
  match v with VInt _ => true | _ => false end.

(** ** The body of the loop, on any decoded document *)

(** The pairs of a JSON object are decoded in order, a later pair
    replacing an earlier one with the same key: the value of a key is
    that of its last pair. *)
Fixpoint lookup (key : string) (items : list (string * value))
  : option value :=
  match items with
  | [] => None
  | (k, v) :: rest =>
      match lookup key rest with
      | Some later => Some later
      | None => if String.eqb k key then Some v else None
      end
  end.

(** [o.get(key, default)]: only a [dict] has the method. *)
Definition get (o : value) (key : string) (default : value) : result value :=
  match o with
  | VDict items =>
      Ok (match lookup key items with Some v => v | None => default end)
  | _ => Raise AttributeError
  end.

(** The keys of a [dict], each once, in the order of their first pair. *)
Fixpoint keys_from (seen : list string) (items : list (string * value))
  : list string :=
  match items with
  | [] => []
  | (k, _) :: rest =>
      if existsb (String.eqb k) seen then keys_from seen rest
      else k :: keys_from (k :: seen) rest
  end.

(** [for k in v]: the items of a list, the keys of a dict, the characters
    of a string; nothing else is iterable. *)
Definition iterate (v : value) : result (list value) :=
  match v with
  | VList items => Ok items
  | VDict items => Ok (map VStr (keys_from [] items))
  | VStr s =>
      Ok (map (fun c => VStr (String c EmptyString)) (list_ascii_of_string s))
  | _ => Raise TypeError
  end.

Definition is_None (v : value) : bool :=
  match v with VNone => true | _ => false end.

(** [v == s] for a string literal [s]: a value that is not a string
    compares unequal. *)
Definition eq_str (v : value) (s : string) : bool :=
  match v with VStr t => String.eqb t s | _ => false end.

(** [[
    timestamps = [k.get("timestamp") for k in ks if k.get("timestamp") is not None]
    keys = [k.get("key") for k in ks]
    ]] *)
Fixpoint timestamps_of (ks : list value) : result (list value) :=
  match ks with
  | [] => Ok []
  | k :: ks' =>
      (t <- get k "timestamp" VNone ;;
       rest <- timestamps_of ks' ;;
       Ok (if is_None t then rest else t :: rest))%py
  end.

Definition keys_of (ks : list value) : result (list value) :=
  mapM (fun k => get k "key" VNone) ks.

(** [chars_typed = sum(1 for k in keys if k not in ("Backspace", "Shift", "Enter"))] *)
Definition chars_typed_of (keys : list value) : nat :=
  length (filter (fun k => negb (existsb (eq_str k)
                                   ["Backspace"; "Shift"; "Enter"]%string))
                 keys).

(** [backspaces = sum(1 for k in keys if k == "Backspace")] *)
Definition backspaces_of (keys : list value) : nat :=
  length (filter (fun k => eq_str k "Backspace"%string) keys).

(** [duration_s = (timestamps[-1] - timestamps[0]) if len(timestamps) >= 2 else 0.0] *)
Definition duration_s_of (timestamps : list value) : result number :=
  if (2 <=? length timestamps)%nat
  then py_sub (last_item timestamps VNone) (nth 0 timestamps VNone)
  else Ok (Float 0).

(** [n > 0] and [n / y] for a float [y] that is not zero. *)
Definition positive (n : number) : bool :=
  match n with
  | Int z => (0 <? z)%Z
  | Float x => PrimFloat.ltb 0 x
  end.

Definition py_div_float (n : number) (y : float) : result float :=
  match n with
  | Int z => (f <- int_to_float z ;; Ok (f / y))%py
  | Float x => Ok (x / y)
  end.

(** [computed_wpm = (chars_typed / 5.0) / (duration_s / 60.0) if duration_s > 0 else 0.0] *)
Definition computed_wpm_of (chars_typed : nat) (duration_s : number)
  : result float :=
  if positive duration_s
  then (minutes <- py_div_float duration_s 60 ;;
        FeatureExtractor.truediv (float_of_nat chars_typed / 5) minutes)%py
  else Ok 0.

(** Python's [statistics] module is a library: its three functions enter
    as parameters that return a float or raise. *)
Record Library : Type := {
  mean : list float -> result float;
  pstdev : list float -> result float;
  median : list float -> result float
}.

(** The row of one run, without its file name. *)
Record Row : Type := {
  profile : value;
  site_mode : value;
  start_time : value;
  end_time : value;
  chars_typed : nat;
  duration_s : number;
  computed_wpm : float;
  mean_iki_ms : float;
  std_iki_ms : float;
  median_iki_ms : float;
  min_iki_ms : float;
  max_iki_ms : float;
  backspace_count : nat;
  backspace_rate : float;
  burst_fraction : float;
  autocorr_lag1 : float;
  extracted_wpm : value;
  extracted_accuracy : value
}.

(** [float(f(xs)) if xs else 0.0] for a function [f] of the library. *)
Definition guarded (f : list float -> result float) (xs : list float)
  : result float :=
  if nonempty xs then f xs else Ok 0.

(** The body of the loop, from the document [d] that [json.load] returns
    to its row, statement by statement; the items of the row are
    evaluated in the order in which the script lists them. *)
Definition extract (statistics : Library) (d : value) : result Row :=
  (meta <- get d "meta" (VDict []) ;;
   ks <- get d "keystroke_log" (VList []) ;;
   entries <- iterate ks ;;
   timestamps <- timestamps_of entries ;;
   keys <- keys_of entries ;;
   ikis <- inter_key_intervals timestamps ;;
   let chars_typed := chars_typed_of keys in
   duration_s <- duration_s_of timestamps ;;
   computed_wpm <- computed_wpm_of chars_typed duration_s ;;
   let backspaces := backspaces_of keys in
   let burst_fraction := FeatureExtractor.burst_fraction_of ikis in
   profile <- get meta "profile" VNone ;;
   site_mode <- get meta "site_mode" VNone ;;
   start_time <- get meta "start_time" VNone ;;
   end_time <- get meta "end_time" VNone ;;
   mean_iki_ms <- guarded (mean statistics) ikis ;;
   std_iki_ms <- guarded (pstdev statistics) ikis ;;
   median_iki_ms <- guarded (median statistics) ikis ;;
   extracted_wpm <- get meta "extracted_wpm" VNone ;;
   extracted_accuracy <- get meta "extracted_accuracy" VNone ;;
   Ok {| profile := profile;
         site_mode := site_mode;
         start_time := start_time;
         end_time := end_time;
         chars_typed := chars_typed;
         duration_s := duration_s;
         computed_wpm := computed_wpm;
         mean_iki_ms := mean_iki_ms;
         std_iki_ms := std_iki_ms;
         median_iki_ms := median_iki_ms;
         min_iki_ms :=
           if nonempty ikis then FeatureExtractor.py_min ikis else 0;
         max_iki_ms :=
           if nonempty ikis then FeatureExtractor.py_max ikis else 0;
         backspace_count := backspaces;
         backspace_rate :=
           if (0 <? chars_typed)%nat
           then float_of_nat backspaces / float_of_nat chars_typed
           else 0;
         burst_fraction := burst_fraction;
         autocorr_lag1 := FeatureExtractor.autocorr_lag1 ikis;
         extracted_wpm := extracted_wpm;
         extracted_accuracy := extracted_accuracy |})%py.

(** ** The documents of the extractor's model *)

(** The values of the extractor's model among the decoded ones. *)
Definition decoded (v : json float) : value :=
  match v with
  | JNull => VNone
  | JNum x => VFloat x
  | JStr s => VStr s
  end.

Definition decoded_entry (k : FeatureExtractor.LogEntry) : value :=
  VDict [("key"%string, decoded (FeatureExtractor.j_key k));
         ("timestamp"%string, decoded (FeatureExtractor.j_timestamp k));
         ("action"%string, decoded (FeatureExtractor.j_action k))].

Definition decoded_meta (m : FeatureExtractor.Meta) : value :=
  VDict [("profile"%string, decoded (FeatureExtractor.m_profile m));
         ("site_mode"%string, decoded (FeatureExtractor.m_site_mode m));
         ("start_time"%string, decoded (FeatureExtractor.m_start_time m));
         ("end_time"%string, decoded (FeatureExtractor.m_end_time m));
         ("extracted_wpm"%string,
           decoded (FeatureExtractor.m_extracted_wpm m));
         ("extracted_accuracy"%string,
           decoded (FeatureExtractor.m_extracted_accuracy m))].

(** A record of the model as a document: an absent key is absent. *)
Definition decoded_record (d : FeatureExtractor.RunRecord) : value :=
  VDict
    ((match FeatureExtractor.meta d with
      | Some m => [("meta"%string, decoded_meta m)]
      | None => []
      end)
     ++ (match FeatureExtractor.keystroke_log d with
         | Some l => [("keystroke_log"%string, VList (map decoded_entry l))]
         | None => []
         end)).

(** A row of the model as a row. *)
Definition decoded_row (r : FeatureExtractor.FeatureRecord) : Row :=
  {| profile := decoded (FeatureExtractor.r_profile r);
     site_mode := decoded (FeatureExtractor.r_site_mode r);
     start_time := decoded (FeatureExtractor.r_start_time r);
     end_time := decoded (FeatureExtractor.r_end_time r);
     chars_typed := FeatureExtractor.r_chars_typed r;
     duration_s := Float (FeatureExtractor.r_duration_s r);
     computed_wpm := FeatureExtractor.r_computed_wpm r;
     mean_iki_ms := FeatureExtractor.r_mean_iki_ms r;
     std_iki_ms := FeatureExtractor.r_std_iki_ms r;
     median_iki_ms := FeatureExtractor.r_median_iki_ms r;
     min_iki_ms := FeatureExtractor.r_min_iki_ms r;
     max_iki_ms := FeatureExtractor.r_max_iki_ms r;
     backspace_count := FeatureExtractor.r_backspace_count r;
     backspace_rate := FeatureExtractor.r_backspace_rate r;
     burst_fraction := FeatureExtractor.r_burst_fraction r;
     autocorr_lag1 := FeatureExtractor.r_autocorr_lag1 r;
     extracted_wpm := decoded (FeatureExtractor.r_extracted_wpm r);
     extracted_accuracy :=
       decoded (FeatureExtractor.r_extracted_accuracy r) |}.

(** A library that never raises. *)
Definition returning (lib : FeatureExtractor.Statistics) : Library :=
  {| mean := fun xs => Ok (FeatureExtractor.mean lib xs);
     pstdev := fun xs => Ok (FeatureExtractor.pstdev lib xs);
     median := fun xs => Ok (FeatureExtractor.median lib xs) |}.

End Decoded.

(* ================================================================== *)
(** * src/bots/typespeed_bot.py                                        *)
(* ================================================================== *)

Module TypespeedBot.

Open Scope float_scope.

(** ["action": "keypress"|"backspace"] *)
Inductive Action : Type := keypress | backspace.

(** One entry of the keystroke log:
    [{"key": str, "timestamp": float, "action": ...}]. *)
Record KeystrokeEvent : Type := {
  key : string;
  timestamp : float;
  action : Action
}.

(** [--mode], restricted by [argparse] to its three choices. *)
Inductive Profile : Type := superhuman | bot_obvious | human_like.

(** The arguments the generator reads. *)
Record Args : Type := {
  mode : Profile;
  site_mode : string;
  delay_min : Z;
  delay_max : Z;
  fixed_delay_ms : Z;
  max_chars : Z
}.

(** ** The world outside the script

    The page, the clock, the random generator and the system that puts
    the process to sleep are not code of the script.  An [Env] fixes how
    they answer: what each call returns or whether it throws, by the
    number of the call; and what the system makes of a sleep of more than
    a second, by its length. *)
Record Env : Type := {
  wait_ok : string -> bool;     (* [page.wait_for_selector(sel)] returns *)
  click_ok : string -> bool;    (* [page.click(sel)] returns *)
  clock : nat -> float;         (* the n-th reading of [time.time()] *)
  keyboard_ok : nat -> bool;    (* the n-th [page.keyboard] call returns *)
  evaluate_ok : nat -> bool;    (* the n-th [page.evaluate] call returns *)
  random_draw : nat -> float;   (* the n-th draw of [random.random()] *)
  choice_draw : nat -> nat;     (* the n-th index drawn by [random.choice] *)
  sleep_error : float -> option exn
                                (* what the system makes of a long sleep *)
}.

(** What the script did to the world, in order. *)
Inductive Effect : Type :=
| WaitForSelector (sel : string) (ok : bool)
| Click (sel : string) (ok : bool)
| KeyboardType (ch : string) (ok : bool)
| KeyboardPress (k : string) (ok : bool)
| Evaluate (event k : string) (ok : bool)
| Sleep (seconds : float).

(** The state a run threads: how often each part of the world was asked,
    the effects so far, and the local list [log]. *)
Record State : Type := {
  n_clock : nat;
  n_keyboard : nat;
  n_evaluate : nat;
  n_random : nat;
  n_choice : nat;
  trace : list Effect;
  log : list KeystrokeEvent
}.

(** A statement of the script: it changes the state and returns or raises;
    what it did before raising stays done. *)
Definition M (X : Type) : Type := State -> result X * State.

Definition ret {X} (x : X) : M X := fun s => (Ok x, s).

Definition mbind {X Y} (m : M X) (k : X -> M Y) : M Y :=
  fun s =>
    match m s with
    | (Ok x, s') => k x s'
    | (Raise e, s') => (Raise e, s')
    end.

(** [try: body except Exception: handler] *)
Definition try_except {X} (body handler : M X) : M X :=
  fun s =>
    match body s with
    | (Ok x, s') => (Ok x, s')
    | (Raise _, s') => handler s'
    end.

Declare Scope bot_scope.
Delimit Scope bot_scope with bot.
Notation "x <- c ;; k" := (mbind c (fun x => k))
  (at level 61, c at next level, right associativity) : bot_scope.
Notation "c ;; k" := (mbind c (fun _ => k))
  (at level 61, right associativity) : bot_scope.

Section Run.
Variable env : Env.
(** The module-level selector of the input; the script ships with
    ["#typing-input"]. *)
Variable SELECTOR_HIDDEN_INPUT : string.

Definition emit (e : Effect) : State -> State :=
  fun s => {| n_clock := n_clock s; n_keyboard := n_keyboard s;
              n_evaluate := n_evaluate s; n_random := n_random s;
              n_choice := n_choice s; trace := trace s ++ [e];
              log := log s |}.

Definition outcome (ok : bool) : result unit :=
  if ok then Ok tt else Raise PlaywrightError.

Definition page_wait_for_selector (sel : string) : M unit :=
  fun s => (outcome (wait_ok env sel),
            emit (WaitForSelector sel (wait_ok env sel)) s).

Definition page_click (sel : string) : M unit :=
  fun s => (outcome (click_ok env sel),
            emit (Click sel (click_ok env sel)) s).

Definition next_keyboard (e : bool -> Effect) : M unit :=
  fun s =>
    let ok := keyboard_ok env (n_keyboard s) in
    (outcome ok,
     {| n_clock := n_clock s; n_keyboard := S (n_keyboard s);
        n_evaluate := n_evaluate s; n_random := n_random s;
        n_choice := n_choice s; trace := trace s ++ [e ok];
        log := log s |}).

Definition page_keyboard_type (ch : string) : M unit :=
  next_keyboard (KeyboardType ch).

Definition page_keyboard_press (k : string) : M unit :=
  next_keyboard (KeyboardPress k).

(** [page.evaluate(...)] dispatching a synthetic [KeyboardEvent]. *)
Definition page_evaluate (event k : string) : M unit :=
  fun s =>
    let ok := evaluate_ok env (n_evaluate s) in
    (outcome ok,
     {| n_clock := n_clock s; n_keyboard := n_keyboard s;
        n_evaluate := S (n_evaluate s); n_random := n_random s;
        n_choice := n_choice s;
        trace := trace s ++ [Evaluate event k ok];
        log := log s |}).

Definition time_time : M float :=
  fun s =>
    (Ok (clock env (n_clock s)),
     {| n_clock := S (n_clock s); n_keyboard := n_keyboard s;
        n_evaluate := n_evaluate s; n_random := n_random s;
        n_choice := n_choice s; trace := trace s; log := log s |}).

(** [time.sleep(secs)].  A NaN raises [ValueError]; the length is
    converted to nanoseconds, [secs * 1e9], which raises [OverflowError]
    outside the range of a signed 64-bit integer; a negative length raises
    [ValueError].  A length of at most one second is then slept.  What
    happens to a longer one is the system's matter ([OSError] when the
    deadline is beyond what it can represent, and, at the very edge of the
    range, the error the interpreter's version gives): [sleep_error] tells
    it. *)
Definition time_sleep (secs : float) : M unit :=
  fun s =>
    if PrimFloat.is_nan secs then (Raise ValueError, s)
    else
      let ns := (secs * 1e9)%float in
      if PrimFloat.ltb ns (-9223372036854775808)
         || PrimFloat.ltb 9223372036854775808 ns
      then (Raise OverflowError, s)
      else if PrimFloat.ltb secs 0 then (Raise ValueError, s)
      else if PrimFloat.leb secs 1 then (Ok tt, emit (Sleep secs) s)
      else match sleep_error env secs with
           | Some e => (Raise e, s)
           | None => (Ok tt, emit (Sleep secs) s)
           end.

Definition random_random : M float :=
  fun s =>
    (Ok (random_draw env (n_random s)),
     {| n_clock := n_clock s; n_keyboard := n_keyboard s;
        n_evaluate := n_evaluate s; n_random := S (n_random s);
        n_choice := n_choice s; trace := trace s; log := log s |}).

Definition lift {X} (r : result X) : M X := fun s => (r, s).

(** [random.uniform(a, b)] is [a + (b - a) * self.random()], here on two
    ints: the difference is exact, the draw is made, and the product and
    the sum convert their int operand. *)
Definition random_uniform (a b : Z) : M float :=
  (r <- random_random ;;
   width <- lift (int_to_float (b - a)) ;;
   low <- lift (int_to_float a) ;;
   ret (low + width * r))%bot.

(** [random.choice(seq)]: the item at a drawn index. *)
Definition random_choice (seq : string) : M string :=
  fun s =>
    let i := Nat.modulo (choice_draw env (n_choice s)) (String.length seq) in
    (Ok (match String.get i seq with
         | Some c => String c EmptyString
         | None => EmptyString
         end),
     {| n_clock := n_clock s; n_keyboard := n_keyboard s;
        n_evaluate := n_evaluate s; n_random := n_random s;
        n_choice := S (n_choice s); trace := trace s; log := log s |}).

(** [log.append(e)] *)
Definition log_append (e : KeystrokeEvent) : M unit :=
  fun s =>
    (Ok tt,
     {| n_clock := n_clock s; n_keyboard := n_keyboard s;
        n_evaluate := n_evaluate s; n_random := n_random s;
        n_choice := n_choice s; trace := trace s;
        log := log s ++ [e] |}).

(** [log = []] *)
Definition log_reset : M unit :=
  fun s =>
    (Ok tt,
     {| n_clock := n_clock s; n_keyboard := n_keyboard s;
        n_evaluate := n_evaluate s; n_random := n_random s;
        n_choice := n_choice s; trace := trace s; log := [] |}).

Definition get_log : M (list KeystrokeEvent) := fun s => (Ok (log s), s).

(** [[
    try:
        if SELECTOR_HIDDEN_INPUT:
            page.wait_for_selector(SELECTOR_HIDDEN_INPUT, timeout=3000)
            page.click(SELECTOR_HIDDEN_INPUT)
        else:
            page.click("body")
    except Exception:
        try:
            page.click("body")
        except Exception:
            pass
    ]] *)
Definition focus : M unit :=
  try_except
    (if (0 <? String.length SELECTOR_HIDDEN_INPUT)%nat
     then (page_wait_for_selector SELECTOR_HIDDEN_INPUT ;;
           page_click SELECTOR_HIDDEN_INPUT)%bot
     else page_click "body")
    (try_except (page_click "body") (ret tt)).

(** [[
    def do_type_char(ch):
        ts = time.time()
        try:
            if len(ch) > 1:
                page.keyboard.press(ch)
            else:
                page.keyboard.type(ch, delay=0)
        except Exception:
            page.evaluate("(c) => { window.dispatchEvent(new KeyboardEvent('keypress', {key: c})); }", ch)
        log.append({"key": ch, "timestamp": ts, "action": "keypress"})
    ]] *)
Definition do_type_char (ch : string) : M unit :=
  (ts <- time_time ;;
   try_except
     (if (1 <? String.length ch)%nat
      then page_keyboard_press ch
      else page_keyboard_type ch)
     (page_evaluate "keypress" ch) ;;
   log_append {| key := ch; timestamp := ts; action := keypress |})%bot.

(** The backspace of the human-like profile:
    [[
    ts = time.time()
    try:
        page.keyboard.press("Backspace")
    except Exception:
        page.evaluate("() => { window.dispatchEvent(new KeyboardEvent('keydown', {key:'Backspace'})); }")
    log.append({"key": "Backspace", "timestamp": ts, "action": "backspace"})
    ]] *)
Definition do_backspace : M unit :=
  (ts <- time_time ;;
   try_except
     (page_keyboard_press "Backspace")
     (page_evaluate "keydown" "Backspace") ;;
   log_append {| key := "Backspace"; timestamp := ts;
                 action := backspace |})%bot.

Definition lowercase : string := "abcdefghijklmnopqrstuvwxyz".

(** The body of the [while] loop at the character [ch = text[i]];
    [more] tells whether [i + 1 < len(text)]. *)
Definition type_one (profile : Profile) (args : Args)
           (ch : string) (more : bool) : M unit :=
  match profile with
  | superhuman => do_type_char ch
  | bot_obvious =>
      (do_type_char ch ;;
       delay <- lift (int_to_float (fixed_delay_ms args)) ;;
       time_sleep (delay / 1000))%bot
  | human_like =>
      (r <- random_random ;;
       (if PrimFloat.ltb r 0.02 && more
        then
          (wrong <- random_choice lowercase ;;
           do_type_char wrong ;;
           d <- random_uniform (delay_min args) (delay_max args) ;;
           time_sleep (d / 1000) ;;
           do_backspace ;;
           do_type_char ch)
        else do_type_char ch) ;;
       d <- random_uniform (delay_min args) (delay_max args) ;;
       time_sleep (d / 1000))%bot
  end.

(** [[
    i = 0
    while i < len(text) and typed_count < args.max_chars:
        ch = text[i]
        ...
        typed_count += 1
        i += 1
    ]]
    [rest] is [text[i:]]; every round types one character of the text
    and adds one to [typed_count]. *)
Fixpoint type_loop (profile : Profile) (args : Args)
         (rest : list ascii) (typed_count : Z) : M unit :=
  match rest with
  | [] => ret tt
  | c :: rest' =>
      if (typed_count <? max_chars args)%Z
      then
        (type_one profile args (String c EmptyString) (nonempty rest') ;;
         type_loop profile args rest' (typed_count + 1)%Z)%bot
      else ret tt
  end.

(** [def type_text_profile(page, text, profile, args)] *)
Definition type_text_profile (text : string) (profile : Profile)
           (args : Args) : M (list KeystrokeEvent) :=
  (log_reset ;;
   focus ;;
   type_loop profile args (list_ascii_of_string text) 0%Z ;;
   get_log)%bot.

(** [[
    def fallback_compute_wpm(keystroke_log, typed_chars_count):
        if not keystroke_log or len(keystroke_log) < 2:
            return 0.0
        start = keystroke_log[0]["timestamp"]
        end = keystroke_log[-1]["timestamp"]
        duration = max(0.001, end - start)
        minutes = duration / 60.0
        return (typed_chars_count / 5.0) / minutes if minutes > 0 else float("inf")
    ]] *)
Definition fallback_compute_wpm (keystroke_log : list KeystrokeEvent)
           (typed_chars_count : nat) : result float :=
  match keystroke_log with
  | [] => Ok 0
  | first :: _ =>
      if (length keystroke_log <? 2)%nat then Ok 0
      else
        let start := timestamp first in
        let end_ := timestamp (last_item keystroke_log first) in
        let d := end_ - start in
        let duration := if PrimFloat.ltb 0.001 d then d else 0.001 in
        let minutes := duration / 60 in
        if PrimFloat.ltb 0 minutes
        then FeatureExtractor.truediv (float_of_nat typed_chars_count / 5) minutes
        else Ok infinity
  end.

(** The ["meta"] of a finished run. *)
Record RunMeta : Type := {
  iteration : Z;
  profile : Profile;
  meta_site_mode : string;
  start_time : string;
  extracted_wpm : float;
  extracted_accuracy : option float;
  computed_wpm : float;
  keystrokes_count : nat;
  end_time : string
}.

(** What [run_iteration] reads besides the text: the two UTC time
    stamps, and the figures of the result panel when it finds them. *)
Record Observed : Type := {
  utc_start : string;
  utc_end : string;
  page_wpm : option float;
  page_accuracy : option float
}.

End Run.

(** A fresh process: nothing asked yet, nothing done. *)
Definition initial : State :=
  {| n_clock := 0; n_keyboard := 0; n_evaluate := 0; n_random := 0;
     n_choice := 0; trace := []; log := [] |}.

(** The entry of the keystroke log as [json.dump] stores it and
    [json.load] reads it back. *)
Definition stored (e : KeystrokeEvent) : FeatureExtractor.LogEntry :=
  {| FeatureExtractor.j_key := JStr (key e);
     FeatureExtractor.j_timestamp := JNum (timestamp e);
     FeatureExtractor.j_action :=
       JStr (match action e with
             | keypress => "keypress"
             | backspace => "backspace"
             end) |}.

(** The same world with another page to focus. *)
Definition with_page (w c : string -> bool) (env : Env) : Env :=
  {| wait_ok := w; click_ok := c; clock := clock env;
     keyboard_ok := keyboard_ok env; evaluate_ok := evaluate_ok env;
     random_draw := random_draw env; choice_draw := choice_draw env;
     sleep_error := sleep_error env |}.

(** ** Vocabulary of the properties *)

(** What holds of the result of a statement that returns. *)
Definition returns {X} (m : M X) (s : State) (Q : X -> State -> Prop) : Prop :=
  match m s with
  | (Ok x, s') => Q x s'
  | (Raise _, _) => True
  end.

(** A statement that neither logs nor reads the clock, however it ends. *)
Definition quiet {X} (m : M X) : Prop :=
  forall s, log (snd (m s)) = log s /\ n_clock (snd (m s)) = n_clock s.

(** The readings of the clock a run takes from the state [s] on. *)
Definition readings (env : Env) (s : State) (n : nat) : list float :=
  map (clock env) (seq (n_clock s) n).

(** From [s] to [s'] the log grew by [evs], and each of them carries the
    next reading of the clock. *)
Definition appended (env : Env) (s s' : State) (evs : list KeystrokeEvent)
  : Prop :=
  log s' = log s ++ evs
  /\ n_clock s' = (n_clock s + length evs)%nat
  /\ map timestamp evs = readings env s (length evs).

(** The shape of a log: keypresses, and corrected typos (a keypress, a
    backspace, a keypress). *)
Inductive shaped : list KeystrokeEvent -> Prop :=
| shaped_nil : shaped []
| shaped_key e l :
    action e = keypress -> shaped l -> shaped (e :: l)
| shaped_typo w b c l :
    action w = keypress -> action b = backspace -> action c = keypress ->
    shaped l -> shaped (w :: b :: c :: l).

(** A statement that, when it returns, has appended events with the actions
    [acts], in this order. *)
Definition emits (env : Env) {X} (m : M X) (acts : list Action) : Prop :=
  forall s,
    returns m s (fun _ s' =>
                   exists evs, appended env s s' evs /\ map action evs = acts).

Definition non_decreasing (ts : list float) : Prop :=
  StronglySorted (fun a b => PrimFloat.leb a b = true) ts.

Definition increasing (ts : list float) : Prop :=
  StronglySorted (fun a b => PrimFloat.ltb a b = true) ts.

(** Over the [n] readings a run takes from the state [s] on, the clock
    does not go back; it advances from each reading to the next. *)
Definition clock_steady (env : Env) (s : State) (n : nat) : Prop :=
  forall i j,
    (n_clock s <= i)%nat -> (i < j)%nat -> (j < n_clock s + n)%nat ->
    PrimFloat.leb (clock env i) (clock env j) = true.

Definition clock_advancing (env : Env) (s : State) (n : nat) : Prop :=
  forall i j,
    (n_clock s <= i)%nat -> (i < j)%nat -> (j < n_clock s + n)%nat ->
    PrimFloat.ltb (clock env i) (clock env j) = true.

(** Every backspace of the log stands right after a keypress and right
    before a keypress. *)
Definition backspaces_enclosed (l : list KeystrokeEvent) : Prop :=
  forall pre e post,
    l = pre ++ e :: post -> action e = backspace ->
    exists pre' w c post',
      pre = pre' ++ [w] /\ post = c :: post'
      /\ action w = keypress /\ action c = keypress.

(** Every backspace of the log stands between a keypress before it and a
    keypress after it, and its timestamp lies strictly between theirs. *)
Definition backspaces_between (l : list KeystrokeEvent) : Prop :=
  forall pre e post,
    l = pre ++ e :: post -> action e = backspace ->
    exists pre' w c post',
      pre = pre' ++ [w] /\ post = c :: post'
      /\ action w = keypress /\ action c = keypress
      /\ PrimFloat.ltb (timestamp w) (timestamp e) = true
      /\ PrimFloat.ltb (timestamp e) (timestamp c) = true.

(** Two states that differ in the trace of effects at most. *)
Definition same_but_trace (s1 s2 : State) : Prop :=
  n_clock s1 = n_clock s2 /\ n_keyboard s1 = n_keyboard s2
  /\ n_evaluate s1 = n_evaluate s2 /\ n_random s1 = n_random s2
  /\ n_choice s1 = n_choice s2 /\ log s1 = log s2.

(** Two statements that return or raise alike from such states, and lead
    to such states again. *)
Definition alike {X} (m1 m2 : M X) : Prop :=
  forall s1 s2,
    same_but_trace s1 s2 ->
    fst (m1 s1) = fst (m2 s2) /\ same_but_trace (snd (m1 s1)) (snd (m2 s2)).

(** ** Vocabulary of the further properties *)

(** A statement that touches neither the log nor the keyboard of the page,
    however it ends. *)
Definition silent {X} (m : M X) : Prop :=
  forall s,
    log (snd (m s)) = log s
    /\ n_keyboard (snd (m s)) = n_keyboard s
    /\ n_evaluate (snd (m s)) = n_evaluate s.

(** How many of the [n] keyboard calls made from the state [s] on throw. *)
Definition failed_keys (env : Env) (s : State) (n : nat) : nat :=
  length (filter (fun k => negb (keyboard_ok env k)) (seq (n_keyboard s) n)).

(** From [s] to [s'] the events [evs] were logged, with one keyboard call
    for each of them and one fallback call for each keyboard call that
    threw. *)
Definition typed_on (env : Env) (s s' : State) (evs : list KeystrokeEvent)
  : Prop :=
  log s' = log s ++ evs
  /\ n_keyboard s' = (n_keyboard s + length evs)%nat
  /\ n_evaluate s' = (n_evaluate s + failed_keys env s (length evs))%nat.

(** The events of one round of the loop at the character [c]: its
    keypress, or, under the human-like profile and before the last
    character of the text only, a one-letter key, a backspace and its
    keypress. *)
Definition round_of (p : Profile) (c : ascii) (more : bool)
           (evs : list KeystrokeEvent) : Prop :=
  (exists t,
      evs = [{| key := String c EmptyString; timestamp := t;
                action := keypress |}])
  \/ (p = human_like /\ more = true
      /\ exists w t1 t2 t3,
          evs = [{| key := String w EmptyString; timestamp := t1;
                    action := keypress |};
                 {| key := "Backspace"; timestamp := t2;
                    action := backspace |};
                 {| key := String c EmptyString; timestamp := t3;
                    action := keypress |}]).

(** The rounds the loop makes on [rest = text[i:]]: the character of each,
    and whether another character of the text follows it. *)
Fixpoint loop_rounds (args : Args) (rest : list ascii) (typed_count : Z)
  : list (ascii * bool) :=
  match rest with
  | [] => []
  | c :: rest' =>
      if (typed_count <? max_chars args)%Z
      then (c, nonempty rest') :: loop_rounds args rest' (typed_count + 1)%Z
      else []
  end.

(** The events of a sequence of rounds. *)
Inductive rounds (p : Profile)
  : list (ascii * bool) -> list KeystrokeEvent -> Prop :=
| rounds_nil : rounds p [] []
| rounds_cons c more rs evs1 evs2 :
    round_of p c more evs1 -> rounds p rs evs2 ->
    rounds p ((c, more) :: rs) (evs1 ++ evs2).

(** The key of a character of the text: [ch = text[i]]. *)
Definition key_of_char (c : ascii) : string := String c EmptyString.

(** The characters a run types: the text, cut at [max_chars]. *)
Definition typed_chars (args : Args) (text : string) : list ascii :=
  firstn (Z.to_nat (max_chars args)) (list_ascii_of_string text).

(** The log read as the edits of an input field: a keypress appends its
    key, a backspace removes the last key. *)
Definition replay (l : list KeystrokeEvent) : list string :=
  fold_left (fun buf e =>
               match action e with
               | keypress => buf ++ [key e]
               | backspace => removelast buf
               end) l [].

Definition is_backspace (e : KeystrokeEvent) : bool :=
  match action e with backspace => true | keypress => false end.

Definition is_keypress (e : KeystrokeEvent) : bool :=
  match action e with keypress => true | backspace => false end.

(** A statement that raises, when it raises, an exception in [P]. *)
Definition raises_only {X} (P : exn -> Prop) (m : M X) : Prop :=
  forall s e, fst (m s) = Raise e -> P e.

(** Some keyboard call and some fallback call throw; the exception of an
    emission that failed for good; the exceptions of a run. *)
Definition both_throw (env : Env) : Prop :=
  exists k n, keyboard_ok env k = false /\ evaluate_ok env n = false.

Definition emission_failure (env : Env) (e : exn) : Prop :=
  e = PlaywrightError /\ both_throw env.

(** The exceptions of a delay: those of [time.sleep] ([ValueError],
    [OverflowError], or what the system makes of a long sleep), and the
    [OverflowError] of a delay argument too large for a float. *)
Definition delay_failure (env : Env) (e : exn) : Prop :=
  e = ValueError \/ e = OverflowError
  \/ exists secs, sleep_error env secs = Some e.

Definition run_failure (env : Env) (p : Profile) (e : exn) : Prop :=
  emission_failure env e \/ (p <> superhuman /\ delay_failure env e).

(** A fixed delay that [time.sleep] takes without asking the system. *)
Definition short_delay (z : Z) : bool :=
  match int_to_float z with
  | Ok delay =>
      let secs := (delay / 1000)%float in
      let ns := (secs * 1e9)%float in
      negb (PrimFloat.is_nan secs)
      && negb (PrimFloat.ltb ns (-9223372036854775808)
               || PrimFloat.ltb 9223372036854775808 ns)
      && negb (PrimFloat.ltb secs 0)
      && PrimFloat.leb secs 1
  | Raise _ => false
  end.

(** ** The pauses of a run *)

(** The lengths of the calls of [time.sleep] in a trace, in order. *)
Definition sleeps (tr : list Effect) : list float :=
  flat_map (fun e => match e with Sleep d => [d] | _ => [] end) tr.

(** From [s] to [s'] the events [evs] were logged and the pauses [ds]
    were made. *)
Definition advanced (s s' : State) (evs : list KeystrokeEvent)
           (ds : list float) : Prop :=
  log s' = log s ++ evs /\ sleeps (trace s') = sleeps (trace s) ++ ds.

(** A statement that neither logs nor sleeps, however it ends. *)
Definition unpaused {X} (m : M X) : Prop :=
  forall s, advanced s (snd (m s)) [] [].

(** The length of a pause of the human-like profile: some draw of
    [random.uniform(delay_min, delay_max)], in seconds. *)
Definition drawn_pause (env : Env) (args : Args) (d : float) : Prop :=
  exists n,
    d = (float_of_Z (delay_min args)
         + float_of_Z (delay_max args - delay_min args)
           * random_draw env n) / 1000.

(** The pauses a profile makes. *)
Definition pause_of (env : Env) (p : Profile) (args : Args) (d : float)
  : Prop :=
  match p with
  | superhuman => False
  | bot_obvious => d = float_of_Z (fixed_delay_ms args) / 1000
  | human_like => drawn_pause env args d
  end.

(** How many pauses a profile makes for the events it logs. *)
Definition pauses_for (p : Profile) (evs : list KeystrokeEvent) : nat :=
  match p with
  | superhuman => 0
  | bot_obvious => length evs
  | human_like => length (filter is_keypress evs)
  end.

(** ** The run record as stored and read back

    [json.dump({"meta": meta, "keystroke_log": keystroke_log, ...})] in
    [run_iteration], then [json.load] in the extractor, which reads six
    keys of ["meta"]. *)
Definition profile_name (p : Profile) : string :=
  match p with
  | superhuman => "superhuman"
  | bot_obvious => "bot_obvious"
  | human_like => "human_like"
  end.

Definition stored_meta (m : RunMeta) : FeatureExtractor.Meta :=
  {| FeatureExtractor.m_profile := JStr (profile_name (profile m));
     FeatureExtractor.m_site_mode := JStr (meta_site_mode m);
     FeatureExtractor.m_start_time := JStr (start_time m);
     FeatureExtractor.m_end_time := JStr (end_time m);
     FeatureExtractor.m_extracted_wpm := JNum (extracted_wpm m);
     FeatureExtractor.m_extracted_accuracy :=
       match extracted_accuracy m with
       | Some a => JNum a
       | None => JNull
       end |}.

Definition stored_record (r : RunMeta * list KeystrokeEvent)
  : FeatureExtractor.RunRecord :=
  {| FeatureExtractor.meta := Some (stored_meta (fst r));
     FeatureExtractor.keystroke_log := Some (map stored (snd r)) |}.

End TypespeedBot.

(* ================================================================== *)
(** * src/bots/typespeed_bot.py: the cleaning of the target text        *)
(* ================================================================== *)

Module TargetText.

(** A Python [str] is given by the list of its characters. *)

Definition space : ascii := " "%char.
Definition nbsp : ascii := "160"%char.             (* the character U+00A0 *)
Definition newline : ascii := "010"%char.          (* "\n" *)
Definition carriage_return : ascii := "013"%char.  (* "\r" *)

(** [t.replace(old, new)] for two strings of one character. *)
Definition replace (old new : ascii) (t : list ascii) : list ascii :=
  map (fun c => if Ascii.eqb c old then new else c) t.

(** [" ".join(tokens)] *)
Fixpoint join (tokens : list (list ascii)) : list ascii :=
  match tokens with
  | [] => []
  | [tok] => tok
  | tok :: rest => tok ++ space :: join rest
  end.

(** [t.split(" ")]: the pieces between the spaces; there is always one. *)
Fixpoint split (t : list ascii) : list (list ascii) :=
  match t with
  | [] => [[]]
  | c :: r =>
      if Ascii.eqb c space then [] :: split r
      else match split r with
           | tok :: toks => (c :: tok) :: toks
           | [] => [[c]]
           end
  end.

Section Cleaning.

(** Python's tables of characters are the library's: which characters are
    whitespace ([\s] of [re], [str.strip]) and which are alphabetic
    ([str.isalpha]). *)
Variable isspace : ascii -> bool.
Variable isalpha : ascii -> bool.

(** [re.sub(r"\s+", " ", t)]: every maximal run of whitespace becomes one
    space; [in_run] tells whether the character before was whitespace. *)
Fixpoint sub_spaces_from (in_run : bool) (t : list ascii) : list ascii :=
  match t with
  | [] => []
  | c :: r =>
      if isspace c
      then if in_run then sub_spaces_from true r
           else space :: sub_spaces_from true r
      else c :: sub_spaces_from false r
  end.

Definition sub_spaces (t : list ascii) : list ascii :=
  sub_spaces_from false t.

(** [t.strip()] *)
Fixpoint lstrip (t : list ascii) : list ascii :=
  match t with
  | [] => []
  | c :: r => if isspace c then lstrip r else t
  end.

Definition rstrip (t : list ascii) : list ascii := rev (lstrip (rev t)).

Definition strip (t : list ascii) : list ascii := rstrip (lstrip t).

(** [len(tok) == 1 and tok.isalpha()] *)
Definition is_single_letter (tok : list ascii) : bool :=
  match tok with
  | [c] => isalpha c
  | _ => false
  end.

(** The inner loop: the single-letter tokens at the front of [tokens], and
    what follows them. *)
Fixpoint take_letters (tokens : list (list ascii)) : list (list ascii) :=
  match tokens with
  | tok :: rest =>
      if is_single_letter tok then tok :: take_letters rest else []
  | [] => []
  end.

Fixpoint drop_letters (tokens : list (list ascii)) : list (list ascii) :=
  match tokens with
  | tok :: rest => if is_single_letter tok then drop_letters rest else tokens
  | [] => []
  end.

Lemma drop_letters_shorter (tokens : list (list ascii)) :
  (length (drop_letters tokens) <= length tokens)%nat.
Proof.
  induction tokens as [|tok rest IH]; cbn; [lia|].
  destruct (is_single_letter tok); cbn; lia.
Qed.

(** [[
    while i < n:
        tok = tokens[i]
        if len(tok) == 1 and tok.isalpha():
            j = i
            run = []
            while j < n and len(tokens[j]) == 1 and tokens[j].isalpha():
                run.append(tokens[j])
                j += 1
            run_len = len(run)
            if run_len >= 2:
                out_tokens.append("".join(run))
            else:
                out_tokens.append(run[0])
            i = j
        else:
            out_tokens.append(tok)
            i += 1
    ]]
    on [tokens[i:]]. *)
Equations? merge_letters (tokens : list (list ascii)) : list (list ascii)
  by wf (length tokens) lt :=
  merge_letters [] := [];
  merge_letters (tok :: rest) with is_single_letter tok := {
    | true :=
        (if (2 <=? length (tok :: take_letters rest))%nat
         then concat (tok :: take_letters rest)
         else tok)
        :: merge_letters (drop_letters rest);
    | false := tok :: merge_letters rest }.
Proof.
  all: cbn; pose proof (drop_letters_shorter rest); lia.
Qed.

(** The cleaning of [run_iteration]:
    [[
    target_text = (target_text.replace("\u00a0", " ").replace("\n", " ").replace("\r", " "))
    target_text = re.sub(r"\s+", " ", target_text).strip()
    tokens = target_text.split(" ")
    ...
    target_text = " ".join(out_tokens).strip()
    ]] *)
Definition clean (target_text : list ascii) : list ascii :=
  let target_text :=
    replace carriage_return space
      (replace newline space (replace nbsp space target_text)) in
  let target_text := strip (sub_spaces target_text) in
  let tokens := split target_text in
  let out_tokens := merge_letters tokens in
  strip (join out_tokens).

(** The text after the first two statements of the cleaning. *)
Definition normalised (t : list ascii) : list ascii :=
  strip (sub_spaces
           (replace carriage_return space
              (replace newline space (replace nbsp space t)))).

(** A text whose whitespace is single spaces between words: no whitespace
    at either end, none but the space, and no two spaces in a row. *)
Fixpoint tidy_from (after_space : bool) (t : list ascii) : bool :=
  match t with
  | [] => negb after_space
  | c :: r =>
      if isspace c
      then Ascii.eqb c space && negb after_space && tidy_from true r
      else tidy_from false r
  end.

Definition tidy (t : list ascii) : bool :=
  match t with
  | [] => true
  | _ => tidy_from true t
  end.

(** The same without the two ends: the whitespace there may be. *)
Fixpoint loose_from (after_space : bool) (t : list ascii) : bool :=
  match t with
  | [] => true
  | c :: r =>
      if isspace c
      then Ascii.eqb c space && negb after_space && loose_from true r
      else loose_from false r
  end.

(** The characters of a text that are not whitespace. *)
Definition letters (t : list ascii) : list ascii :=
  filter (fun c => negb (isspace c)) t.

(** A word: a token that is not empty and holds no whitespace. *)
Definition no_space (tok : list ascii) : bool :=
  forallb (fun c => negb (isspace c)) tok.

Definition word (tok : list ascii) : bool :=
  nonempty tok && no_space tok.

(** Tokens of which no two neighbours are single letters. *)
Fixpoint calm (tokens : list (list ascii)) : bool :=
  match tokens with
  | a :: (b :: _) as rest =>
      negb (is_single_letter a && is_single_letter b) && calm rest
  | _ => true
  end.

End Cleaning.

(** A sample page text, with a word that the page split into letters. *)
Definition sample_page : list ascii :=
  list_ascii_of_string
    (String "010"%char "  t r u t h   is  a   b c I  have "%string).

(** The whitespace and the letters of ASCII, for sample texts. *)
Definition ascii_isspace (c : ascii) : bool :=
  let n := nat_of_ascii c in
  ((9 <=? n) && (n <=? 13) || (28 <=? n) && (n <=? 32)
   || (n =? 133) || (n =? 160))%nat%bool.

Definition ascii_isalpha (c : ascii) : bool :=
  let n := nat_of_ascii c in
  ((65 <=? n) && (n <=? 90) || (97 <=? n) && (n <=? 122))%nat%bool.

End TargetText.

(* ================================================================== *)
(** * An iteration, from the text of the page                          *)
(* ================================================================== *)

Module Iteration.

Import Py TypespeedBot.

Section FromThePage.
Variable env : Env.
Variable SELECTOR_HIDDEN_INPUT : string.
Variables isspace isalpha : ascii -> bool.

(** [target_text] after the cleaning. *)
Definition cleaned (target_text : string) : string :=
  string_of_list_ascii
    (TargetText.clean isspace isalpha (list_ascii_of_string target_text)).

(** [run_iteration] from the [try] block that reads the text of the page
    on; [found] is how that block ends.
    [[
    try:
        ... target_text = target_elem.inner_text() if target_elem else "" ...
    except Exception as e:
        return None
    if not target_text:
        return None
    (the cleaning of target_text)
    keystroke_log = type_text_profile(page, target_text, args.mode, args)
    time.sleep(1.0)
    ...
    computed_wpm = fallback_compute_wpm(keystroke_log, typed_chars_count=len(target_text))
    if extracted_wpm is None:
        extracted_wpm = computed_wpm
    meta.update({...})
    return {"meta": meta, "keystroke_log": keystroke_log}
    ]]
    The text is tested for emptiness before the cleaning, and not
    after it. *)
Definition run_iteration_from_page (args : Args) (iteration_idx : Z)
           (found : result string) (obs : Observed)
  : M (option (RunMeta * list KeystrokeEvent)) :=
  match found with
  | Raise _ => ret None
  | Ok raw =>
      if (String.length raw =? 0)%nat then ret None
      else
        let target_text := cleaned raw in
        (keystroke_log <- type_text_profile env SELECTOR_HIDDEN_INPUT
                            target_text (mode args) args ;;
         time_sleep env 1 ;;
         computed_wpm <- lift (fallback_compute_wpm keystroke_log
                                 (String.length target_text)) ;;
         let extracted_wpm :=
           match page_wpm obs with Some w => w | None => computed_wpm end in
         ret (Some ({| iteration := iteration_idx;
                       profile := mode args;
                       meta_site_mode := site_mode args;
                       start_time := utc_start obs;
                       extracted_wpm := extracted_wpm;
                       extracted_accuracy := page_accuracy obs;
                       computed_wpm := computed_wpm;
                       keystrokes_count := length keystroke_log;
                       end_time := utc_end obs |},
                    keystroke_log)))%bot
  end.

End FromThePage.

End Iteration.

(* ================================================================== *)
(** * Sample data                                                      *)
(* ================================================================== *)

Module Samples.

Import FeatureExtractor TypespeedBot.
Open Scope float_scope.
Open Scope string_scope.

(** A plain floating-point rendering of the three [statistics] functions,
    to run the extractor on sample traces.  (Python computes the same
    quantities with exact intermediate arithmetic, so its last digits can
    differ; every statement below that quantifies over the library holds
    for Python's as well.) *)
Fixpoint insert_sorted (v : float) (xs : list float) : list float :=
  match xs with
  | [] => [v]
  | x :: xs' => if PrimFloat.leb v x then v :: xs else x :: insert_sorted v xs'
  end.

Definition sorted (xs : list float) : list float :=
  fold_right insert_sorted [] xs.

Definition naive_mean (xs : list float) : float := np_mean xs.

Definition naive_pstdev (xs : list float) : float :=
  PrimFloat.sqrt (np_mean (map (fun v => (v - np_mean xs) * (v - np_mean xs)) xs)).

Definition naive_median (xs : list float) : float :=
  let s := sorted xs in
  let n := length s in
  if Nat.even n
  then (nth (n / 2 - 1) s 0 + nth (n / 2) s 0) / 2
  else nth (n / 2) s 0.

Definition naive_statistics : Statistics :=
  {| mean := naive_mean; pstdev := naive_pstdev; median := naive_median |}.

Definition press (k : string) (t : float) : LogEntry :=
  {| j_key := JStr k; j_timestamp := JNum t; j_action := JStr "keypress" |}.

Definition erase (t : float) : LogEntry :=
  {| j_key := JStr "Backspace"; j_timestamp := JNum t;
     j_action := JStr "backspace" |}.

(** The end-to-end trace of the specification: ["the cat"]. *)
Definition the_cat : list LogEntry :=
  [press "t" 0.0; press "h" 0.03; press "e" 0.08; press " " 0.10;
   press "c" 0.15; press "a" 0.20; press "t" 0.25].

(** A corrected typo: a wrong key, a backspace one second later, the right
    key one second after that. *)
Definition typo : list LogEntry :=
  [press "x" 0; erase 1; press "a" 2].

Definition some_meta : Meta :=
  {| m_profile := JStr "human_like"; m_site_mode := JStr "standard";
     m_start_time := JStr "2024-01-01T00:00:00Z";
     m_end_time := JStr "2024-01-01T00:00:03Z";
     m_extracted_wpm := JNum 80; m_extracted_accuracy := JNull |}.

Definition cat_record : RunRecord :=
  {| meta := Some some_meta; keystroke_log := Some the_cat |}.

Definition typo_record : RunRecord :=
  {| meta := Some some_meta; keystroke_log := Some typo |}.

(** A record with one keystroke only. *)
Definition short_record : RunRecord :=
  {| meta := Some some_meta; keystroke_log := Some [press "a" 5] |}.

(** A record with neither ["meta"] nor ["keystroke_log"]. *)
Definition bare_record : RunRecord :=
  {| meta := None; keystroke_log := None |}.

(** A record whose second timestamp was stored as a string. *)
Definition text_stamp_record : RunRecord :=
  {| meta := Some some_meta;
     keystroke_log :=
       Some [press "a" 0;
             {| j_key := JStr "b"; j_timestamp := JStr "0.5";
                j_action := JStr "keypress" |}] |}.

(** A page that focuses, a clock that ticks once a second, a keyboard that
    works, and a random generator that injects a typo at the first character
    and draws the first letter of the alphabet for it. *)
Definition working : Env :=
  {| wait_ok := fun _ => true;
     click_ok := fun _ => true;
     clock := fun n => float_of_nat n;
     keyboard_ok := fun _ => true;
     evaluate_ok := fun _ => true;
     random_draw := fun n => match n with O => 0.01 | _ => 0.5 end;
     choice_draw := fun _ => O;
     sleep_error := fun _ => None |}.

(** The same world with a page on which neither the input nor the body can
    be focused. *)
Definition unfocusable : Env :=
  with_page (fun _ => false) (fun _ => false) working.

(** The [working] world with a keyboard that throws at every other call
    (the first included) and a fallback that works, and with a keyboard and
    a fallback that both throw. *)
Definition flaky : Env :=
  {| wait_ok := wait_ok working; click_ok := click_ok working;
     clock := clock working; keyboard_ok := Nat.odd;
     evaluate_ok := fun _ => true; random_draw := random_draw working;
     choice_draw := choice_draw working;
     sleep_error := sleep_error working |}.

Definition broken : Env :=
  {| wait_ok := wait_ok working; click_ok := click_ok working;
     clock := clock working; keyboard_ok := fun _ => false;
     evaluate_ok := fun _ => false; random_draw := random_draw working;
     choice_draw := choice_draw working;
     sleep_error := sleep_error working |}.

(** The selector the script ships with. *)
Definition typing_input : string := "#typing-input".

(** The defaults of [parse_args]. *)
Definition defaults (m : Profile) : Args :=
  {| mode := m; site_mode := "standard"; delay_min := 40; delay_max := 220;
     fixed_delay_ms := 5; max_chars := 5000 |}.

(** Two batches that hold the typo record at different places. *)
Definition batch_one : list (string * FileContent) :=
  [("run_a.json", Json cat_record); ("run_b.json", Json typo_record)].

Definition batch_two : list (string * FileContent) :=
  [("run_b.json", Json typo_record); ("run_c.json", Json short_record);
   ("run_d.json", Json bare_record)].

Definition rows_of (files : list (string * FileContent))
  : list (string * FeatureRecord) :=
  match build_rows naive_statistics files with
  | Ok rows => rows
  | Raise _ => []
  end.

(** A batch whose first record has a timestamp stored as text. *)
Definition batch_bad : list (string * FileContent) :=
  [("run_a.json", Json text_stamp_record); ("run_b.json", Json cat_record)].

(** The log and the meta of the run that types ["ab"] in the [working]
    world with the human-like profile: the typo injected at the first
    character draws the letter a, the very character to type. *)
Definition typo_log : list KeystrokeEvent :=
  [{| key := "a"; timestamp := 0; action := keypress |};
   {| key := "Backspace"; timestamp := 1; action := backspace |};
   {| key := "a"; timestamp := 2; action := keypress |};
   {| key := "b"; timestamp := 3; action := keypress |}].

Definition typo_meta : RunMeta :=
  {| iteration := 1; profile := human_like; meta_site_mode := "standard";
     start_time := "2024-01-01T00:00:00Z"; extracted_wpm := 8;
     extracted_accuracy := None; computed_wpm := 8; keystrokes_count := 4;
     end_time := "2024-01-01T00:00:05Z" |}.

Definition no_panel : Observed :=
  {| utc_start := "2024-01-01T00:00:00Z"; utc_end := "2024-01-01T00:00:05Z";
     page_wpm := None; page_accuracy := None |}.

(** The [working] world with a clock that is set back after its first
    reading, and the human-like run on the text ab in it. *)
Definition set_back : Env :=
  {| wait_ok := wait_ok working; click_ok := click_ok working;
     clock := fun n => match n with O => 10 | _ => 3 end;
     keyboard_ok := keyboard_ok working;
     evaluate_ok := evaluate_ok working;
     random_draw := random_draw working;
     choice_draw := choice_draw working;
     sleep_error := sleep_error working |}.

Definition set_back_run : result (option (RunMeta * list KeystrokeEvent)) :=
  Eval vm_compute in
    fst (Iteration.run_iteration_from_page set_back typing_input
           TargetText.ascii_isspace TargetText.ascii_isalpha
           (defaults human_like) 1 (Ok "ab"%string) no_panel initial).

Definition set_back_meta : RunMeta :=
  match set_back_run with Ok (Some (m, _)) => m | _ => typo_meta end.

Definition set_back_log : list KeystrokeEvent :=
  match set_back_run with Ok (Some (_, lg)) => lg | _ => [] end.

(** A page text with a word split into letters, and what the superhuman
    profile makes of it in the [working] world. *)
Definition page_text : string := String "010"%char " i t   is ".

Definition page_run : result (option (RunMeta * list KeystrokeEvent)) :=
  Eval vm_compute in
    fst (Iteration.run_iteration_from_page working typing_input
           TargetText.ascii_isspace TargetText.ascii_isalpha
           (defaults superhuman) 1 (Ok page_text) no_panel initial).

Definition page_meta : RunMeta :=
  match page_run with Ok (Some (m, _)) => m | _ => typo_meta end.

Definition page_log : list KeystrokeEvent :=
  match page_run with Ok (Some (_, lg)) => lg | _ => [] end.

End Samples.

(* ================================================================== *)
(** * Properties of the feature extractor                              *)
(* ================================================================== *)

Section ExtractorFacts.

Import FeatureExtractor.
Open Scope float_scope.

(** ** Loops over fallible bodies *)

Lemma mapM_pure {X Y} (g : X -> Y) (xs : list X) :
  mapM (fun x => Ok (g x)) xs = Ok (map g xs).
Proof.
  induction xs as [|x xs IH]; cbn; [reflexivity|].
  now rewrite IH.
Qed.

Lemma mapM_ext {X Y} (f g : X -> result Y) (xs : list X) :
  (forall x, In x xs -> f x = g x) -> mapM f xs = mapM g xs.
Proof.
  induction xs as [|x xs IH]; intros H; cbn; [reflexivity|].
  rewrite (H x (or_introl eq_refl)), IH; [reflexivity|].
  intros y Hy. apply H. now right.
Qed.

Lemma mapM_map {X Y Z} (f : Y -> result Z) (h : X -> Y) (xs : list X) :
  mapM f (map h xs) = mapM (fun x => f (h x)) xs.
Proof.
  induction xs as [|x xs IH]; cbn; [reflexivity|].
  now rewrite IH.
Qed.

Lemma mapM_app_raise {X Y} (f : X -> result Y) pre x post ys e :
  mapM f pre = Ok ys -> f x = Raise e ->
  mapM f (pre ++ x :: post) = Raise e.
Proof.
  revert ys. induction pre as [|p pre IH]; intros ys Hpre Hx; cbn.
  - now rewrite Hx.
  - cbn in Hpre. destruct (f p) as [y|e']; cbn in *; [|discriminate].
    destruct (mapM f pre) as [ys'|e'] eqn:E; cbn in *; [|discriminate].
    now rewrite (IH ys' eq_refl Hx).
Qed.

Lemma mapM_nth_error {X Y} (f : X -> result Y) xs ys i x :
  mapM f xs = Ok ys -> nth_error xs i = Some x ->
  exists y, f x = Ok y /\ nth_error ys i = Some y.
Proof.
  revert ys i. induction xs as [|a xs IH]; intros ys i H Hi.
  - destruct i; discriminate.
  - cbn in H. destruct (f a) as [y|e] eqn:Ea; cbn in H; [|discriminate].
    destruct (mapM f xs) as [ys'|e] eqn:E; cbn in H; [|discriminate].
    injection H as <-. destruct i as [|i]; cbn in Hi.
    + injection Hi as <-. exists y. now split.
    + apply (IH ys' i eq_refl Hi).
Qed.

Lemma mapM_length {X Y} (f : X -> result Y) xs ys :
  mapM f xs = Ok ys -> length ys = length xs.
Proof.
  revert ys. induction xs as [|a xs IH]; intros ys H; cbn in H.
  - now injection H as <-.
  - destruct (f a) as [y|e]; cbn in H; [|discriminate].
    destruct (mapM f xs) as [ys'|e]; cbn in H; [|discriminate].
    injection H as <-. cbn. now rewrite (IH ys' eq_refl).
Qed.

(** ** The loop over the files is a [mapM] *)

Lemma rows_loop_mapM lib files rows :
  rows_loop lib files rows =
  (new <- mapM (named_row lib) files ;; Ok (rows ++ new))%py.
Proof.
  revert rows. induction files as [|[path f] files IH]; intros rows; cbn.
  - now rewrite app_nil_r.
  - unfold named_row, process at 1. cbn.
    destruct (json_load f) as [d|e]; cbn; [|reflexivity].
    destruct (extract lib d) as [row|e]; cbn; [|reflexivity].
    rewrite IH. fold (named_row lib).
    destruct (mapM (named_row lib) files) as [new|e']; cbn; [|reflexivity].
    now rewrite <- app_assoc.
Qed.

Lemma build_rows_mapM lib files :
  build_rows lib files = mapM (named_row lib) files.
Proof.
  unfold build_rows. rewrite rows_loop_mapM.
  now destruct (mapM (named_row lib) files).
Qed.

(** ** The intervals of a numeric list *)

Lemma intervals_shift (a : json float) ts l :
  mapM (fun i => (d <- py_sub (nth (i + 1) (a :: ts) JNull)
                              (nth i (a :: ts) JNull) ;;
                  Ok (d * 1000))%py) (map S l)
  = mapM (fun i => (d <- py_sub (nth (i + 1) ts JNull) (nth i ts JNull) ;;
                    Ok (d * 1000))%py) l.
Proof. now rewrite mapM_map. Qed.

Lemma intervals_of_numbers (ts : list float) :
  inter_key_intervals (map JNum ts) = Ok (gaps ts).
Proof.
  unfold inter_key_intervals. rewrite length_map.
  destruct ts as [|a [|b ts]]; [reflexivity | reflexivity |].
  change (length (a :: b :: ts) <? 2)%nat with false. cbv iota.
  revert a b. induction ts as [|c ts IH]; intros a b; [reflexivity|].
  change (length (a :: b :: c :: ts) - 1)%nat with (S (length (b :: c :: ts) - 1)).
  rewrite <- cons_seq, <- seq_shift.
  change (map JNum (a :: b :: c :: ts))
    with (JNum a :: map JNum (b :: c :: ts)).
  cbn [mapM]. rewrite intervals_shift, IH. reflexivity.
Qed.

Lemma last_of_numbers (l : list float) (a : float) (d : json float) :
  last (map JNum (a :: l)) d = JNum (last (a :: l) 0).
Proof.
  revert a. induction l as [|b l IH]; intros a; [reflexivity|].
  change (last (map JNum (a :: b :: l)) d) with (last (map JNum (b :: l)) d).
  now rewrite IH.
Qed.

Lemma duration_of_numbers (ts : list float) :
  duration_s_of (map JNum ts)
  = Ok (if (2 <=? length ts)%nat then last ts 0 - nth 0 ts 0 else 0).
Proof.
  unfold duration_s_of, last_item. rewrite length_map.
  destruct (2 <=? length ts)%nat eqn:E; [|reflexivity].
  destruct ts as [|a ts]; [discriminate|].
  now rewrite last_of_numbers.
Qed.

(** ** Which timestamps are read *)

Lemma timestamps_of_filter (ks : list LogEntry) :
  timestamps_of ks = filter is_not_None (map j_timestamp ks).
Proof.
  unfold timestamps_of. induction ks as [|k ks IH]; cbn; [reflexivity|].
  destruct (is_not_None (j_timestamp k)); cbn; now rewrite IH.
Qed.

Lemma timestamps_of_with_action (f : LogEntry -> json float) ks :
  timestamps_of (map (fun k => with_action (f k) k) ks) = timestamps_of ks.
Proof.
  rewrite !timestamps_of_filter, map_map. reflexivity.
Qed.

Lemma keys_of_with_action (f : LogEntry -> json float) ks :
  keys_of (map (fun k => with_action (f k) k) ks) = keys_of ks.
Proof. unfold keys_of. now rewrite map_map. Qed.

(** C1, as stated, fails: the timestamp of a backspace event is not left
    out.  On the log of a corrected typo (wrong key at 0 s, backspace at
    1 s, right key at 2 s) the script computes two intervals of 1000 ms,
    where the keypress timestamps alone give one interval of 2000 ms. *)
Lemma backspace_timestamp_enters_intervals :
  ikis_of Samples.typo = Ok [1000; 1000]
  /\ inter_key_intervals (keypress_timestamps Samples.typo) = Ok [2000].
Proof. split; reflexivity. Qed.

(** C1, amended: the intervals, [duration_s] and every statistic of the
    intervals are computed from the timestamps of all the events that have
    one, in the order of the log and whatever their action.  The
    timestamps read are exactly the non-null ones; giving the events other
    actions changes nothing in the row; and on numeric timestamps the
    intervals are the consecutive differences in milliseconds, and the
    duration is the last timestamp minus the first. *)
Theorem intervals_over_every_timestamp :
  forall (lib : Statistics) (d : RunRecord) (relabel : LogEntry -> json float)
         (l : list (json float * float * json float)),
    timestamps_of (entries_of d)
    = filter is_not_None (map j_timestamp (entries_of d))
    /\ extract lib
         {| meta := meta d;
            keystroke_log :=
              Some (map (fun k => with_action (relabel k) k) (entries_of d)) |}
       = extract lib d
    /\ ikis_of (map (fun p => entry (fst (fst p)) (snd (fst p)) (snd p)) l)
       = Ok (gaps (map (fun p => snd (fst p)) l))
    /\ duration_s_of
         (timestamps_of
            (map (fun p => entry (fst (fst p)) (snd (fst p)) (snd p)) l))
       = Ok (if (2 <=? length l)%nat
             then last (map (fun p => snd (fst p)) l) 0
                  - nth 0 (map (fun p => snd (fst p)) l) 0
             else 0).
Proof.
  intros lib d relabel l.
  assert (Hl : timestamps_of
                 (map (fun p => entry (fst (fst p)) (snd (fst p)) (snd p)) l)
               = map JNum (map (fun p => snd (fst p)) l)).
  { unfold timestamps_of. induction l as [|p l IH]; cbn; [reflexivity|].
    now rewrite IH. }
  split; [apply timestamps_of_filter|].
  split.
  - unfold extract.
    change (meta_of {| meta := meta d;
                       keystroke_log :=
                         Some (map (fun k => with_action (relabel k) k)
                                   (entries_of d)) |})
      with (meta_of d).
    change (entries_of {| meta := meta d;
                          keystroke_log :=
                            Some (map (fun k => with_action (relabel k) k)
                                      (entries_of d)) |})
      with (map (fun k => with_action (relabel k) k) (entries_of d)).
    now rewrite timestamps_of_with_action, keys_of_with_action.
  - split.
    + unfold ikis_of. rewrite Hl. apply intervals_of_numbers.
    + rewrite Hl, duration_of_numbers. now rewrite length_map.
Qed.

(** ** Determinism *)

(** C4: the row of a record is a function of the record alone.  Whatever
    the batches, the places of the record in them and the names of its
    files, the two builds give the record the same feature record, the one
    [extract] computes from it. *)
Theorem extraction_is_deterministic :
  forall (lib : Statistics) (files1 files2 : list (string * FileContent))
         (rows1 rows2 : list (string * FeatureRecord))
         (i j : nat) (path1 path2 : string) (d : RunRecord),
    build_rows lib files1 = Ok rows1 ->
    build_rows lib files2 = Ok rows2 ->
    nth_error files1 i = Some (path1, Json d) ->
    nth_error files2 j = Some (path2, Json d) ->
    exists r : FeatureRecord,
      extract lib d = Ok r
      /\ nth_error rows1 i = Some (path1, r)
      /\ nth_error rows2 j = Some (path2, r).
Proof.
  intros lib files1 files2 rows1 rows2 i j path1 path2 d H1 H2 Hi Hj.
  rewrite build_rows_mapM in H1, H2.
  destruct (mapM_nth_error _ _ _ _ _ H1 Hi) as [[p1 r1] [E1 N1]].
  destruct (mapM_nth_error _ _ _ _ _ H2 Hj) as [[p2 r2] [E2 N2]].
  unfold named_row, process in E1, E2. cbn in E1, E2.
  destruct (extract lib d) as [r|e]; cbn in E1, E2; [|discriminate].
  injection E1 as <- <-. injection E2 as <- <-.
  exists r. auto.
Qed.

Lemma extraction_is_deterministic_witness :
  exists r : FeatureRecord,
    extract Samples.naive_statistics Samples.typo_record = Ok r
    /\ nth_error (Samples.rows_of Samples.batch_one) 1
       = Some ("run_b.json"%string, r)
    /\ nth_error (Samples.rows_of Samples.batch_two) 0
       = Some ("run_b.json"%string, r).
Proof.
  apply (extraction_is_deterministic Samples.naive_statistics
           Samples.batch_one Samples.batch_two
           (Samples.rows_of Samples.batch_one)
           (Samples.rows_of Samples.batch_two)
           1 0 "run_b.json"%string "run_b.json"%string Samples.typo_record);
    reflexivity.
Defined.

(** ** Fewer than two timestamps *)

(** C6: with fewer than two selected timestamps the list of intervals is
    empty, the record is produced, and its mean, deviation, median,
    minimum, maximum, burst fraction, autocorrelation, duration and
    computed WPM are all exactly 0. *)
Theorem short_log_gives_zeros :
  forall (lib : Statistics) (d : RunRecord),
    (length (timestamps_of (entries_of d)) < 2)%nat ->
    ikis_of (entries_of d) = Ok []
    /\ exists r : FeatureRecord,
         extract lib d = Ok r
         /\ r_mean_iki_ms r = 0 /\ r_std_iki_ms r = 0
         /\ r_median_iki_ms r = 0 /\ r_min_iki_ms r = 0
         /\ r_max_iki_ms r = 0 /\ r_burst_fraction r = 0
         /\ r_autocorr_lag1 r = 0 /\ r_duration_s r = 0
         /\ r_computed_wpm r = 0.
Proof.
  intros lib d H.
  assert (E1 : (length (timestamps_of (entries_of d)) <? 2)%nat = true)
    by now apply Nat.ltb_lt.
  assert (E2 : (2 <=? length (timestamps_of (entries_of d)))%nat = false)
    by (apply Nat.leb_gt; exact H).
  assert (Hi : inter_key_intervals (timestamps_of (entries_of d)) = Ok [])
    by (unfold inter_key_intervals; now rewrite E1).
  split; [exact Hi|].
  unfold extract. rewrite Hi. unfold duration_s_of. rewrite E2.
  cbn [bind]. unfold computed_wpm_of.
  change (PrimFloat.ltb 0 0) with false. cbv iota. cbn [bind].
  eexists. split; [reflexivity|]. cbn. repeat split; reflexivity.
Qed.

Lemma short_log_gives_zeros_witness :
  ikis_of (entries_of Samples.short_record) = Ok []
  /\ exists r : FeatureRecord,
       extract Samples.naive_statistics Samples.short_record = Ok r
       /\ r_mean_iki_ms r = 0 /\ r_std_iki_ms r = 0
       /\ r_median_iki_ms r = 0 /\ r_min_iki_ms r = 0
       /\ r_max_iki_ms r = 0 /\ r_burst_fraction r = 0
       /\ r_autocorr_lag1 r = 0 /\ r_duration_s r = 0
       /\ r_computed_wpm r = 0.
Proof.
  apply (short_log_gives_zeros Samples.naive_statistics Samples.short_record).
  cbn. lia.
Defined.

(** ** The end-to-end example *)

(** C7: on the seven keypresses of ["the cat"] at 0.0, 0.03, 0.08, 0.10,
    0.15, 0.20 and 0.25 s the record has [chars_typed = 7],
    [duration_s = 0.25], [computed_wpm = 336.0], [backspace_count = 0]
    and [burst_fraction = 1/6]: of the six intervals the first is exactly
    30.0 ms and is not counted, and the one below 30 ms is the third. *)
Theorem the_cat_end_to_end :
  forall (lib : Statistics) (m : option Meta),
    exists (r : FeatureRecord) (ikis : list float),
      extract lib {| meta := m; keystroke_log := Some Samples.the_cat |} = Ok r
      /\ r_chars_typed r = 7%nat
      /\ r_duration_s r = 0.25
      /\ r_computed_wpm r = 336.0
      /\ r_backspace_count r = 0%nat
      /\ r_burst_fraction r = 1 / 6
      /\ ikis_of Samples.the_cat = Ok ikis
      /\ length ikis = 6%nat
      /\ nth 0 ikis 0 = 30.0
      /\ filter (fun x => PrimFloat.ltb x 30.0) ikis = [nth 2 ikis 0].
Proof.
  intros lib m. eexists. eexists.
  split; [reflexivity|].
  repeat split; reflexivity.
Qed.

(** ** Malformed records *)

(** C9, as stated, fails: a batch whose first record has a timestamp
    stored as text raises [TypeError]; nothing is written, although the
    second record alone gives a row. *)
Lemma one_bad_record_aborts_the_build :
  build_rows Samples.naive_statistics Samples.batch_bad = Raise TypeError
  /\ features_csv Samples.naive_statistics Samples.batch_bad = Raise TypeError
  /\ exists row,
       build_rows Samples.naive_statistics
         [("run_b.json"%string, Json Samples.cat_record)]
       = Ok [("run_b.json"%string, row)].
Proof.
  split; [reflexivity|]. split; [reflexivity|].
  eexists. reflexivity.
Qed.

(** A file that is not JSON ends the build as well. *)
Lemma undecodable_file_aborts_the_build :
  forall lib, build_rows lib [("run_a.json"%string, NotJson);
                              ("run_b.json"%string, Json Samples.cat_record)]
              = Raise JSONDecodeError.
Proof. reflexivity. Qed.

(** So does a well-typed record whose duration is so small that
    [duration_s / 60.0] rounds to zero. *)
Lemma tiny_duration_divides_by_zero :
  forall lib,
    extract lib {| meta := None;
                   keystroke_log := Some [Samples.press "a" 0;
                                          Samples.press "b" 5e-324] |}
    = Raise ZeroDivisionError.
Proof. reflexivity. Qed.

(** C9, amended: the build has no way to skip a record.  A build that
    succeeds has one row per file; a record without ["meta"] and without
    ["keystroke_log"] gets a row of defaults; and the first record whose
    decoding or extraction raises ends the whole build with that
    exception, so that no dataset is written. *)
Theorem no_record_is_skipped :
  forall (lib : Statistics),
    (forall files rows,
        build_rows lib files = Ok rows -> length rows = length files)
    /\ (exists r : FeatureRecord,
           extract lib Samples.bare_record = Ok r
           /\ r_chars_typed r = 0%nat /\ r_profile r = JNull
           /\ r_duration_s r = 0 /\ r_computed_wpm r = 0)
    /\ (forall pre path f post rows e,
           build_rows lib pre = Ok rows ->
           process lib f = Raise e ->
           build_rows lib (pre ++ (path, f) :: post) = Raise e
           /\ features_csv lib (pre ++ (path, f) :: post) = Raise e).
Proof.
  intros lib. split; [|split].
  - intros files rows H. rewrite build_rows_mapM in H.
    now apply mapM_length in H.
  - eexists. split; [reflexivity|]. repeat split; reflexivity.
  - intros pre path f post rows e Hpre Hf.
    assert (E : build_rows lib (pre ++ (path, f) :: post) = Raise e).
    { rewrite build_rows_mapM in *.
      apply (mapM_app_raise _ _ _ _ rows); [exact Hpre|].
      unfold named_row. cbn. now rewrite Hf. }
    split; [exact E|]. unfold features_csv. now rewrite E.
Qed.

Lemma no_record_is_skipped_witness :
  build_rows Samples.naive_statistics
    ([("run_0.json"%string, Json Samples.short_record)]
       ++ ("run_a.json"%string, Json Samples.text_stamp_record)
       :: [("run_b.json"%string, Json Samples.cat_record)])
  = Raise TypeError
  /\ features_csv Samples.naive_statistics
       ([("run_0.json"%string, Json Samples.short_record)]
          ++ ("run_a.json"%string, Json Samples.text_stamp_record)
          :: [("run_b.json"%string, Json Samples.cat_record)])
     = Raise TypeError.
Proof.
  apply (proj2 (proj2 (no_record_is_skipped Samples.naive_statistics))
           [("run_0.json"%string, Json Samples.short_record)]
           "run_a.json"%string (Json Samples.text_stamp_record)
           [("run_b.json"%string, Json Samples.cat_record)]
           (Samples.rows_of [("run_0.json"%string, Json Samples.short_record)])
           TypeError); reflexivity.
Defined.

End ExtractorFacts.

(* ================================================================== *)
(** * Properties of the lag-1 autocorrelation                          *)
(* ================================================================== *)

Section KernelFacts.

Import FeatureExtractor.

(** ** Over any arithmetic: the slices are sums over positions *)

Section AnyArithmetic.
Context {A : Type} {N : Number A}.

Lemma squares_by_position (x : list A) :
  zip_with mul x x
  = map (fun i => mul (nth i x zero) (nth i x zero)) (seq 0 (length x)).
Proof.
  induction x as [|a x IH]; [reflexivity|].
  cbn [zip_with length]. rewrite <- cons_seq, <- seq_shift, map_cons, map_map.
  cbn [nth]. now rewrite IH.
Qed.

Lemma products_by_position (a : A) (x : list A) :
  zip_with mul (tl (a :: x)) (removelast (a :: x))
  = map (fun i => mul (nth (S i) (a :: x) zero) (nth i (a :: x) zero))
        (seq 0 (length x)).
Proof.
  revert a. induction x as [|b t IH]; intros a; [reflexivity|].
  change (removelast (a :: b :: t)) with (a :: removelast (b :: t)).
  change (tl (a :: b :: t)) with (b :: t).
  cbn [zip_with length].
  change t with (tl (b :: t)) at 1. rewrite IH.
  rewrite <- cons_seq, <- seq_shift, map_cons, map_map. reflexivity.
Qed.

Lemma autocorr_lag1_refines (xs : list A) :
  autocorr_lag1 xs = autocorr_lag1_spec xs.
Proof.
  unfold autocorr_lag1, autocorr_lag1_spec, sum_squares,
    sum_consecutive_products, centered.
  destruct (length xs <? 2)%nat eqn:E; [reflexivity|].
  rewrite squares_by_position.
  destruct xs as [|a xs]; [discriminate|].
  cbn [map]. rewrite products_by_position.
  cbn [length]. now rewrite Nat.sub_succ, Nat.sub_0_r.
Qed.

End AnyArithmetic.

(** ** On binary64 *)

Lemma sum_of_zeros (n : nat) :
  np_sum (repeat 0%float n) = 0%float.
Proof.
  unfold np_sum. induction n as [|n IH]; [reflexivity|].
  cbn [repeat fold_left].
  change (add zero 0%float) with (@zero float _). exact IH.
Qed.

Lemma squares_of_zeros (n : nat) :
  zip_with mul (repeat 0%float n) (repeat 0%float n) = repeat 0%float n.
Proof.
  induction n as [|n IH]; [reflexivity|].
  cbn [repeat zip_with]. rewrite IH. reflexivity.
Qed.

(** ** On exact rationals *)

Open Scope Q_scope.

Lemma fold_left_Qplus_acc (l : list Q) (acc : Q) :
  fold_left Qplus l acc == acc + fold_left Qplus l 0.
Proof.
  revert acc. induction l as [|a l IH]; intros acc; cbn [fold_left].
  - ring.
  - rewrite IH, (IH (0 + a)). ring.
Qed.

Lemma np_sum_cons_exact (a : Q) (l : list Q) :
  np_sum (a :: l) == a + np_sum l.
Proof.
  unfold np_sum. cbn [fold_left add zero exact_number].
  rewrite fold_left_Qplus_acc. ring.
Qed.

Lemma np_sum_repeat_exact (c : Q) (n : nat) :
  np_sum (repeat c n) == inject_Z (Z.of_nat n) * c.
Proof.
  induction n as [|n IH].
  - unfold np_sum. cbn. ring.
  - cbn [repeat]. rewrite np_sum_cons_exact, IH, Nat2Z.inj_succ.
    unfold Z.succ. rewrite inject_Z_plus. ring.
Qed.

Lemma squares_of_null_exact (x : list Q) :
  Forall (fun v => v == 0) x -> np_sum (zip_with Qmult x x) == 0.
Proof.
  induction 1 as [|a x Ha _ IH]; [reflexivity|].
  cbn [zip_with]. rewrite np_sum_cons_exact, IH, Ha. ring.
Qed.

Lemma square_nonnegative (q : Q) : 0 <= q * q.
Proof.
  destruct q as [n d]. unfold Qle, Qmult. cbn. nia.
Qed.

(** The lag-1 products against the squares: twice the sum of the products
    of neighbours, in absolute value, is at most twice the sum of the
    squares less the square of the first item. *)
Lemma neighbours_below_squares (x : list Q) :
  hd 0 x * hd 0 x + 2 * np_sum (zip_with Qmult (tl x) (removelast x))
    <= 2 * np_sum (zip_with Qmult x x)
  /\ hd 0 x * hd 0 x - 2 * np_sum (zip_with Qmult (tl x) (removelast x))
    <= 2 * np_sum (zip_with Qmult x x).
Proof.
  induction x as [|a x IH].
  - unfold np_sum. cbn. split; lra.
  - destruct x as [|b t].
    + cbn [hd tl removelast zip_with].
      pose proof (np_sum_cons_exact (a * a) []) as HS.
      assert (H0 : @np_sum Q _ [] == 0) by reflexivity.
      pose proof (square_nonnegative a) as Hsq.
      lra.
    + assert (EP : zip_with Qmult (tl (a :: b :: t)) (removelast (a :: b :: t))
                   = b * a :: zip_with Qmult (tl (b :: t)) (removelast (b :: t)))
        by reflexivity.
      assert (ES : zip_with Qmult (a :: b :: t) (a :: b :: t)
                   = a * a :: zip_with Qmult (b :: t) (b :: t))
        by reflexivity.
      rewrite EP, ES. cbn [hd] in *.
      pose proof (np_sum_cons_exact (a * a) (zip_with Qmult (b :: t) (b :: t)))
        as HS.
      pose proof (np_sum_cons_exact (b * a)
                    (zip_with Qmult (tl (b :: t)) (removelast (b :: t)))) as HP.
      destruct IH as [IH1 IH2].
      pose proof (square_nonnegative (a - b)) as H1.
      pose proof (square_nonnegative (a + b)) as H2.
      split; lra.
Qed.

Lemma squares_nonnegative (x : list Q) :
  0 <= np_sum (zip_with Qmult x x).
Proof.
  destruct (neighbours_below_squares x) as [H1 H2].
  pose proof (square_nonnegative (hd 0 x)) as Hsq.
  lra.
Qed.

Lemma mean_of_constant_exact (c : Q) (n : nat) :
  (0 < n)%nat -> np_mean (repeat c n) == c.
Proof.
  intros Hn. unfold np_mean. rewrite np_sum_repeat_exact, repeat_length.
  cbn [div of_nat exact_number].
  assert (Hz : ~ inject_Z (Z.of_nat n) == 0).
  { unfold Qeq. cbn. lia. }
  field. exact Hz.
Qed.

Lemma autocorr_lag1_constant_exact (c : Q) (n : nat) :
  autocorr_lag1 (repeat c n) = 0.
Proof.
  unfold autocorr_lag1. rewrite repeat_length.
  destruct (n <? 2)%nat eqn:E; [reflexivity|].
  apply Nat.ltb_ge in E.
  assert (Hd : np_sum (zip_with mul
                 (map (fun v => sub v (np_mean (repeat c n))) (repeat c n))
                 (map (fun v => sub v (np_mean (repeat c n))) (repeat c n)))
               == 0).
  { apply squares_of_null_exact. apply Forall_forall. intros v Hv.
    apply in_map_iff in Hv. destruct Hv as [w [<- Hw]].
    apply repeat_spec in Hw. subst w.
    cbn [sub exact_number]. rewrite mean_of_constant_exact by lia. ring. }
  apply Qeq_bool_iff in Hd.
  cbn [eqb zero exact_number]. now rewrite Hd.
Qed.

Lemma autocorr_lag1_constant_binary64 (c : float) (n : nat) :
  (c - np_mean (repeat c n))%float = 0%float ->
  autocorr_lag1 (repeat c n) = 0%float.
Proof.
  intros H. unfold autocorr_lag1. rewrite repeat_length.
  destruct (n <? 2)%nat; [reflexivity|].
  rewrite map_repeat. cbn [sub float_number]. rewrite H.
  rewrite squares_of_zeros, sum_of_zeros. reflexivity.
Qed.

(** C5, as stated, fails on a constant series: the mean of 0.1, 0.1, 0.1
    rounds to 0.10000000000000002, the centered values are not zero, the
    denominator is not zero, and the result is 0.666..., not 0. *)
Lemma constant_series_with_rounded_mean :
  np_mean [0.1; 0.1; 0.1]%float = 0.10000000000000002%float
  /\ eqb (sum_squares (centered [0.1; 0.1; 0.1]%float)) 0%float = false
  /\ autocorr_lag1 [0.1; 0.1; 0.1]%float = 0.66666666666666663%float.
Proof. repeat split; reflexivity. Qed.

(** C5, amended: for every series and on any arithmetic, [autocorr_lag1] is
    0 when the series has fewer than 2 values, 0 when the sum of the squared
    mean-centered values is exactly 0, and otherwise the sum of the products
    of consecutive mean-centered values divided by that sum of squares.  A
    constant series gives 0 in exact arithmetic; on binary64 it gives 0 when
    its values minus the computed mean are zero, which rounding of the mean
    can prevent. *)
Theorem autocorr_lag1_formula :
  (forall (A : Type) (N : Number A) (xs : list A),
      ((length xs < 2)%nat -> autocorr_lag1 xs = zero)
      /\ (eqb (sum_squares (centered xs)) zero = true ->
          autocorr_lag1 xs = zero)
      /\ ((2 <= length xs)%nat ->
          eqb (sum_squares (centered xs)) zero = false ->
          autocorr_lag1 xs
          = div (sum_consecutive_products (centered xs))
                (sum_squares (centered xs))))
  /\ (forall (c : Q) (n : nat), autocorr_lag1 (repeat c n) = 0)
  /\ (forall (c : float) (n : nat),
         (c - np_mean (repeat c n))%float = 0%float ->
         autocorr_lag1 (repeat c n) = 0%float).
Proof.
  split; [|split].
  - intros A N xs. rewrite autocorr_lag1_refines. unfold autocorr_lag1_spec.
    split; [|split].
    + intros H. apply Nat.ltb_lt in H. now rewrite H.
    + intros H. rewrite H. now destruct (length xs <? 2)%nat.
    + intros H2 H. apply Nat.ltb_ge in H2. now rewrite H2, H.
  - exact autocorr_lag1_constant_exact.
  - exact autocorr_lag1_constant_binary64.
Qed.

Lemma autocorr_lag1_formula_witness :
  autocorr_lag1 [0.5; 0.5; 0.5]%float = 0%float
  /\ autocorr_lag1 [7]%float = 0%float
  /\ autocorr_lag1 [10; 50; 10; 50]%float
     = div (sum_consecutive_products (centered [10; 50; 10; 50]%float))
           (sum_squares (centered [10; 50; 10; 50]%float)).
Proof.
  split; [|split].
  - apply (proj2 (proj2 autocorr_lag1_formula) 0.5%float 3%nat). reflexivity.
  - exact (proj1 (proj1 autocorr_lag1_formula float _ [7]%float) (le_n 2)).
  - exact (proj2 (proj2 (proj1 autocorr_lag1_formula float _
                           [10; 50; 10; 50]%float))
             (le_S _ _ (le_S _ _ (le_n 2))) eq_refl).
Defined.

(** An alternating series is strongly negative. *)
Example alternating_series_is_negative :
  autocorr_lag1 [10; 50; 10; 50; 10; 50]%float = (-0.83333333333333337)%float.
Proof. reflexivity. Qed.

(** C10, as stated, fails on binary64: the squares of 1e200 and -1e200
    overflow, the quotient is infinity over infinity, and the result is NaN,
    which lies in no interval. *)
Lemma overflowing_series_is_unbounded :
  autocorr_lag1 [1e200; -1e200]%float = nan
  /\ PrimFloat.leb (-1) (autocorr_lag1 [1e200; -1e200]%float) = false
  /\ PrimFloat.leb (autocorr_lag1 [1e200; -1e200]%float) 1 = false.
Proof. repeat split; reflexivity. Qed.

(** C10, amended: in exact arithmetic, where no sum or product rounds or
    overflows, [autocorr_lag1] of every list lies in the closed interval
    from -1 to 1. *)
Theorem autocorr_lag1_bounded_exact :
  forall xs : list Q, - (1) <= autocorr_lag1 xs /\ autocorr_lag1 xs <= 1.
Proof.
  intros xs. unfold autocorr_lag1.
  destruct (length xs <? 2)%nat; [cbn; split; lra|].
  set (x := map (fun v => sub v (np_mean xs)) xs).
  destruct (eqb (np_sum (zip_with mul x x)) zero) eqn:E; [cbn; split; lra|].
  cbn [eqb zero mul div exact_number] in *.
  apply Qeq_bool_neq in E.
  destruct (neighbours_below_squares x) as [H1 H2].
  pose proof (squares_nonnegative x) as H0.
  pose proof (square_nonnegative (hd 0 x)) as Hsq.
  assert (Hpos : 0 < np_sum (zip_with Qmult x x)).
  { apply Qlt_leneq. split; [exact H0|]. intros H. apply E. now symmetry. }
  split.
  - apply Qle_shift_div_l; [exact Hpos|]. lra.
  - apply Qle_shift_div_r; [exact Hpos|]. lra.
Qed.

Close Scope Q_scope.

End KernelFacts.

(* ================================================================== *)
(** * Properties of the keystroke generator                            *)
(* ================================================================== *)

Section BotFacts.

Import TypespeedBot.

(** ** Rules for statements that return *)

Lemma returns_ret {X} (x : X) (s : State) (Q : X -> State -> Prop) :
  Q x s -> returns (ret x) s Q.
Proof. intros H. exact H. Qed.

Lemma returns_seq {X Y} (m : M X) (k : X -> M Y) (s : State)
      (P : X -> State -> Prop) (Q : Y -> State -> Prop) :
  returns m s P ->
  (forall x s1, P x s1 -> returns (k x) s1 Q) ->
  returns (mbind m k) s Q.
Proof.
  unfold returns, mbind. intros Hm Hk.
  destruct (m s) as [[x|e] s1]; [|exact I].
  exact (Hk x s1 Hm).
Qed.

Lemma returns_weaken {X} (m : M X) (s : State) (P Q : X -> State -> Prop) :
  returns m s P -> (forall x s1, P x s1 -> Q x s1) -> returns m s Q.
Proof.
  unfold returns. intros Hm H.
  destruct (m s) as [[x|e] s1]; [|exact I]. exact (H x s1 Hm).
Qed.

Lemma returns_quiet {X} (m : M X) (s : State) :
  quiet m ->
  returns m s (fun _ s1 => log s1 = log s /\ n_clock s1 = n_clock s).
Proof.
  intros Hq. unfold returns. specialize (Hq s).
  destruct (m s) as [[x|e] s1]; [exact Hq|exact I].
Qed.

(** ** Quiet statements *)

Lemma quiet_ret {X} (x : X) : quiet (ret x).
Proof. intros s. split; reflexivity. Qed.

Lemma quiet_bind {X Y} (m : M X) (k : X -> M Y) :
  quiet m -> (forall x, quiet (k x)) -> quiet (mbind m k).
Proof.
  intros Hm Hk s. unfold mbind. specialize (Hm s).
  destruct (m s) as [[x|e] s1]; cbn in Hm |- *; [|exact Hm].
  destruct (Hk x s1) as [H1 H2], Hm as [H3 H4]. split; congruence.
Qed.

Lemma quiet_try_except {X} (body handler : M X) :
  quiet body -> quiet handler -> quiet (try_except body handler).
Proof.
  intros Hb Hh s. unfold try_except. specialize (Hb s).
  destruct (body s) as [[x|e] s1]; cbn in Hb |- *; [exact Hb|].
  destruct (Hh s1) as [H1 H2], Hb as [H3 H4]. split; congruence.
Qed.

Lemma quiet_lift {X} (r : result X) : quiet (lift r).
Proof. intros s. split; reflexivity. Qed.

Section QuietWorld.
Variable env : Env.

Lemma quiet_wait_for_selector sel : quiet (page_wait_for_selector env sel).
Proof. intros s. split; reflexivity. Qed.

Lemma quiet_click sel : quiet (page_click env sel).
Proof. intros s. split; reflexivity. Qed.

Lemma quiet_keyboard_type ch : quiet (page_keyboard_type env ch).
Proof. intros s. split; reflexivity. Qed.

Lemma quiet_keyboard_press k : quiet (page_keyboard_press env k).
Proof. intros s. split; reflexivity. Qed.

Lemma quiet_evaluate ev k : quiet (page_evaluate env ev k).
Proof. intros s. split; reflexivity. Qed.

(** [time.sleep] sleeps and returns, or raises and does nothing. *)
Lemma time_sleep_cases secs s :
  time_sleep env secs s = (Ok tt, emit (Sleep secs) s)
  \/ exists e, time_sleep env secs s = (Raise e, s).
Proof.
  unfold time_sleep.
  destruct (PrimFloat.is_nan secs); [right; eauto|].
  destruct (_ || _); [right; eauto|].
  destruct (PrimFloat.ltb secs 0); [right; eauto|].
  destruct (PrimFloat.leb secs 1); [now left|].
  destruct (sleep_error env secs); [right; eauto|now left].
Qed.

Lemma quiet_sleep secs : quiet (time_sleep env secs).
Proof.
  intros s.
  destruct (time_sleep_cases secs s) as [->|[e ->]]; split; reflexivity.
Qed.

Lemma quiet_random : quiet (random_random env).
Proof. intros s. split; reflexivity. Qed.

Lemma quiet_uniform a b : quiet (random_uniform env a b).
Proof.
  unfold random_uniform. apply quiet_bind; [apply quiet_random|].
  intros r. apply quiet_bind; [apply quiet_lift|].
  intros width. apply quiet_bind; [apply quiet_lift|].
  intros low. apply quiet_ret.
Qed.

Lemma quiet_choice seq : quiet (random_choice env seq).
Proof. intros s. split; reflexivity. Qed.

Lemma quiet_focus sel : quiet (focus env sel).
Proof.
  unfold focus. apply quiet_try_except.
  - destruct (0 <? String.length sel)%nat.
    + apply quiet_bind; [apply quiet_wait_for_selector|].
      intros _. apply quiet_click.
    + apply quiet_click.
  - apply quiet_try_except; [apply quiet_click|apply quiet_ret].
Qed.

(** ** What is appended to the log *)

Lemma appended_nothing s s' :
  log s' = log s -> n_clock s' = n_clock s -> appended env s s' [].
Proof.
  intros Hl Hc. unfold appended. cbn.
  rewrite Hl, Hc, app_nil_r, Nat.add_0_r. auto.
Qed.

Lemma appended_trans s s1 s2 e1 e2 :
  appended env s s1 e1 -> appended env s1 s2 e2 ->
  appended env s s2 (e1 ++ e2).
Proof.
  unfold appended, readings. intros (L1 & C1 & T1) (L2 & C2 & T2).
  rewrite L2, L1, C2, C1, length_app, map_app, T1, T2, C1.
  rewrite seq_app, map_app, app_assoc, Nat.add_assoc. auto.
Qed.

Lemma emits_quiet {X} (m : M X) : quiet m -> emits env m [].
Proof.
  intros Hq s. apply (returns_weaken _ _ _ _ (returns_quiet m s Hq)).
  intros _ s1 [Hl Hc]. exists []. split; [|reflexivity].
  now apply appended_nothing.
Qed.

Lemma emits_bind {X Y} (m : M X) (k : X -> M Y) a1 a2 :
  emits env m a1 -> (forall x, emits env (k x) a2) ->
  emits env (mbind m k) (a1 ++ a2).
Proof.
  intros Hm Hk s. apply (returns_seq _ _ _ _ _ (Hm s)).
  intros x s1 (e1 & A1 & M1).
  apply (returns_weaken _ _ _ _ (Hk x s1)).
  intros _ s2 (e2 & A2 & M2). exists (e1 ++ e2). split.
  - exact (appended_trans _ _ _ _ _ A1 A2).
  - now rewrite map_app, M1, M2.
Qed.

Ltac one_event :=
  eexists [_]; split;
  [ unfold appended, readings; cbn; rewrite Nat.add_1_r; auto
  | reflexivity ].

Lemma emits_do_type_char ch : emits env (do_type_char env ch) [keypress].
Proof.
  intros s.
  unfold returns, do_type_char, mbind, try_except, time_time,
    page_keyboard_press, page_keyboard_type, next_keyboard, page_evaluate,
    log_append, outcome.
  destruct (1 <? String.length ch)%nat; cbn;
    destruct (keyboard_ok env (n_keyboard s)); cbn;
    try destruct (evaluate_ok env (n_evaluate s)); cbn;
    try exact I; one_event.
Qed.

Lemma emits_do_backspace : emits env (do_backspace env) [backspace].
Proof.
  intros s.
  unfold returns, do_backspace, mbind, try_except, time_time,
    page_keyboard_press, next_keyboard, page_evaluate, log_append, outcome.
  cbn. destruct (keyboard_ok env (n_keyboard s)); cbn;
    try destruct (evaluate_ok env (n_evaluate s)); cbn;
    try exact I; one_event.
Qed.

(** One round of the loop appends a keypress, or a corrected typo. *)
Lemma type_one_returns profile args ch more s :
  returns (type_one env profile args ch more) s
    (fun _ s' =>
       exists evs,
         appended env s s' evs
         /\ (map action evs = [keypress]
             \/ map action evs = [keypress; backspace; keypress])).
Proof.
  destruct profile; cbn [type_one].
  - apply (returns_weaken _ _ _ _ (emits_do_type_char ch s)).
    intros _ s1 (evs & A & E). exists evs. auto.
  - assert (E : emits env
                  (mbind (do_type_char env ch)
                     (fun _ =>
                        mbind (lift (int_to_float (fixed_delay_ms args)))
                          (fun delay => time_sleep env (delay / 1000))))
                  ([keypress] ++ [])).
    { apply emits_bind; [apply emits_do_type_char|].
      intros _. apply emits_quiet, quiet_bind; [apply quiet_lift|].
      intros delay. apply quiet_sleep. }
    apply (returns_weaken _ _ _ _ (E s)).
    intros _ s1 (evs & A & M). exists evs. auto.
  - apply (returns_seq _ _ _ _ _ (returns_quiet _ s quiet_random)).
    intros r s1 [Hl Hc].
    assert (Hrest : emits env
                      (mbind (random_uniform env (delay_min args) (delay_max args))
                         (fun d => time_sleep env (d / 1000)))
                      ([] ++ [])).
    { apply emits_bind; [apply emits_quiet, quiet_uniform|].
      intros d. apply emits_quiet, quiet_sleep. }
    assert (Hs : forall evs s', appended env s1 s' evs -> appended env s s' evs).
    { intros evs s' A.
      rewrite <- (app_nil_l evs).
      exact (appended_trans _ _ _ _ _ (appended_nothing _ _ Hl Hc) A). }
    destruct (PrimFloat.ltb r 0.02 && more).
    + assert (E : emits env
                    (mbind
                       (mbind (random_choice env lowercase)
                          (fun wrong =>
                             mbind (do_type_char env wrong)
                               (fun _ =>
                                  mbind (random_uniform env (delay_min args)
                                           (delay_max args))
                                    (fun d =>
                                       mbind (time_sleep env (d / 1000))
                                         (fun _ =>
                                            mbind (do_backspace env)
                                              (fun _ => do_type_char env ch))))))
                       (fun _ =>
                          mbind (random_uniform env (delay_min args)
                                   (delay_max args))
                            (fun d => time_sleep env (d / 1000))))
                    (([] ++ [keypress] ++ [] ++ [] ++ [backspace] ++ [keypress])
                       ++ [] ++ [])).
      { apply emits_bind; [|intros _; exact Hrest].
        apply emits_bind; [apply emits_quiet, quiet_choice|]. intros wrong.
        apply emits_bind; [apply emits_do_type_char|]. intros _.
        apply emits_bind; [apply emits_quiet, quiet_uniform|]. intros d.
        apply emits_bind; [apply emits_quiet, quiet_sleep|]. intros _.
        apply emits_bind; [apply emits_do_backspace|]. intros _.
        apply emits_do_type_char. }
      apply (returns_weaken _ _ _ _ (E s1)).
      intros _ s2 (evs & A & M). exists evs. split; [now apply Hs|]. now right.
    + assert (E : emits env
                    (mbind (do_type_char env ch)
                       (fun _ =>
                          mbind (random_uniform env (delay_min args)
                                   (delay_max args))
                            (fun d => time_sleep env (d / 1000))))
                    ([keypress] ++ [] ++ [])).
      { apply emits_bind; [apply emits_do_type_char|]. intros _. exact Hrest. }
      apply (returns_weaken _ _ _ _ (E s1)).
      intros _ s2 (evs & A & M). exists evs. split; [now apply Hs|]. now left.
Qed.

Lemma shaped_after_round evs1 evs2 :
  map action evs1 = [keypress]
  \/ map action evs1 = [keypress; backspace; keypress] ->
  shaped evs2 -> shaped (evs1 ++ evs2).
Proof.
  intros [H|H] H2.
  - destruct evs1 as [|e [|? ?]]; try discriminate.
    injection H as H. now apply shaped_key.
  - destruct evs1 as [|w [|b [|c [|? ?]]]]; try discriminate.
    injection H as Hw Hb Hc. now apply shaped_typo.
Qed.

(** The loop appends a well-shaped run of events. *)
Lemma type_loop_returns profile args rest :
  forall typed_count s,
    returns (type_loop env profile args rest typed_count) s
      (fun _ s' => exists evs, appended env s s' evs /\ shaped evs).
Proof.
  induction rest as [|c rest IH]; intros typed_count s; cbn [type_loop].
  - apply returns_ret. exists []. split; [|constructor].
    now apply appended_nothing.
  - destruct (typed_count <? max_chars args)%Z.
    + apply (returns_seq _ _ _ _ _ (type_one_returns _ _ _ _ s)).
      intros _ s1 (evs1 & A1 & B1).
      apply (returns_weaken _ _ _ _ (IH (typed_count + 1)%Z s1)).
      intros _ s2 (evs2 & A2 & S2). exists (evs1 ++ evs2). split.
      * exact (appended_trans _ _ _ _ _ A1 A2).
      * now apply shaped_after_round.
    + apply returns_ret. exists []. split; [|constructor].
      now apply appended_nothing.
Qed.

(** The log a run returns is well shaped, and its k-th event carries the
    k-th reading the run took of the clock. *)
Lemma type_text_profile_returns sel text profile args s :
  returns (type_text_profile env sel text profile args) s
    (fun lg _ =>
       shaped lg /\ map timestamp lg = readings env s (length lg)).
Proof.
  unfold type_text_profile.
  apply (returns_seq _ _ _
           (fun _ s0 => log s0 = [] /\ n_clock s0 = n_clock s)).
  { unfold returns, log_reset. cbn. auto. }
  intros _ s0 [L0 C0].
  apply (returns_seq _ _ _ _ _ (returns_quiet _ s0 (quiet_focus sel))).
  intros _ s1 [L1 C1].
  apply (returns_seq _ _ _ _ _ (type_loop_returns profile args _ 0%Z s1)).
  intros _ s2 (evs & (L2 & C2 & T2) & S2).
  unfold returns, get_log. rewrite L2, L1, L0. cbn [app].
  split; [exact S2|]. rewrite T2. unfold readings. now rewrite C1, C0.
Qed.

Lemma run_iteration_from_page_returns sel isspace isalpha args idx found
      obs s :
  returns (Iteration.run_iteration_from_page env sel isspace isalpha args
             idx found obs) s
    (fun r _ =>
       match r with
       | Some (meta, lg) =>
           keystrokes_count meta = length lg
           /\ shaped lg
           /\ map timestamp lg = readings env s (length lg)
       | None => True
       end).
Proof.
  unfold Iteration.run_iteration_from_page.
  destruct found as [raw|e]; [|exact I].
  destruct (String.length raw =? 0)%nat; [exact I|]. cbv zeta.
  apply (returns_seq _ _ _ _ _
           (type_text_profile_returns sel _ _ args s)).
  intros lg s1 [S1 T1].
  apply (returns_seq _ _ _ (fun _ _ => True)).
  { unfold returns. now destruct (time_sleep env 1 s1) as [[x|e] s2]. }
  intros _ s2 _.
  apply (returns_seq _ _ _ (fun _ _ => True)).
  { unfold returns. now destruct (lift _ s2) as [[x|e] s3]. }
  intros wpm s3 _. apply returns_ret. cbn. auto.
Qed.

End QuietWorld.

(** ** Order and shape *)

Lemma sorted_neighbours {X} (R : X -> X -> Prop) l1 a b l2 :
  StronglySorted R (l1 ++ a :: b :: l2) -> R a b.
Proof.
  induction l1 as [|x l1 IH]; cbn; intros H.
  - apply StronglySorted_inv in H. destruct H as [_ H].
    now inversion H.
  - apply StronglySorted_inv in H. now apply IH.
Qed.

Lemma shaped_backspace_position l :
  shaped l ->
  forall pre e post,
    l = pre ++ e :: post -> action e = backspace ->
    exists pre' w c post',
      pre = pre' ++ [w] /\ post = c :: post'
      /\ action w = keypress /\ action c = keypress.
Proof.
  induction 1 as [|e0 l He0 Hl IH|w b c l Hw Hb Hc Hl IH];
    intros pre e post E Hbs.
  - destruct pre; discriminate.
  - destruct pre as [|x pre]; cbn in E; injection E as E1 E2; subst.
    + congruence.
    + destruct (IH pre e post eq_refl Hbs)
        as (pre' & w & c & post' & -> & -> & ? & ?).
      eexists (_ :: pre'), w, c, post'. repeat split; auto.
  - destruct pre as [|x1 [|x2 [|x3 pre]]]; cbn in E.
    + injection E as E1 E2; subst. congruence.
    + injection E as E1 E2 E3; subst.
      eexists [], _, _, _. repeat split; auto.
    + injection E as E1 E2 E3 E4; subst. congruence.
    + injection E as E1 E2 E3 E4; subst.
      destruct (IH pre e post eq_refl Hbs)
        as (pre' & w' & c' & post' & -> & -> & ? & ?).
      eexists (_ :: _ :: _ :: pre'), w', c', post'. repeat split; auto.
Qed.

Lemma readings_sorted (R : float -> float -> Prop) (c : nat -> float) :
  forall n a,
    (forall i j, (a <= i)%nat -> (i < j)%nat -> (j < a + n)%nat ->
                 R (c i) (c j)) ->
    StronglySorted R (map c (seq a n)).
Proof.
  induction n as [|n IH]; intros a H; cbn [seq map]; constructor.
  - apply IH. intros i j Hi Hij Hj. apply H; lia.
  - apply Forall_forall. intros x Hx. apply in_map_iff in Hx.
    destruct Hx as (j & <- & Hj). apply in_seq in Hj. apply H; lia.
Qed.

(** C8, as stated, fails: the timestamps of a log are readings of
    [time.time()], which the code takes as they come.  In the world
    [Samples.set_back], where the clock reads 10 and then 3, the completed
    run on the text ab logs a wrong key, its backspace, and the two
    characters with the timestamps 10, 3, 3, 3: the sequence decreases, and
    the timestamp of the backspace is neither after that of the wrong key
    nor before that of the correcting one. *)
Lemma clock_set_back_breaks_the_order :
  fst (Iteration.run_iteration_from_page Samples.set_back
         Samples.typing_input TargetText.ascii_isspace
         TargetText.ascii_isalpha (Samples.defaults human_like) 1
         (Ok "ab"%string) Samples.no_panel initial)
  = Ok (Some (Samples.set_back_meta, Samples.set_back_log))
  /\ keystrokes_count Samples.set_back_meta = length Samples.set_back_log
  /\ map action Samples.set_back_log
     = [keypress; backspace; keypress; keypress]
  /\ map timestamp Samples.set_back_log = [10; 3; 3; 3]%float
  /\ PrimFloat.leb 10 3 = false
  /\ PrimFloat.ltb 3 3 = false.
Proof. repeat split; vm_compute; reflexivity. Qed.

(** C8, amended: in every completed run, under every profile,
    [keystrokes_count] is the length of the keystroke log; the k-th event
    of the log carries the k-th reading the run took of the clock; and each
    backspace stands right after the keypress of the wrong key and right
    before the keypress of the right one.  Hence the timestamps are
    non-decreasing when the clock did not go back over these readings, and
    the timestamp of each backspace lies strictly between those of its two
    keypresses when the clock advanced from each reading to the next. *)
Theorem completed_run_log_invariant :
  forall (env : Env) (sel : string) (isspace isalpha : ascii -> bool)
         (args : Args) (idx : Z) (found : result string) (obs : Observed)
         (s : State) (meta : RunMeta) (lg : list KeystrokeEvent),
    fst (Iteration.run_iteration_from_page env sel isspace isalpha args idx
           found obs s) = Ok (Some (meta, lg)) ->
    keystrokes_count meta = length lg
    /\ map timestamp lg = readings env s (length lg)
    /\ backspaces_enclosed lg
    /\ (clock_steady env s (length lg) ->
        non_decreasing (map timestamp lg))
    /\ (clock_advancing env s (length lg) -> backspaces_between lg).
Proof.
  intros env sel isspace isalpha args idx found obs s meta lg Hrun.
  pose proof (run_iteration_from_page_returns env sel isspace isalpha args
                idx found obs s) as H.
  unfold returns in H.
  destruct (Iteration.run_iteration_from_page env sel isspace isalpha args
              idx found obs s) as [r s'].
  cbn in Hrun. subst r. destruct H as (Hn & Hs & Ht).
  split; [exact Hn|]. split; [exact Ht|]. split; [|split].
  - exact (shaped_backspace_position lg Hs).
  - intros Hc. rewrite Ht. now apply readings_sorted.
  - intros Hc pre e post E Hbs.
    assert (Hinc : increasing (map timestamp lg)).
    { rewrite Ht. now apply readings_sorted. }
    destruct (shaped_backspace_position lg Hs pre e post E Hbs)
      as (pre' & w & c & post' & -> & -> & Hw & Hc').
    exists pre', w, c, post'. repeat split; auto.
    + subst lg. rewrite <- app_assoc in Hinc. cbn [app] in Hinc.
      rewrite map_app in Hinc. cbn [map] in Hinc.
      exact (sorted_neighbours _ _ _ _ _ Hinc).
    + subst lg. rewrite map_app in Hinc. cbn [map] in Hinc.
      exact (sorted_neighbours _ _ _ _ _ Hinc).
Qed.

Lemma completed_run_log_invariant_witness :
  keystrokes_count Samples.typo_meta = length Samples.typo_log
  /\ map timestamp Samples.typo_log = [0; 1; 2; 3]%float
  /\ backspaces_enclosed Samples.typo_log
  /\ non_decreasing (map timestamp Samples.typo_log)
  /\ backspaces_between Samples.typo_log.
Proof.
  assert (Hrun : fst (Iteration.run_iteration_from_page Samples.working
                        Samples.typing_input TargetText.ascii_isspace
                        TargetText.ascii_isalpha
                        (Samples.defaults human_like) 1 (Ok "ab"%string)
                        Samples.no_panel initial)
                 = Ok (Some (Samples.typo_meta, Samples.typo_log)))
    by (vm_compute; reflexivity).
  assert (Hadv : clock_advancing Samples.working initial
                   (length Samples.typo_log)).
  { intros i j _ Hij Hj. cbn in Hj.
    destruct j as [|[|[|[|j]]]]; try lia;
      destruct i as [|[|[|i]]]; try lia; reflexivity. }
  assert (Hst : clock_steady Samples.working initial
                  (length Samples.typo_log)).
  { intros i j _ Hij Hj. cbn in Hj.
    destruct j as [|[|[|[|j]]]]; try lia;
      destruct i as [|[|[|i]]]; try lia; reflexivity. }
  destruct (completed_run_log_invariant _ _ _ _ _ _ _ _ _ _ _ Hrun)
    as (H1 & H2 & H3 & H4 & H5).
  split; [exact H1|]. split; [exact H2|]. split; [exact H3|].
  split; [exact (H4 Hst)|exact (H5 Hadv)].
Defined.

(** ** The outcome of focusing does not reach the log *)

Lemma same_but_trace_refl s : same_but_trace s s.
Proof. unfold same_but_trace. auto 10. Qed.

Lemma same_but_trace_sym s1 s2 : same_but_trace s1 s2 -> same_but_trace s2 s1.
Proof. unfold same_but_trace. intuition congruence. Qed.

Lemma same_but_trace_trans s1 s2 s3 :
  same_but_trace s1 s2 -> same_but_trace s2 s3 -> same_but_trace s1 s3.
Proof. unfold same_but_trace. intuition congruence. Qed.

Lemma alike_ret {X} (x : X) : alike (ret x) (ret x).
Proof. intros s1 s2 R. split; [reflexivity|exact R]. Qed.

Lemma alike_bind {X Y} (m1 m2 : M X) (k1 k2 : X -> M Y) :
  alike m1 m2 -> (forall x, alike (k1 x) (k2 x)) ->
  alike (mbind m1 k1) (mbind m2 k2).
Proof.
  intros Hm Hk s1 s2 R. unfold mbind.
  destruct (Hm s1 s2 R) as [Hf Hs].
  destruct (m1 s1) as [[x1|e1] t1], (m2 s2) as [[x2|e2] t2];
    cbn in Hf, Hs |- *; try discriminate.
  - injection Hf as <-. exact (Hk x1 t1 t2 Hs).
  - injection Hf as <-. split; [reflexivity|exact Hs].
Qed.

Lemma alike_try_except {X} (b1 b2 h1 h2 : M X) :
  alike b1 b2 -> alike h1 h2 ->
  alike (try_except b1 h1) (try_except b2 h2).
Proof.
  intros Hb Hh s1 s2 R. unfold try_except.
  destruct (Hb s1 s2 R) as [Hf Hs].
  destruct (b1 s1) as [[x1|e1] t1], (b2 s2) as [[x2|e2] t2];
    cbn in Hf, Hs |- *; try discriminate.
  - split; [exact Hf|exact Hs].
  - exact (Hh t1 t2 Hs).
Qed.

(** Focusing returns, whatever the page answers, and only leaves a trace. *)
Lemma focus_returns env sel s :
  fst (focus env sel s) = Ok tt /\ same_but_trace s (snd (focus env sel s)).
Proof.
  unfold focus, try_except, mbind, page_wait_for_selector, page_click,
    outcome, ret, same_but_trace.
  destruct (0 <? String.length sel)%nat; cbn;
    destruct (wait_ok env sel); cbn;
    destruct (click_ok env sel); cbn;
    destruct (click_ok env "body"); cbn; auto 10.
Qed.

Section OtherPage.
Variable env : Env.
Variables w c : string -> bool.

Ltac alike_step :=
  let s1 := fresh "s1" in
  let s2 := fresh "s2" in
  intros s1 s2 (H1 & H2 & H3 & H4 & H5 & H6);
  unfold same_but_trace; cbn;
  rewrite ?H1, ?H2, ?H3, ?H4, ?H5, ?H6; auto 10.

Lemma alike_time_time : alike (time_time (with_page w c env)) (time_time env).
Proof. alike_step. Qed.

Lemma alike_keyboard e :
  alike (next_keyboard (with_page w c env) e) (next_keyboard env e).
Proof. alike_step. Qed.

Lemma alike_evaluate ev k :
  alike (page_evaluate (with_page w c env) ev k) (page_evaluate env ev k).
Proof. alike_step. Qed.

Lemma alike_sleep secs :
  alike (time_sleep (with_page w c env) secs) (time_sleep env secs).
Proof.
  unfold time_sleep. intros s1 s2 R. cbn [sleep_error with_page].
  destruct (PrimFloat.is_nan secs); [now split|].
  destruct (_ || _); [now split|].
  destruct (PrimFloat.ltb secs 0); [now split|].
  assert (E : same_but_trace (emit (Sleep secs) s1) (emit (Sleep secs) s2))
    by exact R.
  destruct (PrimFloat.leb secs 1); [now split|].
  destruct (sleep_error env secs); now split.
Qed.

Lemma alike_lift {X} (r : result X) : alike (lift r) (lift r).
Proof. intros s1 s2 R. now split. Qed.

Lemma alike_random :
  alike (random_random (with_page w c env)) (random_random env).
Proof. alike_step. Qed.

Lemma alike_uniform a b :
  alike (random_uniform (with_page w c env) a b) (random_uniform env a b).
Proof.
  unfold random_uniform. apply alike_bind; [apply alike_random|].
  intros r. apply alike_bind; [apply alike_lift|].
  intros width. apply alike_bind; [apply alike_lift|].
  intros low. apply alike_ret.
Qed.

Lemma alike_choice seq :
  alike (random_choice (with_page w c env) seq) (random_choice env seq).
Proof. alike_step. Qed.

Lemma alike_log_append e : alike (log_append e) (log_append e).
Proof. alike_step. Qed.

Lemma alike_log_reset : alike log_reset log_reset.
Proof. alike_step. Qed.

Lemma alike_get_log : alike get_log get_log.
Proof. alike_step. Qed.

Lemma alike_focus sel : alike (focus (with_page w c env) sel) (focus env sel).
Proof.
  intros s1 s2 R.
  destruct (focus_returns (with_page w c env) sel s1) as [F1 R1].
  destruct (focus_returns env sel s2) as [F2 R2].
  split; [congruence|].
  apply same_but_trace_sym in R1.
  exact (same_but_trace_trans _ _ _ R1 (same_but_trace_trans _ _ _ R R2)).
Qed.

Lemma alike_do_type_char ch :
  alike (do_type_char (with_page w c env) ch) (do_type_char env ch).
Proof.
  unfold do_type_char. apply alike_bind; [apply alike_time_time|].
  intros ts. apply alike_bind; [|intros _; apply alike_log_append].
  apply alike_try_except; [|apply alike_evaluate].
  destruct (1 <? String.length ch)%nat; apply alike_keyboard.
Qed.

Lemma alike_do_backspace :
  alike (do_backspace (with_page w c env)) (do_backspace env).
Proof.
  unfold do_backspace. apply alike_bind; [apply alike_time_time|].
  intros ts. apply alike_bind; [|intros _; apply alike_log_append].
  apply alike_try_except; [apply alike_keyboard|apply alike_evaluate].
Qed.

Lemma alike_type_one profile args ch more :
  alike (type_one (with_page w c env) profile args ch more)
        (type_one env profile args ch more).
Proof.
  destruct profile; cbn [type_one].
  - apply alike_do_type_char.
  - apply alike_bind; [apply alike_do_type_char|].
    intros _. apply alike_bind; [apply alike_lift|].
    intros delay. apply alike_sleep.
  - apply alike_bind; [apply alike_random|]. intros r.
    apply alike_bind.
    + destruct (PrimFloat.ltb r 0.02 && more); [|apply alike_do_type_char].
      apply alike_bind; [apply alike_choice|]. intros wrong.
      apply alike_bind; [apply alike_do_type_char|]. intros _.
      apply alike_bind; [apply alike_uniform|]. intros d.
      apply alike_bind; [apply alike_sleep|]. intros _.
      apply alike_bind; [apply alike_do_backspace|]. intros _.
      apply alike_do_type_char.
    + intros _. apply alike_bind; [apply alike_uniform|].
      intros d. apply alike_sleep.
Qed.

Lemma alike_type_loop profile args rest :
  forall typed_count,
    alike (type_loop (with_page w c env) profile args rest typed_count)
          (type_loop env profile args rest typed_count).
Proof.
  induction rest as [|a rest IH]; intros typed_count; cbn [type_loop].
  - apply alike_ret.
  - destruct (typed_count <? max_chars args)%Z; [|apply alike_ret].
    apply alike_bind; [apply alike_type_one|]. intros _. apply IH.
Qed.

Lemma alike_type_text_profile sel text profile args :
  alike (type_text_profile (with_page w c env) sel text profile args)
        (type_text_profile env sel text profile args).
Proof.
  unfold type_text_profile.
  apply alike_bind; [apply alike_log_reset|]. intros _.
  apply alike_bind; [apply alike_focus|]. intros _.
  apply alike_bind; [apply alike_type_loop|]. intros _.
  apply alike_get_log.
Qed.

End OtherPage.

(** C2, as stated, fails: on a page where neither the input nor the body
    can be focused, the run is not aborted and no focus failure is
    signalled; both failed attempts are followed by the keystrokes, and
    both keypresses are logged. *)
Lemma unfocusable_page_is_typed_on :
  type_text_profile Samples.unfocusable Samples.typing_input "hi"
    superhuman (Samples.defaults superhuman) initial
  = (Ok [{| key := "h"; timestamp := 0; action := keypress |};
         {| key := "i"; timestamp := 1; action := keypress |}],
     {| n_clock := 2; n_keyboard := 2; n_evaluate := 0; n_random := 0;
        n_choice := 0;
        trace := [WaitForSelector "#typing-input" false;
                  Click "body" false;
                  KeyboardType "h" true; KeyboardType "i" true];
        log := [{| key := "h"; timestamp := 0; action := keypress |};
                {| key := "i"; timestamp := 1; action := keypress |}] |}).
Proof. vm_compute. reflexivity. Qed.

(** C2, amended: a page that cannot be focused does not abort the run and
    signals nothing.  Focusing always returns, whatever the page answers,
    and the run returns the log, or raises, exactly as it does on a page
    that focuses. *)
Theorem focus_failure_is_swallowed :
  forall (env : Env) (w c : string -> bool) (sel text : string)
         (profile : Profile) (args : Args) (s : State),
    fst (focus (with_page w c env) sel s) = Ok tt
    /\ fst (type_text_profile (with_page w c env) sel text profile args s)
       = fst (type_text_profile env sel text profile args s).
Proof.
  intros env w c sel text profile args s. split.
  - apply focus_returns.
  - apply (alike_type_text_profile env w c sel text profile args s s).
    apply same_but_trace_refl.
Qed.

(** ** The injected key *)

(** The key drawn for a typo is one of the 26 lowercase letters. *)
Lemma random_choice_lowercase env s :
  exists ch : ascii,
    fst (random_choice env lowercase s) = Ok (String ch EmptyString)
    /\ In ch (list_ascii_of_string lowercase).
Proof.
  unfold random_choice. cbn [fst].
  assert (H : (Nat.modulo (choice_draw env (n_choice s))
                          (String.length lowercase) < 26)%nat).
  { apply Nat.mod_upper_bound. discriminate. }
  revert H.
  generalize (Nat.modulo (choice_draw env (n_choice s))
                         (String.length lowercase)).
  intros i Hi.
  do 26 (destruct i as [|i];
         [eexists; split; [reflexivity|cbn; tauto]|]).
  lia.
Qed.

(** C3 fails on the code where the claim is right: in the [working] world
    the typo injected at the first character of ["ab"] draws the letter a,
    the correct character itself.  The injected keypress is followed by
    the delay, the backspace and the keypress of the correct character, as
    the claim says, but the injected key is not a wrong one. *)
Theorem injected_key_can_be_the_correct_one :
  type_text_profile Samples.working Samples.typing_input "ab"
    human_like (Samples.defaults human_like) initial
  = (Ok Samples.typo_log,
     {| n_clock := 4; n_keyboard := 4; n_evaluate := 0; n_random := 5;
        n_choice := 1;
        trace := [WaitForSelector "#typing-input" true;
                  Click "#typing-input" true;
                  KeyboardType "a" true; Sleep 0.13;
                  KeyboardPress "Backspace" true;
                  KeyboardType "a" true; Sleep 0.13;
                  KeyboardType "b" true; Sleep 0.13];
        log := Samples.typo_log |}).
Proof. vm_compute. reflexivity. Qed.

End BotFacts.

(* ================================================================== *)
(** * Further properties of the feature extractor                      *)
(* ================================================================== *)

Section ExtractorOutcomes.

Import FeatureExtractor.
Open Scope float_scope.

(** ** When the intervals are computed, and when they raise *)

Lemma intervals_step (a b : json float) (rest : list (json float)) :
  inter_key_intervals (a :: b :: rest)
  = (d <- py_sub b a ;;
     r <- inter_key_intervals (b :: rest) ;;
     Ok (d * 1000 :: r))%py.
Proof.
  unfold inter_key_intervals at 1.
  change (length (a :: b :: rest) <? 2)%nat with false. cbv iota.
  change (length (a :: b :: rest) - 1)%nat with (S (length rest)).
  rewrite <- cons_seq, <- seq_shift. cbn [mapM].
  change (nth (0 + 1) (a :: b :: rest) JNull) with b.
  change (nth 0 (a :: b :: rest) JNull) with a.
  rewrite intervals_shift.
  destruct (py_sub b a) as [d|e]; [|reflexivity].
  cbn [bind].
  destruct rest as [|c rest]; [reflexivity|].
  unfold inter_key_intervals.
  change (length (b :: c :: rest) <? 2)%nat with false. cbv iota.
  change (length (b :: c :: rest) - 1)%nat with (length (c :: rest)).
  reflexivity.
Qed.

(** The comprehension of the decoded timestamps, item by item. *)
Lemma decoded_intervals_shift (a : Decoded.value) ts l :
  mapM (fun i => Decoded.gap_ms (nth (i + 1) (a :: ts) Decoded.VNone)
                                (nth i (a :: ts) Decoded.VNone)) (map S l)
  = mapM (fun i => Decoded.gap_ms (nth (i + 1) ts Decoded.VNone)
                                  (nth i ts Decoded.VNone)) l.
Proof. now rewrite mapM_map. Qed.

Lemma decoded_intervals_unfold (a : Decoded.value) rest :
  Decoded.inter_key_intervals (a :: rest) = Decoded.gaps_from a rest.
Proof.
  revert a. induction rest as [|b rest IH]; intros a; [reflexivity|].
  unfold Decoded.inter_key_intervals.
  change (length (a :: b :: rest) <? 2)%nat with false. cbv iota.
  change (length (a :: b :: rest) - 1)%nat with (S (length rest)).
  rewrite <- cons_seq, <- seq_shift. cbn [mapM Decoded.gaps_from].
  change (nth (0 + 1) (a :: b :: rest) Decoded.VNone) with b.
  change (nth 0 (a :: b :: rest) Decoded.VNone) with a.
  rewrite decoded_intervals_shift, <- IH.
  destruct (Decoded.gap_ms b a) as [x|e]; [|reflexivity].
  cbn [bind].
  destruct rest as [|c rest]; [reflexivity|].
  unfold Decoded.inter_key_intervals.
  change (length (b :: c :: rest) <? 2)%nat with false. cbv iota.
  change (length (b :: c :: rest) - 1)%nat with (length (c :: rest)).
  reflexivity.
Qed.

Lemma int_to_float_cases z :
  int_to_float z = Ok (float_of_Z z) \/ int_to_float z = Raise OverflowError.
Proof.
  unfold int_to_float.
  destruct (PrimFloat.is_infinity (float_of_Z z)); auto.
Qed.

(** One interval: it is computed from two numbers; it raises [TypeError]
    on a value that is not a number, and [OverflowError] on an int only. *)
Lemma gap_ms_returns later earlier x :
  Decoded.gap_ms later earlier = Ok x ->
  Decoded.is_number later = true /\ Decoded.is_number earlier = true.
Proof.
  unfold Decoded.gap_ms, Decoded.py_sub, Decoded.is_number.
  destruct (Decoded.number_of later) as [[a|a]|],
           (Decoded.number_of earlier) as [[b|b]|];
    cbn; auto; discriminate.
Qed.

Lemma small_int_converts (b1 b2 : bool) :
  int_to_float ((if b1 then 1 else 0) - (if b2 then 1 else 0))
  <> Raise OverflowError
  /\ int_to_float (if b1 then 1 else 0) <> Raise OverflowError.
Proof. destruct b1, b2; split; vm_compute; discriminate. Qed.

Lemma gap_ms_raises later earlier e :
  Decoded.gap_ms later earlier = Raise e ->
  (e = TypeError
   /\ (Decoded.is_number later = false \/ Decoded.is_number earlier = false))
  \/ (e = OverflowError
      /\ (Decoded.is_int later = true \/ Decoded.is_int earlier = true)).
Proof.
  unfold Decoded.gap_ms, Decoded.py_sub, Decoded.py_mul_float,
    Decoded.is_number.
  destruct later as [|b1|z1|x1|s1|l1|d1], earlier as [|b2|z2|x2|s2|l2|d2];
    cbn [Decoded.number_of Decoded.is_int bind];
    try (intros [= <-]; left; auto; fail);
    try discriminate;
    repeat match goal with
      | |- context [int_to_float ?z] =>
          let E := fresh "E" in
          destruct (int_to_float_cases z) as [E|E]; rewrite E; cbn [bind]
      end;
    try discriminate;
    try (intros [= <-]; right; auto; fail).
  - exfalso. exact (proj1 (small_int_converts b1 b2) E).
  - exfalso. exact (proj2 (small_int_converts b1 b1) E).
  - exfalso. exact (proj2 (small_int_converts b2 b2) E).
Qed.

Lemma gaps_from_returns rest :
  forall a l,
    Decoded.gaps_from a rest = Ok l ->
    length l = length rest
    /\ (rest <> [] -> Decoded.is_number a = true)
    /\ forallb Decoded.is_number rest = true.
Proof.
  induction rest as [|b rest IH]; intros a l; cbn [Decoded.gaps_from].
  - intros [= <-]. repeat split. congruence.
  - destruct (Decoded.gap_ms b a) as [x|e] eqn:G; [|discriminate].
    cbn [bind].
    destruct (Decoded.gaps_from b rest) as [r|e] eqn:R; [|discriminate].
    cbn [bind]. intros [= <-].
    destruct (gap_ms_returns _ _ _ G) as [Hb Ha].
    destruct (IH b r R) as (L & _ & F).
    cbn [length forallb]. rewrite L, Hb, F. auto.
Qed.

Lemma gaps_from_raises rest :
  forall a e,
    Decoded.gaps_from a rest = Raise e ->
    (e = TypeError /\ forallb Decoded.is_number (a :: rest) = false)
    \/ (e = OverflowError /\ existsb Decoded.is_int (a :: rest) = true).
Proof.
  induction rest as [|b rest IH]; intros a e; cbn [Decoded.gaps_from].
  - discriminate.
  - destruct (Decoded.gap_ms b a) as [x|e'] eqn:G; cbn [bind].
    + destruct (Decoded.gaps_from b rest) as [r|e'] eqn:R; [discriminate|].
      cbn [bind]. intros [= <-].
      destruct (IH b e' R) as [[-> F]|[-> F]]; [left|right];
        (split; [reflexivity|]).
      * change (forallb Decoded.is_number (a :: b :: rest))
          with (Decoded.is_number a
                && forallb Decoded.is_number (b :: rest))%bool.
        rewrite F. apply andb_false_r.
      * change (existsb Decoded.is_int (a :: b :: rest))
          with (Decoded.is_int a || existsb Decoded.is_int (b :: rest))%bool.
        rewrite F. apply orb_true_r.
    + intros [= <-].
      destruct (gap_ms_raises _ _ _ G) as [[-> [H|H]]|[-> [H|H]]];
        [left|left|right|right]; (split; [reflexivity|]);
        cbn [forallb existsb]; rewrite H;
        rewrite ?andb_false_r, ?orb_true_r; reflexivity.
Qed.

Lemma gaps_from_floats (xs : list float) :
  forall a,
    Decoded.gaps_from (Decoded.VFloat a) (map Decoded.VFloat xs)
    = Ok (gaps (a :: xs)).
Proof.
  induction xs as [|b xs IH]; intros a; [reflexivity|].
  cbn [map Decoded.gaps_from]. rewrite IH. reflexivity.
Qed.

(** On the values of the extractor's model the two readings of
    [inter_key_intervals] agree. *)
Lemma gaps_from_decoded (rest : list (json float)) :
  forall a,
    Decoded.gaps_from (Decoded.decoded a) (map Decoded.decoded rest)
    = inter_key_intervals (a :: rest).
Proof.
  induction rest as [|b rest IH]; intros a; [reflexivity|].
  rewrite intervals_step. cbn [map Decoded.gaps_from]. rewrite IH.
  destruct a as [|x|s], b as [|y|t]; reflexivity.
Qed.

(** X1. [inter_key_intervals] on timestamps as [json.load] decodes them.
    Fewer than two values give the empty list, whatever they are.  A list
    of intervals that is returned has one item less than the timestamps,
    which are then all numbers ([int], [float] or [bool]).  The function
    raises [TypeError], and then a value is not a number, or
    [OverflowError], and then a value is an [int]; it raises nothing else.
    Floats never raise: they give their consecutive differences times
    1000.0.  On floats, strings and nulls the function is the one of the
    extractor's model. *)
Theorem inter_key_intervals_outcome :
  forall ts : list Decoded.value,
    ((length ts < 2)%nat -> Decoded.inter_key_intervals ts = Ok [])
    /\ (forall l,
           Decoded.inter_key_intervals ts = Ok l ->
           length l = (length ts - 1)%nat
           /\ ((2 <= length ts)%nat ->
               forallb Decoded.is_number ts = true))
    /\ (forall e,
           Decoded.inter_key_intervals ts = Raise e ->
           (2 <= length ts)%nat
           /\ ((e = TypeError /\ forallb Decoded.is_number ts = false)
               \/ (e = OverflowError
                   /\ existsb Decoded.is_int ts = true)))
    /\ (forall xs,
           ts = map Decoded.VFloat xs ->
           Decoded.inter_key_intervals ts = Ok (gaps xs))
    /\ (forall js,
           ts = map Decoded.decoded js ->
           Decoded.inter_key_intervals ts = inter_key_intervals js).
Proof.
  intros ts. split; [|split; [|split; [|split]]].
  - intros H. unfold Decoded.inter_key_intervals.
    apply Nat.ltb_lt in H. now rewrite H.
  - intros l H. destruct ts as [|a rest]; [injection H as <-; now split|].
    rewrite decoded_intervals_unfold in H.
    destruct (gaps_from_returns rest a l H) as (L & Ha & F).
    cbn [length]. split; [lia|]. intros H2.
    cbn [forallb]. rewrite F, Ha; [reflexivity|].
    destruct rest; [cbn in H2; lia|discriminate].
  - intros e H. destruct ts as [|a rest]; [discriminate|].
    rewrite decoded_intervals_unfold in H. split.
    + destruct rest; [discriminate|cbn; lia].
    + exact (gaps_from_raises rest a e H).
  - intros xs ->. destruct xs as [|a xs]; [reflexivity|].
    cbn [map]. rewrite decoded_intervals_unfold. apply gaps_from_floats.
  - intros js ->. destruct js as [|a js]; [reflexivity|].
    cbn [map]. rewrite decoded_intervals_unfold. apply gaps_from_decoded.
Qed.

(** Two ints apart by one, beyond 2^53 where floats are two apart: the
    difference is exact; and an int beyond the floats. *)
Lemma inter_key_intervals_outcome_witness :
  (length [(-1000)%float] = (2 - 1)%nat
   /\ ((2 <= 2)%nat ->
       forallb Decoded.is_number
         [Decoded.VInt 9007199254740993; Decoded.VInt 9007199254740992]
       = true))
  /\ ((2 <= 2)%nat
      /\ ((OverflowError = TypeError
           /\ forallb Decoded.is_number
                [Decoded.VInt (10 ^ 400); Decoded.VFloat 0] = false)
          \/ (OverflowError = OverflowError
              /\ existsb Decoded.is_int
                   [Decoded.VInt (10 ^ 400); Decoded.VFloat 0] = true))).
Proof.
  split.
  - apply (proj1 (proj2 (inter_key_intervals_outcome
                           [Decoded.VInt 9007199254740993;
                            Decoded.VInt 9007199254740992]))).
    vm_compute. reflexivity.
  - apply (proj1 (proj2 (proj2 (inter_key_intervals_outcome
                                  [Decoded.VInt (10 ^ 400);
                                   Decoded.VFloat 0])))).
    vm_compute. reflexivity.
Defined.

(** What a returned record was computed from. *)
Lemma extract_inversion lib d r :
  extract lib d = Ok r ->
  exists ikis duration_s computed_wpm,
    inter_key_intervals (timestamps_of (entries_of d)) = Ok ikis
    /\ duration_s_of (timestamps_of (entries_of d)) = Ok duration_s
    /\ computed_wpm_of (chars_typed_of (keys_of (entries_of d))) duration_s
       = Ok computed_wpm
    /\ r_chars_typed r = chars_typed_of (keys_of (entries_of d))
    /\ r_backspace_count r = backspaces_of (keys_of (entries_of d))
    /\ r_duration_s r = duration_s
    /\ r_computed_wpm r = computed_wpm
    /\ r_min_iki_ms r = (if nonempty ikis then py_min ikis else 0)
    /\ r_max_iki_ms r = (if nonempty ikis then py_max ikis else 0)
    /\ r_burst_fraction r = burst_fraction_of ikis
    /\ r_autocorr_lag1 r = autocorr_lag1 ikis.
Proof.
  unfold extract. intros H.
  destruct (inter_key_intervals (timestamps_of (entries_of d)))
    as [ikis|e] eqn:E1; [|discriminate].
  destruct (duration_s_of (timestamps_of (entries_of d)))
    as [dur|e] eqn:E2; [|discriminate].
  cbn [bind] in H.
  destruct (computed_wpm_of (chars_typed_of (keys_of (entries_of d))) dur)
    as [wpm|e] eqn:E3; [|discriminate].
  cbn [bind] in H. injection H as <-.
  exists ikis, dur, wpm.
  split; [reflexivity|]. split; [reflexivity|]. split; [exact E3|].
  cbn. repeat split; reflexivity.
Qed.

(** ** What is counted *)

Lemma backspace_is_control (k : json float) :
  eq_str k "Backspace" = true -> is_control_key k = true.
Proof.
  unfold is_control_key, in_strs. cbn [existsb]. intros ->. reflexivity.
Qed.

Lemma backspaces_among_controls (keys : list (json float)) :
  (backspaces_of keys <= length (filter is_control_key keys))%nat.
Proof.
  unfold backspaces_of. induction keys as [|k keys IH]; cbn [filter length].
  - lia.
  - destruct (eq_str k "Backspace") eqn:E.
    + rewrite (backspace_is_control k E). cbn [length]. lia.
    + destruct (is_control_key k); cbn [length]; lia.
Qed.

(** X3. The two counts of a record.  Every entry of the log is counted as
    a typed character unless its key is the string Backspace, Shift or
    Enter, so an entry with no key at all is counted; and the backspace
    count, which looks at the key and not at the action, is at most the
    number of entries that are not counted as typed. *)
Theorem counts_partition_the_log :
  forall (lib : Statistics) (d : RunRecord) (r : FeatureRecord),
    extract lib d = Ok r ->
    (r_chars_typed r
     + length (filter is_control_key (keys_of (entries_of d)))
     = length (entries_of d))%nat
    /\ (r_chars_typed r + r_backspace_count r <= length (entries_of d))%nat
    /\ is_control_key JNull = false.
Proof.
  intros lib d r H.
  destruct (extract_inversion lib d r H)
    as (ikis & dur & wpm & _ & _ & _ & Hc & Hb & _).
  rewrite Hc, Hb.
  assert (P : (chars_typed_of (keys_of (entries_of d))
               + length (filter is_control_key (keys_of (entries_of d)))
               = length (entries_of d))%nat).
  { unfold chars_typed_of.
    pose proof (filter_length is_control_key (keys_of (entries_of d))) as F.
    unfold keys_of in F at 3. rewrite length_map in F.
    unfold is_control_key in *. lia. }
  split; [exact P|]. split; [|reflexivity].
  pose proof (backspaces_among_controls (keys_of (entries_of d))). lia.
Qed.

Lemma counts_partition_the_log_witness :
  exists r : FeatureRecord,
    extract Samples.naive_statistics Samples.typo_record = Ok r
    /\ (r_chars_typed r
        + length (filter is_control_key
                    (keys_of (entries_of Samples.typo_record)))
        = length (entries_of Samples.typo_record))%nat
    /\ (r_chars_typed r + r_backspace_count r
        <= length (entries_of Samples.typo_record))%nat.
Proof.
  eexists. split; [vm_compute; reflexivity|].
  split;
    apply (counts_partition_the_log Samples.naive_statistics
             Samples.typo_record _ eq_refl).
Defined.

(** ** The rows of a build *)

Lemma mapM_names lib files rows :
  mapM (named_row lib) files = Ok rows -> map fst rows = map fst files.
Proof.
  revert rows. induction files as [|[path f] files IH]; intros rows H;
    cbn in H.
  - now injection H as <-.
  - unfold named_row at 1 in H. cbn [fst snd] in H.
    destruct (process lib f) as [row|e]; cbn [bind] in H; [|discriminate].
    destruct (mapM (named_row lib) files) as [rows'|e] eqn:E;
      cbn [bind] in H; [|discriminate].
    injection H as <-. cbn. now rewrite (IH rows' eq_refl).
Qed.

(** X4. A build that succeeds lists the rows in the order of the files,
    each under the name of its file, and [features.csv] is written exactly
    when there is at least one file. *)
Theorem rows_follow_the_files :
  forall (lib : Statistics) (files : list (string * FileContent))
         (rows : list (string * FeatureRecord)),
    build_rows lib files = Ok rows ->
    map fst rows = map fst files
    /\ features_csv lib files
       = Ok (if nonempty files then Some rows else None).
Proof.
  intros lib files rows H.
  assert (N : map fst rows = map fst files).
  { rewrite build_rows_mapM in H. now apply mapM_names in H. }
  split; [exact N|].
  unfold features_csv. rewrite H. cbn [bind].
  destruct files as [|pf files], rows as [|row rows];
    try discriminate; reflexivity.
Qed.

Lemma rows_follow_the_files_witness :
  map fst (Samples.rows_of Samples.batch_two)
  = map fst Samples.batch_two
  /\ features_csv Samples.naive_statistics Samples.batch_two
     = Ok (if nonempty Samples.batch_two
           then Some (Samples.rows_of Samples.batch_two) else None).
Proof.
  apply (rows_follow_the_files Samples.naive_statistics Samples.batch_two).
  vm_compute. reflexivity.
Defined.

(** ** Minimum and maximum *)

Lemma fold_pick_member (pick : float -> float -> bool) (rest : list float) :
  forall x,
    In (fold_left (fun m v => if pick m v then v else m) rest x) (x :: rest).
Proof.
  induction rest as [|y rest IH]; intros x; cbn [fold_left].
  - now left.
  - destruct (pick x y).
    + right. apply IH.
    + destruct (IH x) as [H|H]; [now left|right; now right].
Qed.

(** X5. The minimum and the maximum of a record are two of its
    intervals: when there is an interval at all, [min_iki_ms] and
    [max_iki_ms] are members of the list of intervals (and not, say, 0). *)
Theorem extremes_are_intervals :
  forall (lib : Statistics) (d : RunRecord) (r : FeatureRecord)
         (ikis : list float),
    extract lib d = Ok r ->
    ikis_of (entries_of d) = Ok ikis ->
    ikis <> [] ->
    In (r_min_iki_ms r) ikis /\ In (r_max_iki_ms r) ikis.
Proof.
  intros lib d r ikis H Hi Hne.
  destruct (extract_inversion lib d r H)
    as (ikis' & dur & wpm & Hi' & _ & _ & _ & _ & _ & _ & Hmin & Hmax & _).
  unfold ikis_of in Hi. rewrite Hi in Hi'. injection Hi' as <-.
  rewrite Hmin, Hmax.
  destruct ikis as [|x rest]; [congruence|]. cbn [nonempty py_min py_max].
  split.
  - apply (fold_pick_member (fun m v => PrimFloat.ltb v m)).
  - apply (fold_pick_member (fun m v => PrimFloat.ltb m v)).
Qed.

Lemma extremes_are_intervals_witness :
  exists (r : FeatureRecord) (ikis : list float),
    extract Samples.naive_statistics Samples.cat_record = Ok r
    /\ ikis_of (entries_of Samples.cat_record) = Ok ikis
    /\ In (r_min_iki_ms r) ikis /\ In (r_max_iki_ms r) ikis.
Proof.
  eexists. eexists.
  split; [vm_compute; reflexivity|].
  split; [vm_compute; reflexivity|].
  apply (extremes_are_intervals Samples.naive_statistics Samples.cat_record
           _ _ eq_refl eq_refl).
  discriminate.
Defined.

End ExtractorOutcomes.

(* ================================================================== *)
(** * The extractor on any decoded document                            *)
(* ================================================================== *)

Section DecodedDocuments.

Import FeatureExtractor.
Open Scope float_scope.

(** ** What each statement can raise *)










(** ** The records of the model, as documents *)

Lemma decoded_is_None (v : json float) :
  Decoded.is_None (Decoded.decoded v) = negb (is_not_None v).
Proof. now destruct v. Qed.

Lemma decoded_eq_str (v : json float) (t : string) :
  Decoded.eq_str (Decoded.decoded v) t = eq_str v t.
Proof. now destruct v. Qed.

Lemma decoded_timestamps (l : list LogEntry) :
  Decoded.timestamps_of (map Decoded.decoded_entry l)
  = Ok (map Decoded.decoded (timestamps_of l)).
Proof.
  unfold timestamps_of.
  induction l as [|k l IH]; [reflexivity|].
  cbn [map Decoded.timestamps_of]. rewrite IH.
  change (Decoded.get (Decoded.decoded_entry k) "timestamp" Decoded.VNone)
    with (Ok (Decoded.decoded (j_timestamp k)) : result Decoded.value).
  cbn [bind filter]. rewrite decoded_is_None.
  now destruct (is_not_None (j_timestamp k)).
Qed.

Lemma decoded_keys (l : list LogEntry) :
  Decoded.keys_of (map Decoded.decoded_entry l)
  = Ok (map Decoded.decoded (keys_of l)).
Proof.
  unfold Decoded.keys_of, keys_of. rewrite mapM_map, map_map.
  apply mapM_pure.
Qed.

Lemma decoded_intervals (ts : list (json float)) :
  Decoded.inter_key_intervals (map Decoded.decoded ts)
  = inter_key_intervals ts.
Proof.
  destruct ts as [|a ts]; [reflexivity|].
  cbn [map]. rewrite decoded_intervals_unfold. apply gaps_from_decoded.
Qed.

Lemma decoded_chars_typed (keys : list (json float)) :
  Decoded.chars_typed_of (map Decoded.decoded keys) = chars_typed_of keys.
Proof.
  unfold Decoded.chars_typed_of, chars_typed_of, in_strs.
  induction keys as [|k keys IH]; [reflexivity|].
  cbn [map filter].
  assert (E : existsb (Decoded.eq_str (Decoded.decoded k))
                ["Backspace"; "Shift"; "Enter"]%string
              = existsb (eq_str k) ["Backspace"; "Shift"; "Enter"]%string).
  { cbn [existsb]. now rewrite !decoded_eq_str. }
  rewrite E. destruct (negb _); cbn [length]; now rewrite IH.
Qed.

Lemma decoded_backspaces (keys : list (json float)) :
  Decoded.backspaces_of (map Decoded.decoded keys) = backspaces_of keys.
Proof.
  unfold Decoded.backspaces_of, backspaces_of.
  induction keys as [|k keys IH]; [reflexivity|].
  cbn [map filter]. rewrite decoded_eq_str.
  destruct (eq_str k "Backspace"); cbn [length]; now rewrite IH.
Qed.

Lemma decoded_last (ts : list (json float)) :
  last (map Decoded.decoded ts) Decoded.VNone
  = Decoded.decoded (last ts JNull).
Proof.
  induction ts as [|a [|b ts] IH]; [reflexivity|reflexivity|].
  exact IH.
Qed.

Lemma decoded_duration (ts : list (json float)) :
  Decoded.duration_s_of (map Decoded.decoded ts)
  = (x <- duration_s_of ts ;; Ok (Decoded.Float x))%py.
Proof.
  unfold Decoded.duration_s_of, duration_s_of, last_item.
  rewrite length_map. destruct (2 <=? length ts)%nat; [|reflexivity].
  rewrite decoded_last.
  change Decoded.VNone with (Decoded.decoded JNull).
  rewrite map_nth.
  destruct (last ts JNull) as [|x|s], (nth 0 ts JNull) as [|y|t];
    reflexivity.
Qed.

Lemma decoded_wpm (n : nat) (x : float) :
  Decoded.computed_wpm_of n (Decoded.Float x) = computed_wpm_of n x.
Proof.
  unfold Decoded.computed_wpm_of, computed_wpm_of. cbn.
  now destruct (PrimFloat.ltb 0 x).
Qed.

Lemma decoded_record_meta (d : RunRecord) :
  Decoded.get (Decoded.decoded_record d) "meta" (Decoded.VDict [])
  = Ok (match meta d with
        | Some m => Decoded.decoded_meta m
        | None => Decoded.VDict []
        end).
Proof. destruct d as [[m|] [l|]]; reflexivity. Qed.

Lemma decoded_record_log (d : RunRecord) :
  Decoded.get (Decoded.decoded_record d) "keystroke_log" (Decoded.VList [])
  = Ok (Decoded.VList (map Decoded.decoded_entry (entries_of d))).
Proof. destruct d as [[m|] [l|]]; reflexivity. Qed.

Lemma decoded_meta_gets (d : RunRecord) :
  let o := match meta d with
           | Some m => Decoded.decoded_meta m
           | None => Decoded.VDict []
           end in
  Decoded.get o "profile" Decoded.VNone
  = Ok (Decoded.decoded (m_profile (meta_of d)))
  /\ Decoded.get o "site_mode" Decoded.VNone
     = Ok (Decoded.decoded (m_site_mode (meta_of d)))
  /\ Decoded.get o "start_time" Decoded.VNone
     = Ok (Decoded.decoded (m_start_time (meta_of d)))
  /\ Decoded.get o "end_time" Decoded.VNone
     = Ok (Decoded.decoded (m_end_time (meta_of d)))
  /\ Decoded.get o "extracted_wpm" Decoded.VNone
     = Ok (Decoded.decoded (m_extracted_wpm (meta_of d)))
  /\ Decoded.get o "extracted_accuracy" Decoded.VNone
     = Ok (Decoded.decoded (m_extracted_accuracy (meta_of d))).
Proof. unfold meta_of. destruct (meta d) as [m|]; repeat split. Qed.

Lemma guarded_returning (f : list float -> float) (xs : list float) :
  Decoded.guarded (fun l => Ok (f l)) xs
  = Ok (if nonempty xs then f xs else 0).
Proof. unfold Decoded.guarded. now destruct (nonempty xs). Qed.

(** X21. The extractor's model within the faithful one.  On a document
    that is a record of the model (an object whose ["meta"] and
    ["keystroke_log"], when present, are an object and an array of
    objects, with floats, strings and nulls for values), and with a
    statistics library that returns, the body of the loop read on any
    decoded document computes the row, or raises the exception, that the
    model computes or raises. *)
Theorem model_within_decoded_documents :
  forall (lib : Statistics) (d : RunRecord),
    Decoded.extract (Decoded.returning lib) (Decoded.decoded_record d)
    = (r <- extract lib d ;; Ok (Decoded.decoded_row r))%py.
Proof.
  intros lib d. unfold Decoded.extract, extract.
  rewrite decoded_record_meta, decoded_record_log. cbn [bind Decoded.iterate].
  rewrite decoded_timestamps, decoded_keys. cbn [bind].
  rewrite decoded_intervals, decoded_chars_typed, decoded_backspaces,
    decoded_duration.
  destruct (inter_key_intervals (timestamps_of (entries_of d)))
    as [ikis|e]; [|reflexivity].
  cbn [bind].
  destruct (duration_s_of (timestamps_of (entries_of d)))
    as [duration|e]; [|reflexivity].
  cbn [bind]. rewrite decoded_wpm.
  destruct (computed_wpm_of (chars_typed_of (keys_of (entries_of d)))
              duration) as [wpm|e]; [|reflexivity].
  cbn [bind].
  destruct (decoded_meta_gets d) as (G1 & G2 & G3 & G4 & G5 & G6).
  cbv zeta in G1, G2, G3, G4, G5, G6.
  rewrite G1, G2, G3, G4, G5, G6. cbn [bind].
  unfold Decoded.returning. cbn [Decoded.mean Decoded.pstdev Decoded.median].
  rewrite !guarded_returning. cbn [bind].
  reflexivity.
Qed.



End DecodedDocuments.

(* ================================================================== *)
(** * Further properties of the keystroke generator                    *)
(* ================================================================== *)

Section GeneratorRuns.

Import TypespeedBot.

(** ** Silent statements *)

Lemma silent_ret {X} (x : X) : silent (ret x).
Proof. intros s. repeat split. Qed.

Lemma silent_bind {X Y} (m : M X) (k : X -> M Y) :
  silent m -> (forall x, silent (k x)) -> silent (mbind m k).
Proof.
  intros Hm Hk s. unfold mbind. specialize (Hm s).
  destruct (m s) as [[x|e] s1]; cbn in Hm |- *; [|exact Hm].
  destruct (Hk x s1) as (H1 & H2 & H3), Hm as (H4 & H5 & H6).
  repeat split; congruence.
Qed.

Lemma silent_try_except {X} (body handler : M X) :
  silent body -> silent handler -> silent (try_except body handler).
Proof.
  intros Hb Hh s. unfold try_except. specialize (Hb s).
  destruct (body s) as [[x|e] s1]; cbn in Hb |- *; [exact Hb|].
  destruct (Hh s1) as (H1 & H2 & H3), Hb as (H4 & H5 & H6).
  repeat split; congruence.
Qed.

Lemma returns_silent {X} (m : M X) (s : State) :
  silent m ->
  returns m s (fun _ s1 => log s1 = log s
                           /\ n_keyboard s1 = n_keyboard s
                           /\ n_evaluate s1 = n_evaluate s).
Proof.
  intros Hq. unfold returns. specialize (Hq s).
  destruct (m s) as [[x|e] s1]; [exact Hq|exact I].
Qed.

Section World.
Variable env : Env.

Lemma silent_sleep secs : silent (time_sleep env secs).
Proof.
  intros s.
  destruct (time_sleep_cases env secs s) as [->|[e ->]]; repeat split.
Qed.

Lemma silent_lift {X} (r : result X) : silent (lift r).
Proof. intros s. repeat split. Qed.

(** The fixed delay after a character. *)
Lemma silent_fixed_pause args :
  silent (mbind (lift (int_to_float (fixed_delay_ms args)))
            (fun delay => time_sleep env (delay / 1000))).
Proof.
  apply silent_bind; [apply silent_lift|]. intros d. apply silent_sleep.
Qed.

Lemma silent_random : silent (random_random env).
Proof. intros s. repeat split. Qed.

Lemma silent_uniform a b : silent (random_uniform env a b).
Proof.
  unfold random_uniform. apply silent_bind; [apply silent_random|].
  intros r. apply silent_bind; [apply silent_lift|].
  intros width. apply silent_bind; [apply silent_lift|].
  intros low. apply silent_ret.
Qed.

Lemma silent_choice seq : silent (random_choice env seq).
Proof. intros s. repeat split. Qed.

Lemma silent_focus sel : silent (focus env sel).
Proof.
  assert (W : forall x, silent (page_wait_for_selector env x))
    by (intros x s; repeat split).
  assert (C : forall x, silent (page_click env x))
    by (intros x s; repeat split).
  unfold focus. apply silent_try_except.
  - destruct (0 <? String.length sel)%nat; [|apply C].
    apply silent_bind; [apply W|]. intros _. apply C.
  - apply silent_try_except; [apply C|apply silent_ret].
Qed.

(** ** What a round types *)

Lemma typed_on_nothing s s' :
  log s' = log s -> n_keyboard s' = n_keyboard s ->
  n_evaluate s' = n_evaluate s -> typed_on env s s' [].
Proof.
  intros Hl Hk He. unfold typed_on, failed_keys. cbn.
  rewrite Hl, Hk, He, app_nil_r, !Nat.add_0_r. auto.
Qed.

Lemma typed_on_trans s s1 s2 e1 e2 :
  typed_on env s s1 e1 -> typed_on env s1 s2 e2 ->
  typed_on env s s2 (e1 ++ e2).
Proof.
  unfold typed_on, failed_keys. intros (L1 & K1 & E1) (L2 & K2 & E2).
  rewrite L2, L1, K2, K1, E2, E1, K1, length_app, seq_app, filter_app,
    length_app, app_assoc.
  repeat split; lia.
Qed.

Lemma typed_on_after s s1 s2 evs :
  log s1 = log s /\ n_keyboard s1 = n_keyboard s
  /\ n_evaluate s1 = n_evaluate s ->
  typed_on env s1 s2 evs -> typed_on env s s2 evs.
Proof.
  intros (L & K & E) T. rewrite <- (app_nil_l evs).
  exact (typed_on_trans _ _ _ _ _ (typed_on_nothing _ _ L K E) T).
Qed.

Lemma typed_on_before s s1 s2 evs :
  typed_on env s s1 evs ->
  log s2 = log s1 /\ n_keyboard s2 = n_keyboard s1
  /\ n_evaluate s2 = n_evaluate s1 ->
  typed_on env s s2 evs.
Proof.
  intros T (L & K & E). rewrite <- (app_nil_r evs).
  exact (typed_on_trans _ _ _ _ _ T (typed_on_nothing _ _ L K E)).
Qed.

Lemma do_type_char_typed ch s :
  returns (do_type_char env ch) s
    (fun _ s' =>
       exists t, typed_on env s s'
                   [{| key := ch; timestamp := t; action := keypress |}]).
Proof.
  unfold returns, do_type_char, mbind, try_except, time_time,
    page_keyboard_press, page_keyboard_type, next_keyboard, page_evaluate,
    log_append, outcome.
  destruct (1 <? String.length ch)%nat; cbn;
    destruct (keyboard_ok env (n_keyboard s)) eqn:K; cbn;
    try destruct (evaluate_ok env (n_evaluate s)); cbn;
    try exact I;
    (eexists; unfold typed_on, failed_keys; cbn; rewrite K; cbn;
     rewrite ?Nat.add_1_r, ?Nat.add_0_r; repeat split; reflexivity).
Qed.

Lemma do_backspace_typed s :
  returns (do_backspace env) s
    (fun _ s' =>
       exists t, typed_on env s s'
                   [{| key := "Backspace"; timestamp := t;
                       action := backspace |}]).
Proof.
  unfold returns, do_backspace, mbind, try_except, time_time,
    page_keyboard_press, next_keyboard, page_evaluate, log_append, outcome.
  cbn. destruct (keyboard_ok env (n_keyboard s)) eqn:K; cbn;
    try destruct (evaluate_ok env (n_evaluate s)); cbn;
    try exact I;
    (eexists; unfold typed_on, failed_keys; cbn; rewrite K; cbn;
     rewrite ?Nat.add_1_r, ?Nat.add_0_r; repeat split; reflexivity).
Qed.

Lemma choice_returns s :
  returns (random_choice env lowercase) s
    (fun wrong s1 =>
       (exists w, wrong = String w EmptyString)
       /\ log s1 = log s /\ n_keyboard s1 = n_keyboard s
       /\ n_evaluate s1 = n_evaluate s).
Proof.
  destruct (random_choice_lowercase env s) as (w & Hw & _).
  pose proof (silent_choice lowercase s) as Hs.
  unfold returns. destruct (random_choice env lowercase s) as [[x|e] s1];
    cbn in Hw, Hs; [|discriminate].
  injection Hw as ->. split; [now exists w|exact Hs].
Qed.

(** The delay after a character, or between a wrong key and its
    backspace. *)
Lemma silent_pause args :
  silent (mbind (random_uniform env (delay_min args) (delay_max args))
            (fun d => time_sleep env (d / 1000))).
Proof.
  apply silent_bind; [apply silent_uniform|]. intros d. apply silent_sleep.
Qed.

Lemma typo_typed args c s :
  returns
    (mbind (random_choice env lowercase)
       (fun wrong =>
          mbind (do_type_char env wrong)
            (fun _ =>
               mbind (random_uniform env (delay_min args) (delay_max args))
                 (fun d =>
                    mbind (time_sleep env (d / 1000))
                      (fun _ =>
                         mbind (do_backspace env)
                           (fun _ => do_type_char env (String c EmptyString)))))))
    s
    (fun _ s' =>
       exists w t1 t2 t3,
         typed_on env s s'
           [{| key := String w EmptyString; timestamp := t1;
               action := keypress |};
            {| key := "Backspace"; timestamp := t2; action := backspace |};
            {| key := String c EmptyString; timestamp := t3;
               action := keypress |}]).
Proof.
  apply (returns_seq _ _ _ _ _ (choice_returns s)).
  intros wrong s1 [[w ->] H1].
  apply (returns_seq _ _ _ _ _ (do_type_char_typed _ s1)).
  intros _ s2 [t1 T1].
  apply (returns_seq _ _ _ _ _ (returns_silent _ s2 (silent_uniform _ _))).
  intros d s3 H3.
  apply (returns_seq _ _ _ _ _ (returns_silent _ s3 (silent_sleep _))).
  intros _ s4 H4.
  apply (returns_seq _ _ _ _ _ (do_backspace_typed s4)).
  intros _ s5 [t2 T2].
  apply (returns_weaken _ _ _ _ (do_type_char_typed _ s5)).
  intros _ s6 [t3 T3].
  exists w, t1, t2, t3.
  apply (typed_on_after _ _ _ _ H1).
  pose proof (typed_on_before _ _ _ _ (typed_on_before _ _ _ _ T1 H3) H4) as T14.
  exact (typed_on_trans _ _ _ _ _ T14 (typed_on_trans _ _ _ _ _ T2 T3)).
Qed.

(** One round of the loop. *)
Lemma type_one_typed p args c more s :
  returns (type_one env p args (String c EmptyString) more) s
    (fun _ s' => exists evs, typed_on env s s' evs /\ round_of p c more evs).
Proof.
  destruct p; cbn [type_one].
  - apply (returns_weaken _ _ _ _ (do_type_char_typed _ s)).
    intros _ s1 [t T]. eexists. split; [exact T|]. left. now exists t.
  - apply (returns_seq _ _ _ _ _ (do_type_char_typed _ s)).
    intros _ s1 [t T].
    apply (returns_weaken _ _ _ _
             (returns_silent _ s1 (silent_fixed_pause args))).
    intros _ s2 H. eexists. split; [exact (typed_on_before _ _ _ _ T H)|].
    left. now exists t.
  - apply (returns_seq _ _ _ _ _ (returns_silent _ s silent_random)).
    intros r s1 H1.
    apply (returns_seq _ _ _
             (fun _ s2 => exists evs, typed_on env s1 s2 evs
                                      /\ round_of human_like c more evs)).
    + destruct (PrimFloat.ltb r 0.02 && more) eqn:E.
      * apply andb_prop in E. destruct E as [_ Em].
        apply (returns_weaken _ _ _ _ (typo_typed args c s1)).
        intros _ s2 (w & t1 & t2 & t3 & T). eexists. split; [exact T|].
        right. split; [reflexivity|]. split; [exact Em|].
        now exists w, t1, t2, t3.
      * apply (returns_weaken _ _ _ _ (do_type_char_typed _ s1)).
        intros _ s2 [t T]. eexists. split; [exact T|]. left. now exists t.
    + intros _ s2 (evs & T & R).
      apply (returns_weaken _ _ _ _ (returns_silent _ s2 (silent_pause args))).
      intros _ s3 H3. exists evs. split; [|exact R].
      exact (typed_on_after _ _ _ _ H1 (typed_on_before _ _ _ _ T H3)).
Qed.

(** The loop. *)
Lemma type_loop_typed p args rest :
  forall typed_count s,
    returns (type_loop env p args rest typed_count) s
      (fun _ s' =>
         exists evs,
           typed_on env s s' evs
           /\ rounds p (loop_rounds args rest typed_count) evs).
Proof.
  induction rest as [|c rest IH]; intros typed_count s;
    cbn [type_loop loop_rounds].
  - apply returns_ret. exists []. split; [|constructor].
    now apply typed_on_nothing.
  - destruct (typed_count <? max_chars args)%Z.
    + apply (returns_seq _ _ _ _ _ (type_one_typed p args c _ s)).
      intros _ s1 (evs1 & T1 & R1).
      apply (returns_weaken _ _ _ _ (IH (typed_count + 1)%Z s1)).
      intros _ s2 (evs2 & T2 & R2). exists (evs1 ++ evs2). split.
      * exact (typed_on_trans _ _ _ _ _ T1 T2).
      * now constructor.
    + apply returns_ret. exists []. split; [|constructor].
      now apply typed_on_nothing.
Qed.

(** The whole run. *)
Lemma type_text_profile_typed sel text p args s :
  returns (type_text_profile env sel text p args) s
    (fun lg s' =>
       rounds p (loop_rounds args (list_ascii_of_string text) 0) lg
       /\ log s' = lg
       /\ n_keyboard s' = (n_keyboard s + length lg)%nat
       /\ n_evaluate s' = (n_evaluate s + failed_keys env s (length lg))%nat).
Proof.
  unfold type_text_profile.
  apply (returns_seq _ _ _
           (fun _ s0 => log s0 = [] /\ n_keyboard s0 = n_keyboard s
                        /\ n_evaluate s0 = n_evaluate s)).
  { unfold returns, log_reset. cbn. auto. }
  intros _ s0 (L0 & K0 & E0).
  apply (returns_seq _ _ _ _ _ (returns_silent _ s0 (silent_focus sel))).
  intros _ s1 (L1 & K1 & E1).
  apply (returns_seq _ _ _ _ _ (type_loop_typed p args _ 0%Z s1)).
  intros _ s2 (evs & (L2 & K2 & E2) & R).
  unfold returns, get_log. rewrite L2, L1, L0. cbn [app].
  split; [exact R|]. split; [reflexivity|].
  unfold failed_keys in *. rewrite K2, E2, K1, K0, E1, E0. auto.
Qed.

End World.

(** ** What the rounds add up to *)

Lemma loop_rounds_chars args rest :
  forall typed_count,
    map fst (loop_rounds args rest typed_count)
    = firstn (Z.to_nat (max_chars args - typed_count)) rest.
Proof.
  induction rest as [|c rest IH]; intros typed_count; cbn [loop_rounds].
  - now rewrite firstn_nil.
  - destruct (typed_count <? max_chars args)%Z eqn:E.
    + apply Z.ltb_lt in E. cbn [map fst]. rewrite IH.
      replace (Z.to_nat (max_chars args - typed_count))
        with (S (Z.to_nat (max_chars args - (typed_count + 1)))) by lia.
      reflexivity.
    + apply Z.ltb_ge in E.
      replace (Z.to_nat (max_chars args - typed_count)) with 0%nat by lia.
      reflexivity.
Qed.

Lemma loop_rounds_typed_chars args text :
  map fst (loop_rounds args (list_ascii_of_string text) 0)
  = typed_chars args text.
Proof.
  rewrite loop_rounds_chars. unfold typed_chars. now rewrite Z.sub_0_r.
Qed.

Lemma loop_rounds_more args rest :
  forall typed_count,
    (length (filter snd (loop_rounds args rest typed_count))
     <= length rest - 1)%nat.
Proof.
  induction rest as [|c rest IH]; intros typed_count; cbn [loop_rounds].
  - cbn. lia.
  - destruct (typed_count <? max_chars args)%Z; [|cbn; lia].
    cbn [filter snd]. specialize (IH (typed_count + 1)%Z).
    destruct rest as [|c' rest]; cbn [nonempty length] in *.
    + cbn in IH |- *. lia.
    + lia.
Qed.

Lemma rounds_replay p rs evs :
  rounds p rs evs ->
  forall buf,
    fold_left (fun b e =>
                 match action e with
                 | keypress => b ++ [key e]
                 | backspace => removelast b
                 end) evs buf
    = buf ++ map key_of_char (map fst rs).
Proof.
  induction 1 as [|c more rs evs1 evs2 R1 _ IH]; intros buf.
  - cbn. now rewrite app_nil_r.
  - rewrite fold_left_app, IH. cbn [map fst].
    destruct R1 as [[t ->]|(_ & _ & w & t1 & t2 & t3 & ->)]; cbn.
    + now rewrite <- app_assoc.
    + rewrite removelast_last. now rewrite <- app_assoc.
Qed.

Lemma rounds_counts p rs evs :
  rounds p rs evs ->
  (length (filter is_backspace evs) <= length (filter snd rs))%nat
  /\ length (filter is_keypress evs)
     = (length rs + length (filter is_backspace evs))%nat
  /\ length evs = (length rs + 2 * length (filter is_backspace evs))%nat.
Proof.
  induction 1 as [|c more rs evs1 evs2 R1 _ (IH1 & IH2 & IH3)].
  - cbn. lia.
  - rewrite !filter_app, !length_app, IH2, IH3.
    destruct R1 as [[t ->]|(_ & -> & w & t1 & t2 & t3 & ->)];
      cbn [filter is_backspace is_keypress action length snd].
    + destruct more; cbn [length]; lia.
    + lia.
Qed.

Lemma rounds_without_typos p rs evs :
  rounds p rs evs -> p <> human_like ->
  map key evs = map key_of_char (map fst rs)
  /\ forallb is_keypress evs = true.
Proof.
  intros R Hp. induction R as [|c more rs evs1 evs2 R1 _ (IH1 & IH2)].
  - now split.
  - destruct R1 as [[t ->]|(E & _)]; [|congruence].
    cbn. rewrite IH1. now split.
Qed.

(** X6. The log, read as the edits of an input field (a keypress appends
    its key, a backspace removes the last key), spells the text: whatever
    the profile, the typos injected and the failures of the keyboard, a run
    that returns has typed the first [max_chars] characters of the text and
    nothing else. *)
Theorem run_types_the_text :
  forall (env : Env) (sel text : string) (p : Profile) (args : Args)
         (s : State) (lg : list KeystrokeEvent),
    fst (type_text_profile env sel text p args s) = Ok lg ->
    replay lg = map key_of_char (typed_chars args text).
Proof.
  intros env sel text p args s lg H.
  pose proof (type_text_profile_typed env sel text p args s) as T.
  unfold returns in T.
  destruct (type_text_profile env sel text p args s) as [[x|e] s'];
    cbn in H; [|discriminate].
  injection H as ->. destruct T as (R & _).
  unfold replay. rewrite (rounds_replay _ _ _ R []).
  now rewrite loop_rounds_typed_chars.
Qed.

Lemma run_types_the_text_witness :
  replay Samples.typo_log
  = map key_of_char
      (typed_chars (Samples.defaults human_like) "ab").
Proof.
  apply (run_types_the_text Samples.working Samples.typing_input "ab"
           human_like (Samples.defaults human_like) initial).
  vm_compute. reflexivity.
Defined.

(** X7. Under the superhuman and the fixed-delay profiles a run that
    returns has logged exactly one keypress for each typed character, in
    the order of the text, and no backspace. *)
Theorem plain_profiles_log_the_text :
  forall (env : Env) (sel text : string) (p : Profile) (args : Args)
         (s : State) (lg : list KeystrokeEvent),
    p <> human_like ->
    fst (type_text_profile env sel text p args s) = Ok lg ->
    map key lg = map key_of_char (typed_chars args text)
    /\ forallb is_keypress lg = true.
Proof.
  intros env sel text p args s lg Hp H.
  pose proof (type_text_profile_typed env sel text p args s) as T.
  unfold returns in T.
  destruct (type_text_profile env sel text p args s) as [[x|e] s'];
    cbn in H; [|discriminate].
  injection H as ->. destruct T as (R & _).
  rewrite <- loop_rounds_typed_chars.
  exact (rounds_without_typos _ _ _ R Hp).
Qed.

Lemma plain_profiles_log_the_text_witness :
  map key [{| key := "h"; timestamp := 0; action := keypress |};
           {| key := "i"; timestamp := 1; action := keypress |}]
  = map key_of_char (typed_chars (Samples.defaults superhuman) "hi")
  /\ forallb is_keypress
       [{| key := "h"; timestamp := 0; action := keypress |};
        {| key := "i"; timestamp := 1; action := keypress |}] = true.
Proof.
  apply (plain_profiles_log_the_text Samples.unfocusable Samples.typing_input
           "hi" superhuman (Samples.defaults superhuman) initial).
  - discriminate.
  - vm_compute. reflexivity.
Defined.

(** X8. The size of a log.  A run that returns has logged one keypress
    for each typed character and, for each backspace, one keypress more;
    and it has logged fewer backspaces than the text has characters, since
    no typo is injected at the last character of the text. *)
Theorem log_size :
  forall (env : Env) (sel text : string) (p : Profile) (args : Args)
         (s : State) (lg : list KeystrokeEvent),
    fst (type_text_profile env sel text p args s) = Ok lg ->
    length lg
    = (length (typed_chars args text)
       + 2 * length (filter is_backspace lg))%nat
    /\ length (filter is_keypress lg)
       = (length (typed_chars args text)
          + length (filter is_backspace lg))%nat
    /\ (length (filter is_backspace lg) <= String.length text - 1)%nat.
Proof.
  intros env sel text p args s lg H.
  pose proof (type_text_profile_typed env sel text p args s) as T.
  unfold returns in T.
  destruct (type_text_profile env sel text p args s) as [[x|e] s'];
    cbn in H; [|discriminate].
  injection H as ->. destruct T as (R & _).
  destruct (rounds_counts _ _ _ R) as (C1 & C2 & C3).
  pose proof (loop_rounds_more args (list_ascii_of_string text) 0) as M.
  rewrite <- loop_rounds_typed_chars, length_map.
  assert (L : length (list_ascii_of_string text) = String.length text).
  { clear. induction text as [|c text IH]; cbn; [reflexivity|now rewrite IH]. }
  rewrite L in M. repeat split; lia.
Qed.

Lemma log_size_witness :
  length Samples.typo_log
  = (length (typed_chars (Samples.defaults human_like) "ab")
     + 2 * length (filter is_backspace Samples.typo_log))%nat
  /\ length (filter is_keypress Samples.typo_log)
     = (length (typed_chars (Samples.defaults human_like) "ab")
        + length (filter is_backspace Samples.typo_log))%nat
  /\ (length (filter is_backspace Samples.typo_log)
      <= String.length "ab" - 1)%nat.
Proof.
  apply (log_size Samples.working Samples.typing_input "ab"
           human_like (Samples.defaults human_like) initial).
  vm_compute. reflexivity.
Defined.

(** X9. In a run that returns, the keyboard of the page is called exactly
    once for each logged event, and the fallback [page.evaluate] exactly
    once for each of those keyboard calls that threw. *)
Theorem one_emission_per_event :
  forall (env : Env) (sel text : string) (p : Profile) (args : Args)
         (s s' : State) (lg : list KeystrokeEvent),
    type_text_profile env sel text p args s = (Ok lg, s') ->
    n_keyboard s' = (n_keyboard s + length lg)%nat
    /\ n_evaluate s' = (n_evaluate s + failed_keys env s (length lg))%nat.
Proof.
  intros env sel text p args s s' lg H.
  pose proof (type_text_profile_typed env sel text p args s) as T.
  unfold returns in T. rewrite H in T. tauto.
Qed.

Lemma one_emission_per_event_witness :
  n_keyboard (snd (type_text_profile Samples.flaky Samples.typing_input "hi"
                     superhuman (Samples.defaults superhuman) initial))
  = (n_keyboard initial + 2)%nat
  /\ n_evaluate (snd (type_text_profile Samples.flaky Samples.typing_input
                        "hi" superhuman (Samples.defaults superhuman)
                        initial))
     = (n_evaluate initial + failed_keys Samples.flaky initial 2)%nat.
Proof.
  apply (one_emission_per_event Samples.flaky Samples.typing_input "hi"
           superhuman (Samples.defaults superhuman) initial _
           [{| key := "h"; timestamp := 0; action := keypress |};
            {| key := "i"; timestamp := 1; action := keypress |}]).
  vm_compute. reflexivity.
Defined.

(** ** What a run can raise *)

Lemma raises_only_weaken {X} (P Q : exn -> Prop) (m : M X) :
  raises_only P m -> (forall e, P e -> Q e) -> raises_only Q m.
Proof. intros H HPQ s e E. exact (HPQ e (H s e E)). Qed.

Lemma raises_only_bind {X Y} (P : exn -> Prop) (m : M X) (k : X -> M Y) :
  raises_only P m -> (forall x, raises_only P (k x)) ->
  raises_only P (mbind m k).
Proof.
  intros Hm Hk s e. unfold mbind. specialize (Hm s).
  destruct (m s) as [[x|e'] s1]; cbn in Hm |- *.
  - apply Hk.
  - intros E. injection E as <-. now apply Hm.
Qed.

Lemma raises_only_ret {X} (P : exn -> Prop) (x : X) : raises_only P (ret x).
Proof. intros s e. discriminate. Qed.

Section Failures.
Variable env : Env.

Lemma raises_only_sleep secs :
  raises_only (delay_failure env) (time_sleep env secs).
Proof.
  intros s e. unfold time_sleep, delay_failure.
  destruct (PrimFloat.is_nan secs); cbn; [intros [= <-]; auto|].
  destruct (_ || _); cbn; [intros [= <-]; auto|].
  destruct (PrimFloat.ltb secs 0); cbn; [intros [= <-]; auto|].
  destruct (PrimFloat.leb secs 1); cbn; [discriminate|].
  destruct (sleep_error env secs) as [e'|] eqn:E; cbn; [|discriminate].
  intros [= <-]. right. right. now exists secs.
Qed.

Lemma raises_only_int_to_float z :
  raises_only (delay_failure env) (lift (int_to_float z)).
Proof.
  intros s e. unfold lift, int_to_float, delay_failure.
  destruct (PrimFloat.is_infinity (float_of_Z z)); cbn; [|discriminate].
  intros [= <-]. auto.
Qed.

Lemma raises_only_uniform a b :
  raises_only (delay_failure env) (random_uniform env a b).
Proof.
  unfold random_uniform.
  apply raises_only_bind; [intros s e; discriminate|]. intros r.
  apply raises_only_bind; [apply raises_only_int_to_float|]. intros width.
  apply raises_only_bind; [apply raises_only_int_to_float|]. intros low.
  apply raises_only_ret.
Qed.

Lemma raises_only_do_type_char ch :
  raises_only (emission_failure env) (do_type_char env ch).
Proof.
  intros s e.
  unfold do_type_char, mbind, try_except, time_time, page_keyboard_press,
    page_keyboard_type, next_keyboard, page_evaluate, log_append, outcome.
  destruct (1 <? String.length ch)%nat; cbn;
    destruct (keyboard_ok env (n_keyboard s)) eqn:K; cbn;
    try destruct (evaluate_ok env (n_evaluate s)) eqn:E; cbn;
    try discriminate;
    (intros H; injection H as <-; split; [reflexivity|];
     exists (n_keyboard s), (n_evaluate s); auto).
Qed.

Lemma raises_only_do_backspace :
  raises_only (emission_failure env) (do_backspace env).
Proof.
  intros s e.
  unfold do_backspace, mbind, try_except, time_time, page_keyboard_press,
    next_keyboard, page_evaluate, log_append, outcome.
  cbn. destruct (keyboard_ok env (n_keyboard s)) eqn:K; cbn;
    try destruct (evaluate_ok env (n_evaluate s)) eqn:E; cbn;
    try discriminate;
    (intros H; injection H as <-; split; [reflexivity|];
     exists (n_keyboard s), (n_evaluate s); auto).
Qed.

Lemma raises_only_pause p args :
  p <> superhuman ->
  raises_only (run_failure env p)
    (mbind (random_uniform env (delay_min args) (delay_max args))
       (fun d => time_sleep env (d / 1000))).
Proof.
  intros Hp. apply (raises_only_weaken (delay_failure env)).
  - apply raises_only_bind; [apply raises_only_uniform|].
    intros d. apply raises_only_sleep.
  - intros e H. right. now split.
Qed.

Lemma raises_only_type_one p args ch more :
  raises_only (run_failure env p) (type_one env p args ch more).
Proof.
  assert (T : forall c, raises_only (run_failure env p) (do_type_char env c)).
  { intros c. apply (raises_only_weaken _ _ _ (raises_only_do_type_char c)).
    intros e H. now left. }
  destruct p; cbn [type_one].
  - apply T.
  - apply raises_only_bind; [apply T|]. intros _.
    apply (raises_only_weaken (delay_failure env)).
    + apply raises_only_bind; [apply raises_only_int_to_float|].
      intros delay. apply raises_only_sleep.
    + intros e H. right. split; [discriminate|exact H].
  - assert (Hp : human_like <> superhuman) by discriminate.
    apply raises_only_bind; [intros s e; discriminate|]. intros r.
    apply raises_only_bind; [|intros _; now apply raises_only_pause].
    destruct (PrimFloat.ltb r 0.02 && more); [|apply T].
    apply raises_only_bind; [intros s e; discriminate|]. intros wrong.
    apply raises_only_bind; [apply T|]. intros _.
    apply raises_only_bind.
    { apply (raises_only_weaken _ _ _ (raises_only_uniform _ _)).
      intros e H. right. now split. }
    intros d. apply raises_only_bind.
    { apply (raises_only_weaken _ _ _ (raises_only_sleep _)).
      intros e H. right. now split. }
    intros _. apply raises_only_bind; [|intros _; apply T].
    apply (raises_only_weaken _ _ _ raises_only_do_backspace).
    intros e H. now left.
Qed.

Lemma raises_only_type_loop p args rest :
  forall typed_count,
    raises_only (run_failure env p) (type_loop env p args rest typed_count).
Proof.
  induction rest as [|c rest IH]; intros typed_count; cbn [type_loop].
  - apply raises_only_ret.
  - destruct (typed_count <? max_chars args)%Z; [|apply raises_only_ret].
    apply raises_only_bind; [apply raises_only_type_one|].
    intros _. apply IH.
Qed.

Lemma raises_only_type_text_profile sel text p args :
  raises_only (run_failure env p) (type_text_profile env sel text p args).
Proof.
  unfold type_text_profile.
  apply raises_only_bind; [intros s e; discriminate|]. intros _.
  apply raises_only_bind.
  { intros s e H. destruct (focus_returns env sel s) as [F _]. congruence. }
  intros _. apply raises_only_bind; [apply raises_only_type_loop|].
  intros _ s e. discriminate.
Qed.

(** ** The fixed delay of the default arguments *)

Lemma short_delay_range z :
  (0 <= z <= 1000)%Z -> short_delay z = true.
Proof.
  intros Hz.
  assert (A : forallb short_delay (map Z.of_nat (seq 0 1001)) = true)
    by (vm_compute; reflexivity).
  rewrite forallb_forall in A. apply A.
  apply in_map_iff. exists (Z.to_nat z). split; [lia|].
  apply in_seq. lia.
Qed.

Lemma short_delay_sleeps z s :
  short_delay z = true ->
  exists delay,
    int_to_float z = Ok delay
    /\ time_sleep env (delay / 1000) s
       = (Ok tt, emit (Sleep (delay / 1000)) s).
Proof.
  unfold short_delay, time_sleep.
  destruct (int_to_float z) as [delay|e]; [|discriminate].
  intros H. exists delay. split; [reflexivity|].
  apply andb_prop in H. destruct H as [H H4].
  apply andb_prop in H. destruct H as [H H3].
  apply andb_prop in H. destruct H as [H1 H2].
  apply negb_true_iff in H1, H2, H3.
  now rewrite H1, H2, H3, H4.
Qed.

(** With a short fixed delay, the fixed-delay profile fails as the
    superhuman one does: by its emissions only. *)
Lemma raises_only_type_loop_short args rest :
  short_delay (fixed_delay_ms args) = true ->
  forall typed_count,
    raises_only (emission_failure env)
      (type_loop env bot_obvious args rest typed_count).
Proof.
  intros Hd.
  induction rest as [|c rest IH]; intros typed_count; cbn [type_loop].
  - apply raises_only_ret.
  - destruct (typed_count <? max_chars args)%Z; [|apply raises_only_ret].
    apply raises_only_bind; [|intros _; apply IH].
    cbn [type_one].
    apply raises_only_bind; [apply raises_only_do_type_char|]. intros _.
    intros s e. unfold mbind, lift.
    destruct (short_delay_sleeps _ s Hd) as (delay & -> & ->).
    discriminate.
Qed.

End Failures.

(** X10. What a run can raise.  [type_text_profile] raises the page
    driver's error, and then a keyboard call and a fallback call both
    threw; or, outside the superhuman profile, an exception of a delay:
    the [ValueError] or [OverflowError] of [time.sleep], what the system
    makes of a long sleep, or the [OverflowError] of a delay argument too
    large for a float.  A keyboard that throws is never enough: with a
    fallback that works, a superhuman run always returns its log, and so
    does a fixed-delay run whose delay is between 0 and 1000 ms. *)
Theorem run_failures :
  forall (env : Env) (sel text : string) (p : Profile) (args : Args)
         (s : State),
    (forall e,
        fst (type_text_profile env sel text p args s) = Raise e ->
        (e = PlaywrightError
         /\ exists k n, keyboard_ok env k = false /\ evaluate_ok env n = false)
        \/ (p <> superhuman
            /\ (e = ValueError \/ e = OverflowError
                \/ exists secs, sleep_error env secs = Some e)))
    /\ ((forall n, evaluate_ok env n = true) ->
        p = superhuman
        \/ (p = bot_obvious /\ (0 <= fixed_delay_ms args <= 1000)%Z) ->
        exists lg, fst (type_text_profile env sel text p args s) = Ok lg).
Proof.
  intros env sel text p args s.
  pose proof (raises_only_type_text_profile env sel text p args s) as R.
  split; [exact R|].
  intros Hev Hp.
  destruct (fst (type_text_profile env sel text p args s)) as [lg|e] eqn:E;
    [now exists lg|exfalso].
  assert (F : emission_failure env e).
  { destruct Hp as [->|[-> Hz]].
    - destruct (R e eq_refl) as [F|[Hs _]]; [exact F|now elim Hs].
    - revert E. unfold type_text_profile.
      apply raises_only_bind; [intros s0 e0; discriminate|]. intros _.
      apply raises_only_bind.
      { intros s0 e0 H. destruct (focus_returns env sel s0) as [F _].
        congruence. }
      intros _. apply raises_only_bind.
      + apply raises_only_type_loop_short. now apply short_delay_range.
      + intros _ s0 e0. discriminate. }
  destruct F as [_ (k & n & _ & Hn)]. rewrite Hev in Hn. discriminate.
Qed.

Lemma run_failures_witness :
  ((PlaywrightError = PlaywrightError
    /\ exists k n, keyboard_ok Samples.broken k = false
                   /\ evaluate_ok Samples.broken n = false)
   \/ (superhuman <> superhuman
       /\ (PlaywrightError = ValueError \/ PlaywrightError = OverflowError
           \/ exists secs,
               sleep_error Samples.broken secs = Some PlaywrightError)))
  /\ exists lg,
       fst (type_text_profile Samples.flaky Samples.typing_input "hi"
              bot_obvious (Samples.defaults bot_obvious) initial) = Ok lg.
Proof.
  split.
  - apply (proj1 (run_failures Samples.broken Samples.typing_input "hi"
                    superhuman (Samples.defaults superhuman) initial)).
    vm_compute. reflexivity.
  - apply (proj2 (run_failures Samples.flaky Samples.typing_input "hi"
                    bot_obvious (Samples.defaults bot_obvious) initial)).
    + reflexivity.
    + right. split; [reflexivity|]. cbn. lia.
Defined.

(** ** The fallback words-per-minute figure *)

Lemma positive_is_not_zero (m : float) :
  PrimFloat.ltb 0 m = true -> PrimFloat.eqb m 0 = false.
Proof.
  rewrite ltb_spec, eqb_spec.
  change (Prim2SF 0) with (S754_zero false).
  unfold SFltb, SFeqb.
  destruct (Prim2SF m) as [sg|sg| |sg mant ex]; cbn;
    try discriminate; try reflexivity.
  all: destruct sg; try discriminate; try reflexivity.
Qed.

(** X11. [fallback_compute_wpm] never raises: on a log of fewer than two
    events it returns 0.0, and on every other log the division is guarded
    by [minutes > 0], which rules out a zero divisor. *)
Theorem fallback_compute_wpm_returns :
  forall (keystroke_log : list KeystrokeEvent) (typed_chars_count : nat),
    (exists w, fallback_compute_wpm keystroke_log typed_chars_count = Ok w)
    /\ ((length keystroke_log < 2)%nat ->
        fallback_compute_wpm keystroke_log typed_chars_count = Ok 0%float).
Proof.
  intros lg n. unfold fallback_compute_wpm.
  destruct lg as [|first rest].
  - split; [now exists 0%float|reflexivity].
  - destruct (length (first :: rest) <? 2)%nat eqn:E.
    + split; [now exists 0%float|reflexivity].
    + apply Nat.ltb_ge in E. split; [|lia].
      set (minutes := PrimFloat.div _ 60).
      destruct (PrimFloat.ltb 0 minutes) eqn:Em; [|now eexists].
      unfold FeatureExtractor.truediv.
      rewrite (positive_is_not_zero minutes Em). now eexists.
Qed.

Lemma fallback_compute_wpm_returns_witness :
  fallback_compute_wpm
    [{| key := "h"; timestamp := 0; action := keypress |}] 1
  = Ok 0%float.
Proof.
  apply (proj2 (fallback_compute_wpm_returns
                  [{| key := "h"; timestamp := 0; action := keypress |}] 1)).
  cbn. lia.
Defined.

End GeneratorRuns.

(* ================================================================== *)
(** * From the generator to the extractor                              *)
(* ================================================================== *)

Section Pipeline.

Import FeatureExtractor TypespeedBot.

Lemma stored_timestamps (lg : list KeystrokeEvent) :
  timestamps_of (map stored lg) = map JNum (map timestamp lg).
Proof.
  unfold timestamps_of. induction lg as [|e lg IH]; cbn; [reflexivity|].
  now rewrite IH.
Qed.

Lemma char_key_is_typed (c : ascii) :
  is_control_key (JStr (key_of_char c)) = false
  /\ eq_str (JStr (key_of_char c) : json float) "Backspace" = false.
Proof.
  unfold is_control_key, in_strs, eq_str, key_of_char. cbn.
  destruct (Ascii.eqb c "B"), (Ascii.eqb c "S"), (Ascii.eqb c "E");
    split; reflexivity.
Qed.

Lemma stored_counts_app (a b : list KeystrokeEvent) :
  chars_typed_of (keys_of (map stored (a ++ b)))
  = (chars_typed_of (keys_of (map stored a))
     + chars_typed_of (keys_of (map stored b)))%nat
  /\ backspaces_of (keys_of (map stored (a ++ b)))
     = (backspaces_of (keys_of (map stored a))
        + backspaces_of (keys_of (map stored b)))%nat.
Proof.
  unfold chars_typed_of, backspaces_of, keys_of.
  now rewrite !map_app, !filter_app, !length_app.
Qed.

Lemma round_stored_counts p c more evs :
  round_of p c more evs ->
  chars_typed_of (keys_of (map stored evs)) = length (filter is_keypress evs)
  /\ backspaces_of (keys_of (map stored evs))
     = length (filter is_backspace evs).
Proof.
  intros [[t ->]|(_ & _ & w & t1 & t2 & t3 & ->)].
  - destruct (char_key_is_typed c) as [H1 H2].
    unfold chars_typed_of, backspaces_of, keys_of. cbn [map stored key action
      j_key filter]. fold (is_control_key (JStr (key_of_char c))).
    fold (key_of_char c). unfold is_control_key in H1.
    rewrite H1, H2. split; reflexivity.
  - destruct (char_key_is_typed c) as [H1 H2].
    destruct (char_key_is_typed w) as [H3 H4].
    unfold chars_typed_of, backspaces_of, keys_of. cbn [map stored key action
      j_key filter]. fold (key_of_char c). fold (key_of_char w).
    unfold is_control_key in H1, H3.
    rewrite H1, H2, H3, H4. split; reflexivity.
Qed.

Lemma rounds_stored_counts p rs evs :
  rounds p rs evs ->
  chars_typed_of (keys_of (map stored evs)) = length (filter is_keypress evs)
  /\ backspaces_of (keys_of (map stored evs))
     = length (filter is_backspace evs).
Proof.
  induction 1 as [|c more rs evs1 evs2 R1 _ (IH1 & IH2)].
  - split; reflexivity.
  - destruct (stored_counts_app evs1 evs2) as [A1 A2].
    destruct (round_stored_counts _ _ _ _ R1) as [B1 B2].
    rewrite A1, A2, B1, B2, IH1, IH2, !filter_app, !length_app. auto.
Qed.

Lemma keypress_or_backspace (lg : list KeystrokeEvent) :
  (length (filter is_keypress lg) + length (filter is_backspace lg)
   = length lg)%nat.
Proof.
  induction lg as [|e lg IH]; [reflexivity|].
  cbn [filter]. unfold is_keypress at 1, is_backspace at 1.
  destruct (action e); cbn [length]; lia.
Qed.

Lemma run_iteration_from_page_rounds env sel isspace isalpha args idx found
      obs s :
  returns (Iteration.run_iteration_from_page env sel isspace isalpha args
             idx found obs) s
    (fun r _ =>
       match r with
       | Some (meta, lg) =>
           (exists text,
               rounds (mode args)
                 (loop_rounds args (list_ascii_of_string text) 0) lg)
           /\ keystrokes_count meta = length lg
           /\ profile meta = mode args
       | None => True
       end).
Proof.
  unfold Iteration.run_iteration_from_page.
  destruct found as [raw|e]; [|exact I].
  destruct (String.length raw =? 0)%nat; [exact I|]. cbv zeta.
  apply (returns_seq _ _ _ _ _
           (type_text_profile_typed env sel _ _ args s)).
  intros lg s1 (R & _).
  apply (returns_seq _ _ _ (fun _ _ => True)).
  { unfold returns. now destruct (time_sleep env 1 s1) as [[x|e] s2]. }
  intros _ s2 _.
  apply (returns_seq _ _ _ (fun _ _ => True)).
  { unfold returns. now destruct (lift _ s2) as [[x|e] s3]. }
  intros wpm s3 _. apply returns_ret. cbn. eauto.
Qed.

(** X12. The record of a completed run, stored and read back: its
    timestamps are numbers, so that the extractor computes its intervals,
    the consecutive differences of the logged timestamps; and a row
    extracted from it counts the keypress events as typed characters (the
    wrong keys of the typos included) and the backspace events as
    backspaces, the two counts adding up to [keystrokes_count], under the
    profile of the run. *)
Theorem stored_run_is_extractable :
  forall (lib : Statistics) (env : Env) (sel : string)
         (isspace isalpha : ascii -> bool) (args : Args) (idx : Z)
         (found : result string) (obs : Observed) (s : State)
         (meta : RunMeta) (lg : list KeystrokeEvent),
    fst (Iteration.run_iteration_from_page env sel isspace isalpha args idx
           found obs s) = Ok (Some (meta, lg)) ->
    ikis_of (entries_of (stored_record (meta, lg)))
    = Ok (gaps (map timestamp lg))
    /\ (forall r,
           extract lib (stored_record (meta, lg)) = Ok r ->
           r_chars_typed r = length (filter is_keypress lg)
           /\ r_backspace_count r = length (filter is_backspace lg)
           /\ (r_chars_typed r + r_backspace_count r)%nat
              = keystrokes_count meta
           /\ r_profile r = JStr (profile_name (mode args))).
Proof.
  intros lib env sel isspace isalpha args idx found obs s meta lg Hrun.
  pose proof (run_iteration_from_page_rounds env sel isspace isalpha args
                idx found obs s) as H.
  unfold returns in H.
  destruct (Iteration.run_iteration_from_page env sel isspace isalpha args
              idx found obs s) as [r s'].
  cbn in Hrun. subst r. destruct H as ((text & R) & Hn & Hp).
  assert (Ht : timestamps_of (entries_of (stored_record (meta, lg)))
               = map JNum (map timestamp lg)) by apply stored_timestamps.
  split.
  - unfold ikis_of. rewrite Ht. apply intervals_of_numbers.
  - intros r Hr.
    destruct (extract_inversion lib _ r Hr)
      as (ikis & dur & wpm & _ & _ & _ & Hc & Hb & _).
    destruct (rounds_stored_counts _ _ _ R) as [C1 C2].
    change (entries_of (stored_record (meta, lg))) with (map stored lg)
      in Hc, Hb.
    rewrite Hc, Hb, C1, C2, Hn. repeat split.
    + apply keypress_or_backspace.
    + unfold extract in Hr.
      destruct (inter_key_intervals _) as [i|]; [|discriminate].
      destruct (duration_s_of _) as [du|]; [|discriminate].
      cbn [bind] in Hr.
      destruct (computed_wpm_of _ du) as [w|]; [|discriminate].
      cbn [bind] in Hr. injection Hr as <-. cbn. now rewrite Hp.
Qed.

Lemma stored_run_is_extractable_witness :
  ikis_of (entries_of (stored_record (Samples.typo_meta, Samples.typo_log)))
  = Ok (gaps (map timestamp Samples.typo_log))
  /\ exists r,
       extract Samples.naive_statistics
         (stored_record (Samples.typo_meta, Samples.typo_log)) = Ok r
       /\ r_chars_typed r = 3%nat /\ r_backspace_count r = 1%nat.
Proof.
  assert (Hrun : fst (Iteration.run_iteration_from_page Samples.working
                        Samples.typing_input TargetText.ascii_isspace
                        TargetText.ascii_isalpha
                        (Samples.defaults human_like) 1 (Ok "ab"%string)
                        Samples.no_panel initial)
                 = Ok (Some (Samples.typo_meta, Samples.typo_log)))
    by (vm_compute; reflexivity).
  destruct (stored_run_is_extractable Samples.naive_statistics _ _ _ _ _ _ _
              _ _ _ _ Hrun) as (H1 & H3).
  split; [exact H1|].
  eexists. split; [vm_compute; reflexivity|].
  split; apply (H3 _ eq_refl).
Defined.

End Pipeline.

(* ================================================================== *)
(** * Properties of the cleaning of the target text                    *)
(* ================================================================== *)

Section CleaningFacts.

Import TargetText.

Variable isspace : ascii -> bool.
Variable isalpha : ascii -> bool.

(** What the cleaning relies on: the four characters it replaces or
    inserts are whitespace for [re] and [str.strip]. *)
Hypothesis space_is_space : isspace space = true.
Hypothesis nbsp_is_space : isspace nbsp = true.
Hypothesis newline_is_space : isspace newline = true.
Hypothesis return_is_space : isspace carriage_return = true.

Local Abbreviation letters := (letters isspace).
Local Abbreviation lstrip := (lstrip isspace).
Local Abbreviation rstrip := (rstrip isspace).
Local Abbreviation strip := (strip isspace).
Local Abbreviation sub_spaces_from := (sub_spaces_from isspace).
Local Abbreviation sub_spaces := (sub_spaces isspace).
Local Abbreviation merge_letters := (merge_letters isalpha).
Local Abbreviation take_letters := (take_letters isalpha).
Local Abbreviation drop_letters := (drop_letters isalpha).
Local Abbreviation is_single_letter := (is_single_letter isalpha).
Local Abbreviation clean := (clean isspace isalpha).
Local Abbreviation tidy_from := (tidy_from isspace).
Local Abbreviation tidy := (tidy isspace).
Local Abbreviation normalised := (normalised isspace).

(** ** The letters survive every step *)

Lemma letters_replace old new t :
  isspace old = true -> isspace new = true ->
  letters (replace old new t) = letters t.
Proof.
  intros Ho Hn. unfold TargetText.letters, replace.
  induction t as [|c t IH]; cbn [map filter]; [reflexivity|].
  destruct (Ascii.eqb c old) eqn:E.
  - apply Ascii.eqb_eq in E. subst c. rewrite Hn, Ho. exact IH.
  - destruct (isspace c); cbn [negb]; now rewrite IH.
Qed.

Lemma letters_sub_spaces t :
  forall in_run, letters (sub_spaces_from in_run t) = letters t.
Proof.
  unfold TargetText.letters.
  induction t as [|c t IH]; intros in_run; cbn [TargetText.sub_spaces_from filter];
    [reflexivity|].
  destruct (isspace c) eqn:E; cbn [negb].
  - destruct in_run; [apply IH|].
    cbn [filter]. rewrite space_is_space. cbn [negb]. apply IH.
  - cbn [filter]. rewrite E. cbn [negb]. now rewrite IH.
Qed.

Lemma letters_lstrip t : letters (lstrip t) = letters t.
Proof.
  unfold TargetText.letters.
  induction t as [|c t IH]; cbn [TargetText.lstrip filter]; [reflexivity|].
  destruct (isspace c) eqn:E; cbn [negb]; [exact IH|].
  cbn [filter]. now rewrite E.
Qed.

Lemma letters_rev t : letters (rev t) = rev (letters t).
Proof. apply filter_rev. Qed.

Lemma letters_strip t : letters (strip t) = letters t.
Proof.
  unfold TargetText.strip, TargetText.rstrip.
  now rewrite letters_rev, letters_lstrip, letters_rev, rev_involutive,
    letters_lstrip.
Qed.

Lemma split_nonempty t : exists tok toks, split t = tok :: toks.
Proof.
  induction t as [|c t (tok & toks & IH)]; cbn [split]; [now eexists; eexists|].
  destruct (Ascii.eqb c space); [now eexists; eexists|].
  rewrite IH. now eexists; eexists.
Qed.

Lemma letters_split t : letters (concat (split t)) = letters t.
Proof.
  unfold TargetText.letters.
  induction t as [|c t IH]; cbn [split]; [reflexivity|].
  destruct (Ascii.eqb c space) eqn:E.
  - apply Ascii.eqb_eq in E. subst c. cbn [concat app filter].
    rewrite space_is_space. exact IH.
  - destruct (split_nonempty t) as (tok & toks & S). rewrite S in IH |- *.
    cbn [concat app filter] in IH |- *. now rewrite IH.
Qed.

Lemma take_drop_letters toks : take_letters toks ++ drop_letters toks = toks.
Proof.
  induction toks as [|tok rest IH]; cbn; [reflexivity|].
  destruct (is_single_letter tok); cbn; [now rewrite IH|reflexivity].
Qed.

Lemma merge_letters_single tok rest :
  is_single_letter tok = true ->
  merge_letters (tok :: rest)
  = (if (2 <=? length (tok :: take_letters rest))%nat
     then concat (tok :: take_letters rest)
     else tok)
    :: merge_letters (drop_letters rest).
Proof. intros H. simp merge_letters. now rewrite H. Qed.

Lemma merge_letters_other tok rest :
  is_single_letter tok = false ->
  merge_letters (tok :: rest) = tok :: merge_letters rest.
Proof. intros H. simp merge_letters. now rewrite H. Qed.

Lemma concat_merge_letters toks : concat (merge_letters toks) = concat toks.
Proof.
  funelim (merge_letters toks).
  - reflexivity.
  - cbn [concat]. rewrite H.
    pose proof (take_drop_letters rest) as TD.
    set (tk := take_letters rest) in *. set (dr := drop_letters rest) in *.
    clearbody tk dr. subst rest. clear.
    destruct tk as [|t2 run]; [reflexivity|].
    cbn [length Nat.leb concat app]. rewrite concat_app.
    now rewrite <- !app_assoc.
  - cbn [concat]. now rewrite H.
Qed.

Lemma letters_join toks : letters (join toks) = letters (concat toks).
Proof.
  unfold TargetText.letters.
  induction toks as [|tok rest IH]; [reflexivity|].
  destruct rest as [|tok2 rest].
  - cbn [join concat]. now rewrite app_nil_r.
  - change (join (tok :: tok2 :: rest))
      with (tok ++ space :: join (tok2 :: rest)).
    cbn [concat] in *. rewrite !filter_app. cbn [filter].
    rewrite space_is_space. cbn [negb]. now rewrite IH, filter_app.
Qed.

Lemma letters_clean t : letters (clean t) = letters t.
Proof.
  unfold TargetText.clean.
  rewrite letters_strip, letters_join, concat_merge_letters, letters_split,
    letters_strip.
  unfold TargetText.sub_spaces. rewrite letters_sub_spaces.
  now rewrite !letters_replace.
Qed.

Local Abbreviation loose_from := (loose_from isspace).
Local Abbreviation no_space := (no_space isspace).
Local Abbreviation word := (word isspace).
Local Abbreviation calm := (calm isalpha).

(** ** Whitespace after [re.sub] and [strip] *)

Lemma tidy_is_loose t : forall b, tidy_from b t = true -> loose_from b t = true.
Proof.
  induction t as [|c t IH]; intros b; cbn; [reflexivity|].
  destruct (isspace c); [|apply IH].
  intros H. apply andb_prop in H. destruct H as [H1 H2].
  rewrite H1. cbn. now apply IH.
Qed.

Lemma loose_sub_spaces t :
  forall b, loose_from b (sub_spaces_from b t) = true.
Proof.
  induction t as [|c t IH]; intros b; cbn [TargetText.sub_spaces_from];
    [reflexivity|].
  destruct (isspace c) eqn:E.
  - destruct b; [apply IH|].
    cbn [TargetText.loose_from]. rewrite space_is_space, Ascii.eqb_refl.
    cbn. apply IH.
  - cbn [TargetText.loose_from]. rewrite E. apply IH.
Qed.

Lemma loose_head_letter c t b :
  isspace c = false -> loose_from b (c :: t) = loose_from true (c :: t).
Proof. intros E. cbn. now rewrite E. Qed.

Lemma loose_lstrip t :
  forall b, loose_from b t = true -> loose_from true (lstrip t) = true.
Proof.
  induction t as [|c t IH]; intros b H; [reflexivity|].
  cbn [TargetText.lstrip]. destruct (isspace c) eqn:E.
  - cbn [TargetText.loose_from] in H. rewrite E in H.
    apply andb_prop in H. destruct H as [_ H]. now apply (IH true).
  - now rewrite <- (loose_head_letter c t b E).
Qed.

Lemma lstrip_snoc l c :
  lstrip (l ++ [c])
  = match lstrip l with
    | [] => if isspace c then [] else [c]
    | r => r ++ [c]
    end.
Proof.
  induction l as [|a l IH]; cbn [app TargetText.lstrip]; [reflexivity|].
  destruct (isspace a); [exact IH|reflexivity].
Qed.

Lemma rstrip_cons c t :
  rstrip (c :: t)
  = match rstrip t with
    | [] => if isspace c then [] else [c]
    | _ => c :: rstrip t
    end.
Proof.
  unfold TargetText.rstrip. cbn [rev]. rewrite lstrip_snoc.
  destruct (lstrip (rev t)) as [|a r]; cbn [rev].
  - now destruct (isspace c).
  - rewrite rev_app_distr. cbn [rev app].
    destruct (rev r ++ [a]) eqn:E; [|reflexivity].
    now destruct (rev r).
Qed.

Lemma tidy_rstrip t :
  forall b, loose_from b t = true -> rstrip t <> [] ->
            tidy_from b (rstrip t) = true.
Proof.
  induction t as [|c t IH]; intros b H Hne; [now elim Hne|].
  rewrite rstrip_cons in Hne |- *.
  cbn [TargetText.loose_from] in H.
  destruct (rstrip t) as [|a r] eqn:E.
  - destruct (isspace c) eqn:Ec; [now elim Hne|].
    cbn. now rewrite Ec.
  - cbn [TargetText.tidy_from]. destruct (isspace c) eqn:Ec.
    + apply andb_prop in H. destruct H as [H1 H2]. rewrite H1. cbn [andb].
      apply IH; [exact H2|discriminate].
    + apply IH; [exact H|discriminate].
Qed.

Lemma tidy_strip t b : loose_from b t = true -> tidy (strip t) = true.
Proof.
  intros H. unfold TargetText.strip.
  pose proof (loose_lstrip t b H) as L.
  destruct (rstrip (lstrip t)) as [|a r] eqn:E; [reflexivity|].
  unfold TargetText.tidy. rewrite <- E.
  apply tidy_rstrip; [exact L|]. rewrite E. discriminate.
Qed.

Lemma rstrip_tidy t : forall b, tidy_from b t = true -> rstrip t = t.
Proof.
  induction t as [|c t IH]; intros b H; [reflexivity|].
  rewrite rstrip_cons. cbn [TargetText.tidy_from] in H.
  destruct (isspace c) eqn:Ec.
  - apply andb_prop in H. destruct H as [_ H].
    rewrite (IH true H). destruct t; [discriminate|reflexivity].
  - rewrite (IH false H). now destruct t.
Qed.

Lemma strip_tidy t : tidy t = true -> strip t = t.
Proof.
  unfold TargetText.tidy, TargetText.strip. destruct t as [|c t]; [reflexivity|].
  intros H.
  assert (L : lstrip (c :: t) = c :: t).
  { cbn in H |- *. destruct (isspace c); [|reflexivity].
    rewrite andb_false_r in H. discriminate. }
  rewrite L. exact (rstrip_tidy _ _ H).
Qed.

Lemma sub_spaces_loose t :
  forall b, loose_from b t = true -> sub_spaces_from b t = t.
Proof.
  induction t as [|c t IH]; intros b H; [reflexivity|].
  cbn [TargetText.loose_from] in H. cbn [TargetText.sub_spaces_from].
  destruct (isspace c) eqn:Ec.
  - apply andb_prop in H. destruct H as [H1 H2].
    apply andb_prop in H1. destruct H1 as [H0 H1].
    apply Ascii.eqb_eq in H0. subst c.
    destruct b; [discriminate|]. now rewrite (IH true H2).
  - now rewrite (IH false H).
Qed.

Lemma replace_tidy x t :
  isspace x = true -> x <> space ->
  forall b, loose_from b t = true -> replace x space t = t.
Proof.
  intros Hx Hne. unfold replace.
  induction t as [|c t IH]; intros b H; [reflexivity|].
  cbn [TargetText.loose_from] in H. cbn [map].
  destruct (Ascii.eqb c x) eqn:E.
  - apply Ascii.eqb_eq in E. subst c. rewrite Hx in H.
    apply andb_prop in H. destruct H as [H1 _].
    apply andb_prop in H1. destruct H1 as [H0 _].
    apply Ascii.eqb_eq in H0. contradiction.
  - destruct (isspace c).
    + apply andb_prop in H. destruct H as [_ H]. now rewrite (IH true H).
    + now rewrite (IH false H).
Qed.

(** ** Tokens *)

Lemma join_cons tok tok2 rest :
  join (tok :: tok2 :: rest) = tok ++ space :: join (tok2 :: rest).
Proof. reflexivity. Qed.

Lemma no_space_has_no_space c tok :
  no_space (c :: tok) = true -> Ascii.eqb c space = false.
Proof.
  unfold TargetText.no_space. cbn [forallb]. intros H.
  apply andb_prop in H. destruct H as [H _].
  destruct (Ascii.eqb c space) eqn:E; [|reflexivity].
  apply Ascii.eqb_eq in E. subst c. rewrite space_is_space in H. discriminate.
Qed.

Lemma split_word tok : no_space tok = true -> split tok = [tok].
Proof.
  induction tok as [|c tok IH]; intros H; [reflexivity|].
  cbn [split]. rewrite (no_space_has_no_space c tok H).
  unfold TargetText.no_space in H. cbn [forallb] in H.
  apply andb_prop in H. destruct H as [_ H]. now rewrite (IH H).
Qed.

Lemma split_word_then tok r :
  no_space tok = true -> split (tok ++ space :: r) = tok :: split r.
Proof.
  induction tok as [|c tok IH]; intros H.
  - cbn [app split]. now rewrite Ascii.eqb_refl.
  - cbn [app split]. rewrite (no_space_has_no_space c tok H).
    unfold TargetText.no_space in H. cbn [forallb] in H.
    apply andb_prop in H. destruct H as [_ H]. now rewrite (IH H).
Qed.

Lemma word_no_space tok : word tok = true -> no_space tok = true.
Proof. unfold TargetText.word. intros H. now apply andb_prop in H. Qed.

Lemma split_join toks :
  forallb word toks = true -> toks <> [] -> split (join toks) = toks.
Proof.
  induction toks as [|tok rest IH]; intros H Hne; [now elim Hne|].
  cbn [forallb] in H. apply andb_prop in H. destruct H as [Hw Hr].
  destruct rest as [|tok2 rest].
  - cbn [join]. apply split_word. now apply word_no_space.
  - rewrite join_cons, split_word_then by now apply word_no_space.
    rewrite IH; [reflexivity|exact Hr|discriminate].
Qed.

Lemma split_tidy t :
  forall b,
    tidy_from b t = true ->
    exists tok toks,
      split t = tok :: toks
      /\ no_space tok = true /\ forallb word toks = true
      /\ (b = true -> tok <> []).
Proof.
  induction t as [|c t IH]; intros b H.
  - exists [], []. cbn in H |- *. destruct b; [discriminate|].
    repeat split; try reflexivity. discriminate.
  - cbn [TargetText.tidy_from] in H. cbn [split].
    destruct (isspace c) eqn:Ec.
    + apply andb_prop in H. destruct H as [H1 H2].
      apply andb_prop in H1. destruct H1 as [H0 H1]. rewrite H0.
      destruct (IH true H2) as (tok & toks & S & N & W & Hne). rewrite S.
      exists [], (tok :: toks). repeat split; auto.
      * cbn [forallb]. rewrite W. unfold TargetText.word. rewrite N.
        destruct tok; [now elim (Hne eq_refl)|reflexivity].
      * intros ->. discriminate.
    + destruct (IH false H) as (tok & toks & S & N & W & _). rewrite S.
      assert (Es : Ascii.eqb c space = false).
      { destruct (Ascii.eqb c space) eqn:E; [|reflexivity].
        apply Ascii.eqb_eq in E. subst c. congruence. }
      rewrite Es. exists (c :: tok), toks. repeat split; auto.
      * unfold TargetText.no_space in *. cbn [forallb]. now rewrite Ec, N.
      * discriminate.
Qed.

Lemma tidy_word_then tok r :
  no_space tok = true -> tok <> [] ->
  forall b, tidy_from b (tok ++ r) = tidy_from false r.
Proof.
  induction tok as [|c tok IH]; intros H Hne b; [now elim Hne|].
  unfold TargetText.no_space in H. cbn [forallb] in H.
  apply andb_prop in H. destruct H as [Hc H].
  cbn [app TargetText.tidy_from].
  destruct (isspace c); [discriminate|].
  destruct tok as [|c2 tok]; [reflexivity|].
  apply IH; [exact H|discriminate].
Qed.

Lemma word_parts tok :
  word tok = true -> no_space tok = true /\ tok <> [].
Proof.
  unfold TargetText.word. intros H. apply andb_prop in H.
  destruct H as [H1 H2]. split; [exact H2|]. now destruct tok.
Qed.

Lemma tidy_join toks :
  forallb word toks = true -> toks <> [] -> tidy_from true (join toks) = true.
Proof.
  induction toks as [|tok rest IH]; intros H Hne; [now elim Hne|].
  cbn [forallb] in H. apply andb_prop in H. destruct H as [Hw Hr].
  destruct (word_parts tok Hw) as [N T].
  destruct rest as [|tok2 rest].
  - cbn [join]. rewrite <- (app_nil_r tok).
    now rewrite (tidy_word_then tok [] N T).
  - rewrite join_cons, (tidy_word_then tok _ N T).
    cbn [TargetText.tidy_from]. rewrite space_is_space, Ascii.eqb_refl.
    cbn [negb andb]. apply IH; [exact Hr|discriminate].
Qed.

(** ** The merging of single letters *)

Lemma take_letters_single toks :
  forallb is_single_letter (take_letters toks) = true.
Proof.
  induction toks as [|tok rest IH]; cbn; [reflexivity|].
  destruct (is_single_letter tok) eqn:E; cbn; [now rewrite E|reflexivity].
Qed.

Lemma concat_singles run :
  forallb is_single_letter run = true -> length (concat run) = length run.
Proof.
  induction run as [|tok run IH]; intros H; [reflexivity|].
  cbn [forallb] in H. apply andb_prop in H. destruct H as [Ht Hr].
  cbn [concat]. rewrite length_app, (IH Hr).
  destruct tok as [|c [|c2 tok]]; cbn in Ht; try discriminate. reflexivity.
Qed.

Lemma words_concat run :
  forallb word run = true -> no_space (concat run) = true.
Proof.
  induction run as [|tok run IH]; intros H; [reflexivity|].
  cbn [forallb] in H. apply andb_prop in H. destruct H as [Ht Hr].
  pose proof (proj1 (word_parts tok Ht)) as N. pose proof (IH Hr) as C.
  cbn [concat]. unfold TargetText.no_space in *.
  now rewrite forallb_app, N, C.
Qed.

Lemma forallb_take_drop (f : list ascii -> bool) toks :
  forallb f toks = true ->
  forallb f (take_letters toks) = true /\ forallb f (drop_letters toks) = true.
Proof.
  intros H. rewrite <- (take_drop_letters toks), forallb_app in H.
  now apply andb_prop in H.
Qed.

Lemma merge_words toks :
  forallb word toks = true -> forallb word (merge_letters toks) = true.
Proof.
  funelim (merge_letters toks); intros Hw.
  - reflexivity.
  - cbn [forallb] in Hw |- *. apply andb_prop in Hw. destruct Hw as [Ht Hr].
    destruct (forallb_take_drop word rest Hr) as [Hk Hd].
    rewrite (H Hd), andb_true_r.
    destruct (2 <=? length (tok :: take_letters rest))%nat; [|exact Ht].
    destruct (word_parts tok Ht) as [N T].
    unfold TargetText.word. cbn [concat].
    assert (Hc : no_space (tok ++ concat (take_letters rest)) = true).
    { pose proof (words_concat _ Hk) as C.
      unfold TargetText.no_space in *. now rewrite forallb_app, N, C. }
    rewrite Hc. destruct tok; [now elim T|reflexivity].
  - cbn [forallb] in Hw |- *. apply andb_prop in Hw. destruct Hw as [Ht Hr].
    now rewrite Ht, (H Hr).
Qed.

Lemma merge_nonempty toks : toks <> [] -> merge_letters toks <> [].
Proof.
  destruct toks as [|tok rest]; [congruence|]. intros _.
  destruct (is_single_letter tok) eqn:E.
  - rewrite (merge_letters_single tok rest E). discriminate.
  - rewrite (merge_letters_other tok rest E). discriminate.
Qed.

Lemma take_nothing b rest :
  is_single_letter b = false ->
  take_letters (b :: rest) = [] /\ drop_letters (b :: rest) = b :: rest.
Proof. intros H. cbn. now rewrite H. Qed.

Lemma calm_cons a b l :
  calm (a :: b :: l)
  = negb (is_single_letter a && is_single_letter b) && calm (b :: l).
Proof. reflexivity. Qed.

Lemma calm_merge toks : calm (merge_letters toks) = true.
Proof.
  funelim (merge_letters toks).
  - reflexivity.
  - destruct (take_letters rest) as [|t2 run] eqn:Et.
    + cbn [length Nat.leb].
      pose proof (take_drop_letters rest) as TD. rewrite Et in TD.
      cbn [app] in TD. rewrite TD in H |- *.
      destruct rest as [|b rest']; [now simp merge_letters|].
      assert (Eb : is_single_letter b = false).
      { cbn in Et. destruct (is_single_letter b); [discriminate|reflexivity]. }
      rewrite (merge_letters_other b rest' Eb) in H |- *.
      now rewrite calm_cons, Eb, andb_false_r, H.
    + cbn [length Nat.leb].
      assert (Hx : is_single_letter (concat (tok :: t2 :: run)) = false).
      { pose proof (take_letters_single rest) as Hs. rewrite Et in Hs.
        assert (Hall : forallb is_single_letter (tok :: t2 :: run) = true)
          by (cbn [forallb] in Hs |- *; now rewrite Heq, Hs).
        pose proof (concat_singles _ Hall) as Hl.
        destruct (concat (tok :: t2 :: run)) as [|c [|c2 r]];
          cbn in Hl; try discriminate; reflexivity. }
      destruct (merge_letters (drop_letters rest)) as [|m ms] eqn:Em;
        [reflexivity|].
      now rewrite calm_cons, Hx, H.
  - destruct (merge_letters rest) as [|m ms] eqn:Em; [reflexivity|].
    now rewrite calm_cons, Heq, H.
Qed.

Lemma merge_calm toks : calm toks = true -> merge_letters toks = toks.
Proof.
  funelim (merge_letters toks); intros Hc.
  - reflexivity.
  - destruct rest as [|b rest']; [now simp merge_letters|].
    rewrite calm_cons in Hc. apply andb_prop in Hc.
    destruct Hc as [Hb Hc]. rewrite Heq in Hb. cbn [andb] in Hb.
    apply negb_true_iff in Hb.
    destruct (take_nothing b rest' Hb) as [Et Ed].
    rewrite Et, Ed in *. cbn [length Nat.leb]. now rewrite (H Hc).
  - f_equal. apply H. destruct rest as [|b rest']; [reflexivity|].
    rewrite calm_cons in Hc. apply andb_prop in Hc. tauto.
Qed.

(** ** The cleaning as a whole *)

Lemma clean_unfold t :
  clean t = strip (join (merge_letters (split (normalised t)))).
Proof. reflexivity. Qed.

Lemma tidy_normalised t : tidy (normalised t) = true.
Proof.
  unfold normalised. apply (tidy_strip _ false).
  apply loose_sub_spaces.
Qed.

(** Past the first line, the tokens are words, unless the text is empty. *)
Lemma clean_cases t :
  (normalised t = [] /\ clean t = [])
  \/ (exists toks,
         toks <> [] /\ forallb word toks = true
         /\ split (normalised t) = toks
         /\ clean t = join (merge_letters toks)
         /\ tidy (clean t) = true).
Proof.
  rewrite clean_unfold. pose proof (tidy_normalised t) as T.
  destruct (normalised t) as [|c u] eqn:E.
  - left. split; [reflexivity|]. cbn [split]. simp merge_letters.
    cbn. reflexivity.
  - right. unfold TargetText.tidy in T.
    destruct (split_tidy (c :: u) true T) as (tok & toks & S & N & W & Hne).
    exists (tok :: toks).
    assert (Hw : forallb word (tok :: toks) = true).
    { cbn [forallb]. rewrite W. unfold TargetText.word. rewrite N.
      destruct tok; [now elim (Hne eq_refl)|reflexivity]. }
    assert (Hm : forallb word (merge_letters (tok :: toks)) = true)
      by now apply merge_words.
    assert (Hn : merge_letters (tok :: toks) <> [])
      by (apply merge_nonempty; discriminate).
    assert (Ht : tidy (join (merge_letters (tok :: toks))) = true).
    { pose proof (tidy_join _ Hm Hn) as J. unfold TargetText.tidy.
      now destruct (join (merge_letters (tok :: toks))). }
    rewrite S, (strip_tidy _ Ht).
    repeat split; auto. discriminate.
Qed.

Lemma loose_weaken t : loose_from true t = true -> loose_from false t = true.
Proof.
  destruct t as [|c t]; [reflexivity|]. cbn.
  destruct (isspace c); [|trivial].
  rewrite andb_false_r. discriminate.
Qed.

Lemma normalised_tidy r : tidy r = true -> normalised r = r.
Proof.
  intros T.
  assert (L : loose_from false r = true).
  { destruct r as [|c r]; [reflexivity|].
    apply loose_weaken, tidy_is_loose. exact T. }
  unfold TargetText.normalised, TargetText.sub_spaces.
  rewrite (replace_tidy nbsp r nbsp_is_space) with (b := false);
    [|discriminate|exact L].
  rewrite (replace_tidy newline r newline_is_space) with (b := false);
    [|discriminate|exact L].
  rewrite (replace_tidy carriage_return r return_is_space) with (b := false);
    [|discriminate|exact L].
  rewrite (sub_spaces_loose r false L). now apply strip_tidy.
Qed.

Lemma clean_twice t : clean (clean t) = clean t.
Proof.
  destruct (clean_cases t) as [[_ E]|(toks & Hne & Hw & S & E & T)].
  - rewrite E. rewrite clean_unfold. cbn. simp merge_letters. reflexivity.
  - rewrite clean_unfold, (normalised_tidy _ T), E.
    rewrite split_join;
      [|now apply merge_words|now apply merge_nonempty].
    rewrite (merge_calm _ (calm_merge toks)), <- E. now apply strip_tidy.
Qed.

Lemma tidy_without_letters r :
  tidy r = true -> letters r = [] -> r = [].
Proof.
  destruct r as [|c r]; [reflexivity|].
  unfold TargetText.tidy, TargetText.letters. cbn.
  destruct (isspace c); cbn; [rewrite andb_false_r|]; discriminate.
Qed.

Lemma letters_of_spaces t :
  letters t = [] <-> forallb isspace t = true.
Proof.
  unfold TargetText.letters. induction t as [|c t IH]; cbn; [tauto|].
  destruct (isspace c); cbn; [exact IH|]. split; discriminate.
Qed.

Lemma tidy_clean t : tidy (clean t) = true.
Proof.
  destruct (clean_cases t) as [[_ E]|(toks & _ & _ & _ & _ & T)].
  - now rewrite E.
  - exact T.
Qed.

Lemma clean_of_spaces t : clean t = [] <-> forallb isspace t = true.
Proof.
  rewrite <- letters_of_spaces, <- letters_clean. split.
  - now intros ->.
  - apply tidy_without_letters, tidy_clean.
Qed.

(** X14. The cleaning changes whitespace only: the characters of the page
    text that are not whitespace are the characters of the cleaned text
    that are not whitespace, in the same order. *)
Theorem cleaning_keeps_the_letters :
  forall t : list ascii, letters (clean t) = letters t.
Proof. exact letters_clean. Qed.

(** X15. The cleaned text has no whitespace but single spaces between
    words: none at either end, no character of whitespace other than the
    space, and no two spaces in a row. *)
Theorem cleaned_text_is_tidy :
  forall t : list ascii, tidy (clean t) = true.
Proof. exact tidy_clean. Qed.

(** X16. Cleaning a cleaned text changes nothing. *)
Theorem cleaning_is_idempotent :
  forall t : list ascii, clean (clean t) = clean t.
Proof. exact clean_twice. Qed.

(** X17. The cleaned text is empty exactly when the page text holds
    nothing but whitespace. *)
Theorem cleaned_text_is_empty_for_whitespace_only :
  forall t : list ascii, clean t = [] <-> forallb isspace t = true.
Proof. exact clean_of_spaces. Qed.

End CleaningFacts.

Lemma cleaning_keeps_the_letters_witness :
  TargetText.letters TargetText.ascii_isspace
    (TargetText.clean TargetText.ascii_isspace TargetText.ascii_isalpha
       TargetText.sample_page)
  = TargetText.letters TargetText.ascii_isspace TargetText.sample_page.
Proof.
  apply (cleaning_keeps_the_letters TargetText.ascii_isspace
           TargetText.ascii_isalpha); reflexivity.
Defined.

Lemma cleaned_text_is_tidy_witness :
  TargetText.tidy TargetText.ascii_isspace
    (TargetText.clean TargetText.ascii_isspace TargetText.ascii_isalpha
       TargetText.sample_page) = true.
Proof.
  apply (cleaned_text_is_tidy TargetText.ascii_isspace
           TargetText.ascii_isalpha); reflexivity.
Defined.

Lemma cleaning_is_idempotent_witness :
  TargetText.clean TargetText.ascii_isspace TargetText.ascii_isalpha
    (TargetText.clean TargetText.ascii_isspace TargetText.ascii_isalpha
       TargetText.sample_page)
  = TargetText.clean TargetText.ascii_isspace TargetText.ascii_isalpha
      TargetText.sample_page.
Proof.
  apply (cleaning_is_idempotent TargetText.ascii_isspace
           TargetText.ascii_isalpha); reflexivity.
Defined.

Lemma cleaned_text_is_empty_for_whitespace_only_witness :
  TargetText.clean TargetText.ascii_isspace TargetText.ascii_isalpha
    (list_ascii_of_string "   ") = [].
Proof.
  apply (cleaned_text_is_empty_for_whitespace_only TargetText.ascii_isspace
           TargetText.ascii_isalpha); reflexivity.
Defined.

(* ================================================================== *)
(** * The pauses of the generator                                      *)
(* ================================================================== *)

Section Cadence.

Import TypespeedBot.

Lemma advanced_trans s s1 s2 e1 e2 d1 d2 :
  advanced s s1 e1 d1 -> advanced s1 s2 e2 d2 ->
  advanced s s2 (e1 ++ e2) (d1 ++ d2).
Proof.
  intros (L1 & T1) (L2 & T2). unfold advanced.
  rewrite L2, L1, T2, T1, !app_assoc. now split.
Qed.

Lemma advanced_after s s1 s2 evs ds :
  advanced s s1 [] [] -> advanced s1 s2 evs ds -> advanced s s2 evs ds.
Proof. intros A B. exact (advanced_trans _ _ _ _ _ _ _ A B). Qed.

Lemma advanced_before s s1 s2 evs ds :
  advanced s s1 evs ds -> advanced s1 s2 [] [] -> advanced s s2 evs ds.
Proof.
  intros A B. pose proof (advanced_trans _ _ _ _ _ _ _ A B) as C.
  now rewrite !app_nil_r in C.
Qed.

Lemma unpaused_ret {X} (x : X) : unpaused (ret x).
Proof. intros s. unfold advanced. cbn. now rewrite !app_nil_r. Qed.

Lemma unpaused_bind {X Y} (m : M X) (k : X -> M Y) :
  unpaused m -> (forall x, unpaused (k x)) -> unpaused (mbind m k).
Proof.
  intros Hm Hk s. unfold mbind. specialize (Hm s).
  destruct (m s) as [[x|e] s1]; cbn in Hm |- *; [|exact Hm].
  exact (advanced_after _ _ _ _ _ Hm (Hk x s1)).
Qed.

Lemma unpaused_try_except {X} (body handler : M X) :
  unpaused body -> unpaused handler -> unpaused (try_except body handler).
Proof.
  intros Hb Hh s. unfold try_except. specialize (Hb s).
  destruct (body s) as [[x|e] s1]; cbn in Hb |- *; [exact Hb|].
  exact (advanced_after _ _ _ _ _ Hb (Hh s1)).
Qed.

Lemma returns_unpaused {X} (m : M X) (s : State) :
  unpaused m -> returns m s (fun _ s1 => advanced s s1 [] []).
Proof.
  intros Hq. unfold returns. specialize (Hq s).
  destruct (m s) as [[x|e] s1]; [exact Hq|exact I].
Qed.

Lemma sleeps_snoc tr e :
  sleeps (tr ++ [e])
  = sleeps tr ++ match e with Sleep d => [d] | _ => [] end.
Proof.
  unfold sleeps. rewrite flat_map_app. cbn. now rewrite app_nil_r.
Qed.

Section World.
Variable env : Env.

Lemma unpaused_random : unpaused (random_random env).
Proof. intros s. unfold advanced. cbn. now rewrite !app_nil_r. Qed.

Lemma unpaused_choice seq : unpaused (random_choice env seq).
Proof. intros s. unfold advanced. cbn. now rewrite !app_nil_r. Qed.

Lemma unpaused_focus sel : unpaused (focus env sel).
Proof.
  assert (W : forall x, unpaused (page_wait_for_selector env x)).
  { intros x s. unfold advanced. cbn. now rewrite sleeps_snoc, !app_nil_r. }
  assert (C : forall x, unpaused (page_click env x)).
  { intros x s. unfold advanced. cbn. now rewrite sleeps_snoc, !app_nil_r. }
  unfold focus. apply unpaused_try_except.
  - destruct (0 <? String.length sel)%nat; [|apply C].
    apply unpaused_bind; [apply W|]. intros _. apply C.
  - apply unpaused_try_except; [apply C|apply unpaused_ret].
Qed.

Lemma time_sleep_advanced d s :
  returns (time_sleep env d) s (fun _ s' => advanced s s' [] [d]).
Proof.
  unfold returns.
  destruct (time_sleep_cases env d s) as [->|[e ->]]; [|exact I].
  unfold advanced. cbn. now rewrite sleeps_snoc, app_nil_r.
Qed.

Lemma int_to_float_returns z s :
  returns (lift (int_to_float z)) s
    (fun f s' => f = float_of_Z z /\ s' = s).
Proof.
  unfold returns, lift, int_to_float.
  now destruct (PrimFloat.is_infinity (float_of_Z z)).
Qed.

Lemma do_type_char_advanced ch s :
  returns (do_type_char env ch) s
    (fun _ s' =>
       exists e, action e = keypress /\ advanced s s' [e] []).
Proof.
  unfold returns, do_type_char, mbind, try_except, time_time,
    page_keyboard_press, page_keyboard_type, next_keyboard, page_evaluate,
    log_append, outcome.
  destruct (1 <? String.length ch)%nat; cbn;
    destruct (keyboard_ok env (n_keyboard s)); cbn;
    try destruct (evaluate_ok env (n_evaluate s)); cbn;
    try exact I;
    (eexists; split; [|unfold advanced; cbn;
                       rewrite ?sleeps_snoc, ?app_nil_r; split; reflexivity];
     reflexivity).
Qed.

Lemma do_backspace_advanced s :
  returns (do_backspace env) s
    (fun _ s' =>
       exists e, action e = backspace /\ advanced s s' [e] []).
Proof.
  unfold returns, do_backspace, mbind, try_except, time_time,
    page_keyboard_press, next_keyboard, page_evaluate, log_append, outcome.
  cbn. destruct (keyboard_ok env (n_keyboard s)); cbn;
    try destruct (evaluate_ok env (n_evaluate s)); cbn;
    try exact I;
    (eexists; split; [|unfold advanced; cbn;
                       rewrite ?sleeps_snoc, ?app_nil_r; split; reflexivity];
     reflexivity).
Qed.

Lemma uniform_advanced args s :
  returns (random_uniform env (delay_min args) (delay_max args)) s
    (fun d s' => drawn_pause env args (d / 1000) /\ advanced s s' [] []).
Proof.
  unfold random_uniform.
  apply (returns_seq _ _ _
           (fun r s1 => r = random_draw env (n_random s)
                        /\ advanced s s1 [] [])).
  { unfold returns, random_random, advanced. cbn.
    now rewrite !app_nil_r. }
  intros r s1 (-> & A).
  apply (returns_seq _ _ _ _ _ (int_to_float_returns _ s1)).
  intros width s2 (-> & ->).
  apply (returns_seq _ _ _ _ _ (int_to_float_returns _ s1)).
  intros low s2 (-> & ->).
  apply returns_ret. split; [|exact A]. now exists (n_random s).
Qed.

(** The delay after a character, or between a wrong key and its
    backspace. *)
Lemma pause_advanced args s :
  returns
    (mbind (random_uniform env (delay_min args) (delay_max args))
       (fun d => time_sleep env (d / 1000)))
    s
    (fun _ s' => exists d, drawn_pause env args d /\ advanced s s' [] [d]).
Proof.
  apply (returns_seq _ _ _ _ _ (uniform_advanced args s)).
  intros d s1 (D & A).
  apply (returns_weaken _ _ _ _ (time_sleep_advanced _ s1)).
  intros _ s2 A2. exists (d / 1000)%float. split; [exact D|].
  exact (advanced_after _ _ _ _ _ A A2).
Qed.

Lemma typo_advanced args ch s :
  returns
    (mbind (random_choice env lowercase)
       (fun wrong =>
          mbind (do_type_char env wrong)
            (fun _ =>
               mbind (random_uniform env (delay_min args) (delay_max args))
                 (fun d =>
                    mbind (time_sleep env (d / 1000))
                      (fun _ =>
                         mbind (do_backspace env)
                           (fun _ => do_type_char env ch))))))
    s
    (fun _ s' =>
       exists w b c d,
         action w = keypress /\ action b = backspace /\ action c = keypress
         /\ drawn_pause env args d
         /\ advanced s s' [w; b; c] [d]).
Proof.
  apply (returns_seq _ _ _ _ _ (returns_unpaused _ s (unpaused_choice _))).
  intros wrong s1 A1.
  apply (returns_seq _ _ _ _ _ (do_type_char_advanced _ s1)).
  intros _ s2 (w & Hw & A2).
  apply (returns_seq _ _ _ _ _ (uniform_advanced args s2)).
  intros d0 s3 (Hd & A3).
  apply (returns_seq _ _ _ _ _ (time_sleep_advanced _ s3)).
  intros _ s4 A4'.
  pose proof (advanced_after _ _ _ _ _ A3 A4') as A4.
  set (d := (d0 / 1000)%float) in *. clearbody d.
  apply (returns_seq _ _ _ _ _ (do_backspace_advanced s4)).
  intros _ s5 (b & Hb & A5).
  apply (returns_weaken _ _ _ _ (do_type_char_advanced _ s5)).
  intros _ s6 (c & Hc & A6).
  exists w, b, c, d. repeat (split; [assumption|]).
  apply (advanced_after _ _ _ _ _ A1).
  pose proof (advanced_trans _ _ _ _ _ _ _ A2 A4) as A24.
  pose proof (advanced_trans _ _ _ _ _ _ _ A5 A6) as A56.
  exact (advanced_trans _ _ _ _ _ _ _ A24 A56).
Qed.

(** One round of the loop. *)
Lemma type_one_advanced p args ch more s :
  returns (type_one env p args ch more) s
    (fun _ s' =>
       exists evs ds,
         advanced s s' evs ds
         /\ Forall (pause_of env p args) ds
         /\ length ds = pauses_for p evs).
Proof.
  destruct p; cbn [type_one pause_of pauses_for].
  - apply (returns_weaken _ _ _ _ (do_type_char_advanced _ s)).
    intros _ s1 (e & _ & A). exists [e], [].
    split; [exact A|]. split; [constructor|reflexivity].
  - apply (returns_seq _ _ _ _ _ (do_type_char_advanced _ s)).
    intros _ s1 (e & _ & A).
    apply (returns_seq _ _ _ _ _ (int_to_float_returns _ s1)).
    intros delay s1' (-> & ->).
    apply (returns_weaken _ _ _ _ (time_sleep_advanced _ s1)).
    intros _ s2 A2.
    exists [e], [(float_of_Z (fixed_delay_ms args) / 1000)%float].
    split; [|split].
    + exact (advanced_trans _ _ _ _ _ _ _ A A2).
    + now repeat constructor.
    + reflexivity.
  - apply (returns_seq _ _ _ _ _ (returns_unpaused _ s unpaused_random)).
    intros r s1 A1.
    apply (returns_seq _ _ _
             (fun _ s2 =>
                exists evs ds,
                  advanced s1 s2 evs ds
                  /\ Forall (drawn_pause env args) ds
                  /\ S (length ds) = length (filter is_keypress evs))).
    + destruct (PrimFloat.ltb r 0.02 && more).
      * apply (returns_weaken _ _ _ _ (typo_advanced args ch s1)).
        intros _ s2 (w & b & c & d & Hw & Hb & Hc & Hd & A).
        exists [w; b; c], [d]. split; [exact A|]. split.
        -- now repeat constructor.
        -- unfold is_keypress. cbn. now rewrite Hw, Hb, Hc.
      * apply (returns_weaken _ _ _ _ (do_type_char_advanced _ s1)).
        intros _ s2 (e & He & A). exists [e], []. split; [exact A|]. split.
        -- constructor.
        -- unfold is_keypress. cbn. now rewrite He.
    + intros _ s2 (evs & ds & A & F & L).
      apply (returns_weaken _ _ _ _ (pause_advanced args s2)).
      intros _ s3 (d & Hd & A3). exists evs, (ds ++ [d]). split; [|split].
      * apply (advanced_after _ _ _ _ _ A1).
        pose proof (advanced_trans _ _ _ _ _ _ _ A A3) as A'.
        now rewrite app_nil_r in A'.
      * apply Forall_app. split; [exact F|now repeat constructor].
      * rewrite length_app. cbn. lia.
Qed.

Lemma pauses_for_app p e1 e2 :
  pauses_for p (e1 ++ e2) = (pauses_for p e1 + pauses_for p e2)%nat.
Proof.
  destruct p; cbn; [reflexivity|apply length_app|].
  now rewrite filter_app, length_app.
Qed.

(** The loop. *)
Lemma type_loop_advanced p args rest :
  forall typed_count s,
    returns (type_loop env p args rest typed_count) s
      (fun _ s' =>
         exists evs ds,
           advanced s s' evs ds
           /\ Forall (pause_of env p args) ds
           /\ length ds = pauses_for p evs).
Proof.
  induction rest as [|c rest IH]; intros typed_count s; cbn [type_loop].
  - apply returns_ret. exists [], []. split; [apply unpaused_ret with (x := tt)|].
    split; [constructor|now destruct p].
  - destruct (typed_count <? max_chars args)%Z.
    + apply (returns_seq _ _ _ _ _ (type_one_advanced p args _ _ s)).
      intros _ s1 (e1 & d1 & A1 & F1 & L1).
      apply (returns_weaken _ _ _ _ (IH (typed_count + 1)%Z s1)).
      intros _ s2 (e2 & d2 & A2 & F2 & L2).
      exists (e1 ++ e2), (d1 ++ d2). split; [|split].
      * exact (advanced_trans _ _ _ _ _ _ _ A1 A2).
      * apply Forall_app. now split.
      * rewrite length_app, pauses_for_app. lia.
    + apply returns_ret. exists [], [].
      split; [apply unpaused_ret with (x := tt)|].
      split; [constructor|now destruct p].
Qed.

(** The whole run. *)
Lemma type_text_profile_advanced sel text p args s :
  returns (type_text_profile env sel text p args) s
    (fun lg s' =>
       exists ds,
         sleeps (trace s') = sleeps (trace s) ++ ds
         /\ Forall (pause_of env p args) ds
         /\ length ds = pauses_for p lg).
Proof.
  unfold type_text_profile.
  apply (returns_seq _ _ _
           (fun _ s0 => log s0 = [] /\ trace s0 = trace s)).
  { unfold returns, log_reset. cbn. auto. }
  intros _ s0 (L0 & T0).
  apply (returns_seq _ _ _ _ _ (returns_unpaused _ s0 (unpaused_focus sel))).
  intros _ s1 A1.
  apply (returns_seq _ _ _ _ _ (type_loop_advanced p args _ 0%Z s1)).
  intros _ s2 (evs & ds & A2 & F & L).
  destruct (advanced_after _ _ _ _ _ A1 A2) as (Hl & Ht).
  unfold returns, get_log. exists ds. rewrite Ht, T0, Hl, L0. cbn [app].
  auto.
Qed.

End World.

Lemma constant_pauses (c : float) ds :
  Forall (fun d => d = c) ds -> ds = repeat c (length ds).
Proof.
  induction 1 as [|d ds -> _ IH]; cbn; [reflexivity|]. now rewrite <- IH.
Qed.

(** X18. The pauses of a run that returns.  The superhuman profile never
    sleeps.  The fixed-delay profile sleeps once after every keypress it
    logs, always for [fixed_delay_ms / 1000] seconds.  The human-like
    profile sleeps once for every keypress it logs (after each character,
    and between a wrong key and its backspace), each time for a draw of
    [random.uniform(delay_min, delay_max)] milliseconds. *)
Theorem pauses_of_a_run :
  forall (env : Env) (sel text : string) (p : Profile) (args : Args)
         (s : State) (lg : list KeystrokeEvent),
    fst (type_text_profile env sel text p args s) = Ok lg ->
    exists ds,
      sleeps (trace (snd (type_text_profile env sel text p args s)))
      = sleeps (trace s) ++ ds
      /\ match p with
         | superhuman => ds = []
         | bot_obvious =>
             ds = repeat (float_of_Z (fixed_delay_ms args) / 1000)%float
                    (length lg)
         | human_like =>
             length ds = length (filter is_keypress lg)
             /\ Forall (drawn_pause env args) ds
         end.
Proof.
  intros env sel text p args s lg H.
  pose proof (type_text_profile_advanced env sel text p args s) as T.
  unfold returns in T.
  destruct (type_text_profile env sel text p args s) as [[x|e] s'];
    cbn in H; [|discriminate].
  injection H as ->. destruct T as (ds & Ht & F & L).
  exists ds. split; [exact Ht|].
  destruct p; cbn [pause_of pauses_for] in F, L.
  - now destruct ds.
  - rewrite <- L. now apply constant_pauses.
  - now split.
Qed.

Lemma pauses_of_a_run_witness :
  exists ds,
    sleeps (trace (snd (type_text_profile Samples.working
                          Samples.typing_input "hi" bot_obvious
                          (Samples.defaults bot_obvious) initial)))
    = sleeps (trace initial) ++ ds
    /\ ds = repeat (float_of_Z (fixed_delay_ms (Samples.defaults bot_obvious))
                    / 1000)%float
              (length [{| key := "h"; timestamp := 0; action := keypress |};
                       {| key := "i"; timestamp := 1; action := keypress |}]).
Proof.
  apply (pauses_of_a_run Samples.working Samples.typing_input "hi"
           bot_obvious (Samples.defaults bot_obvious) initial).
  vm_compute. reflexivity.
Defined.

End Cadence.

(* ================================================================== *)
(** * An iteration from the text of the page                           *)
(* ================================================================== *)

Section PageRuns.

Import TypespeedBot.

Lemma length_list_ascii_of_string (t : string) :
  length (list_ascii_of_string t) = String.length t.
Proof. induction t as [|c t IH]; cbn; [reflexivity|now rewrite IH]. Qed.

Lemma nonempty_string_length (t : string) :
  t <> EmptyString -> (String.length t =? 0)%nat = false.
Proof. destruct t; [congruence|reflexivity]. Qed.

(** What an iteration that types returns. *)
Lemma run_iteration_from_page_inversion env sel isspace isalpha args idx
      found obs s meta lg :
  fst (Iteration.run_iteration_from_page env sel isspace isalpha args idx
         found obs s) = Ok (Some (meta, lg)) ->
  exists raw,
    found = Ok raw /\ raw <> EmptyString
    /\ fst (type_text_profile env sel (Iteration.cleaned isspace isalpha raw)
              (mode args) args s) = Ok lg
    /\ keystrokes_count meta = length lg.
Proof.
  unfold Iteration.run_iteration_from_page.
  destruct found as [raw|e]; [|discriminate].
  destruct (String.length raw =? 0)%nat eqn:E; [discriminate|].
  intros H. exists raw. split; [reflexivity|].
  split; [intros ->; discriminate|].
  unfold mbind in H.
  destruct (type_text_profile env sel (Iteration.cleaned isspace isalpha raw)
              (mode args) args s) as [[kl|e] s1]; [|discriminate].
  unfold time_sleep in H. cbn in H.
  unfold lift in H.
  destruct (fallback_compute_wpm kl _) as [w|e]; cbn in H; [|discriminate].
  injection H as <- <-. cbn. auto.
Qed.

(** X19. An iteration types the cleaned text.  When the cleaned text is
    no longer than [max_chars], the log of an iteration that returns a
    record, read as the edits of an input field, spells a text that has
    the non-whitespace characters of the page text, in their order, with
    single spaces between its words and none at its ends; and the record
    counts the events of the log. *)
Theorem page_run_types_the_cleaned_text :
  forall (env : Env) (sel : string) (isspace isalpha : ascii -> bool),
    isspace TargetText.space = true ->
    isspace TargetText.nbsp = true ->
    isspace TargetText.newline = true ->
    isspace TargetText.carriage_return = true ->
    forall (args : Args) (idx : Z) (raw : string) (obs : Observed)
           (s : State) (meta : RunMeta) (lg : list KeystrokeEvent),
      (Z.of_nat (String.length (Iteration.cleaned isspace isalpha raw))
       <= max_chars args)%Z ->
      fst (Iteration.run_iteration_from_page env sel isspace isalpha args idx
             (Ok raw) obs s) = Ok (Some (meta, lg)) ->
      exists typed,
        replay lg = map key_of_char typed
        /\ TargetText.letters isspace typed
           = TargetText.letters isspace (list_ascii_of_string raw)
        /\ TargetText.tidy isspace typed = true
        /\ keystrokes_count meta = length lg.
Proof.
  intros env sel isspace isalpha H1 H2 H3 H4 args idx raw obs s meta lg
         Hmax H.
  apply run_iteration_from_page_inversion in H.
  destruct H as (raw' & E & _ & T & K). injection E as <-.
  exists (TargetText.clean isspace isalpha (list_ascii_of_string raw)).
  split; [|split; [|split]].
  - pose proof (type_text_profile_typed env sel
                  (Iteration.cleaned isspace isalpha raw) (mode args) args s)
      as R.
    unfold returns in R.
    destruct (type_text_profile env sel _ (mode args) args s)
      as [[x|e] s']; cbn in T; [|discriminate].
    injection T as ->. destruct R as (R & _).
    unfold replay. rewrite (rounds_replay _ _ _ R []).
    rewrite loop_rounds_typed_chars. cbn [app]. f_equal.
    unfold typed_chars. rewrite firstn_all2.
    + unfold Iteration.cleaned.
      apply list_ascii_of_string_of_list_ascii.
    + rewrite length_list_ascii_of_string. lia.
  - now apply letters_clean.
  - now apply tidy_clean.
  - exact K.
Qed.

Lemma page_run_types_the_cleaned_text_witness :
  exists typed,
    replay Samples.page_log = map key_of_char typed
    /\ TargetText.letters TargetText.ascii_isspace typed
       = TargetText.letters TargetText.ascii_isspace
           (list_ascii_of_string Samples.page_text)
    /\ TargetText.tidy TargetText.ascii_isspace typed = true
    /\ keystrokes_count Samples.page_meta = length Samples.page_log.
Proof.
  apply (page_run_types_the_cleaned_text Samples.working
           Samples.typing_input TargetText.ascii_isspace
           TargetText.ascii_isalpha eq_refl eq_refl eq_refl eq_refl
           (Samples.defaults superhuman) 1 Samples.page_text
           Samples.no_panel initial).
  - apply Z.leb_le. vm_compute. reflexivity.
  - vm_compute. reflexivity.
Defined.

(** X20. A page text that is not empty but holds only whitespace passes
    the test for a missing text: the iteration goes on with an empty
    cleaned text, sends no key, and returns a record with an empty log,
    zero keystrokes and a computed WPM of zero. *)
Theorem whitespace_page_is_recorded :
  forall (env : Env) (sel : string) (isspace isalpha : ascii -> bool),
    isspace TargetText.space = true ->
    isspace TargetText.nbsp = true ->
    isspace TargetText.newline = true ->
    isspace TargetText.carriage_return = true ->
    forall (args : Args) (idx : Z) (raw : string) (obs : Observed)
           (s : State),
      raw <> EmptyString ->
      forallb isspace (list_ascii_of_string raw) = true ->
      fst (Iteration.run_iteration_from_page env sel isspace isalpha args idx
             (Ok raw) obs s)
      = Ok (Some ({| iteration := idx;
                     profile := mode args;
                     meta_site_mode := site_mode args;
                     start_time := utc_start obs;
                     extracted_wpm :=
                       match page_wpm obs with Some w => w | None => 0 end;
                     extracted_accuracy := page_accuracy obs;
                     computed_wpm := 0;
                     keystrokes_count := 0;
                     end_time := utc_end obs |}, []))
      /\ n_keyboard
           (snd (Iteration.run_iteration_from_page env sel isspace isalpha
                   args idx (Ok raw) obs s))
         = n_keyboard s
      /\ n_evaluate
           (snd (Iteration.run_iteration_from_page env sel isspace isalpha
                   args idx (Ok raw) obs s))
         = n_evaluate s.
Proof.
  intros env sel isspace isalpha H1 H2 H3 H4 args idx raw obs s Hne Hws.
  unfold Iteration.run_iteration_from_page.
  rewrite (nonempty_string_length raw Hne).
  assert (C : Iteration.cleaned isspace isalpha raw = EmptyString).
  { unfold Iteration.cleaned.
    now rewrite (proj2 (clean_of_spaces isspace isalpha H1 H2 H3 H4 _) Hws). }
  rewrite C. unfold type_text_profile, mbind, log_reset.
  cbn [list_ascii_of_string type_loop].
  match goal with
  | |- context [focus env sel ?s0] =>
      destruct (focus_returns env sel s0) as (F & _ & K & E & _ & _ & L);
      destruct (focus env sel s0) as [[[]|e] s1]; cbn in F, K, E, L;
      [|discriminate]
  end.
  unfold ret, get_log, time_sleep, lift. cbn.
  rewrite <- L. cbn. auto.
Qed.

Lemma whitespace_page_is_recorded_witness :
  fst (Iteration.run_iteration_from_page Samples.working
         Samples.typing_input TargetText.ascii_isspace
         TargetText.ascii_isalpha (Samples.defaults human_like) 7
         (Ok (String "010"%char "  ")) Samples.no_panel initial)
  = Ok (Some ({| iteration := 7;
                 profile := human_like;
                 meta_site_mode := "standard";
                 start_time := utc_start Samples.no_panel;
                 extracted_wpm := 0;
                 extracted_accuracy := None;
                 computed_wpm := 0;
                 keystrokes_count := 0;
                 end_time := utc_end Samples.no_panel |}, []))
  /\ n_keyboard
       (snd (Iteration.run_iteration_from_page Samples.working
               Samples.typing_input TargetText.ascii_isspace
               TargetText.ascii_isalpha (Samples.defaults human_like) 7
               (Ok (String "010"%char "  ")) Samples.no_panel initial))
     = n_keyboard initial
  /\ n_evaluate
       (snd (Iteration.run_iteration_from_page Samples.working
               Samples.typing_input TargetText.ascii_isspace
               TargetText.ascii_isalpha (Samples.defaults human_like) 7
               (Ok (String "010"%char "  ")) Samples.no_panel initial))
     = n_evaluate initial.
Proof.
  apply (whitespace_page_is_recorded Samples.working Samples.typing_input
           TargetText.ascii_isspace TargetText.ascii_isalpha
           eq_refl eq_refl eq_refl eq_refl
           (Samples.defaults human_like) 7 (String "010"%char "  ")
           Samples.no_panel initial).
  - discriminate.
  - reflexivity.
Defined.

End PageRuns.
